(** * RDT class-of-service allocation and monitoring: a shallow embedding

    The development follows [common/msr_utils.c], the RDT test program
    that uses it, [rdt/rdt_monitor.c] and [rdt/rdt_bench.c].

    C integers are mathematical integers with the wrap-around of their
    type written out: [u64] for [uint64_t], [u32] for [uint32_t].  The
    per-CPU MSR devices are a finite map from (cpu, register) to the
    register's contents; every call of [msr_read_cpu] / [msr_write_cpu]
    is recorded in a trace so that statements about which accesses a
    function performs, and in which order, can be made. *)

From Stdlib Require Import ZArith List Bool Lia Ascii.
From stdpp Require Import base option list gmap.

Local Open Scope Z_scope.

(** ** Machine integers *)

Module Word.

Definition u64 (x : Z) : Z := x mod 2 ^ 64.
Definition u32 (x : Z) : Z := x mod 2 ^ 32.

(** [(int)x] of a 64-bit value: the low 32 bits, read as two's complement. *)
Definition to_int (x : Z) : Z :=
  let y := u32 x in if y <? 2 ^ 31 then y else y - 2 ^ 32.

Definition is_u64 (x : Z) : Prop := 0 <= x < 2 ^ 64.
Definition is_int (x : Z) : Prop := - 2 ^ 31 <= x < 2 ^ 31.

(** [~x] on [uint64_t]. *)
Definition not64 (x : Z) : Z := u64 (Z.lnot x).

(** [x << n] on [uint64_t]. *)
Definition shl64 (x n : Z) : Z := u64 (Z.shiftl x n).

(** [x - y] and [x * y] on [uint64_t]. *)
Definition sub64 (x y : Z) : Z := u64 (x - y).
Definition mul64 (x y : Z) : Z := u64 (x * y).
Definition add64 (x y : Z) : Z := u64 (x + y).

End Word.

Import Word.

(** ** Error codes of [common/common.h] *)

Definition SUCCESS : Z := 0.
Definition ERROR_PERMISSION : Z := -1.
Definition ERROR_NOT_SUPPORTED : Z := -2.
Definition ERROR_INVALID_PARAM : Z := -3.
Definition ERROR_SYSTEM : Z := -4.

(** ** Register addresses of [common/msr_utils.h] *)

Definition MSR_IA32_L3_MASK_0 : Z := 0xC90.
Definition MSR_IA32_PQR_ASSOC : Z := 0xC8F.
Definition MSR_IA32_QM_EVTSEL : Z := 0xC8D.
Definition MSR_IA32_QM_CTR : Z := 0xC8E.
Definition MSR_IA32_MBA_THRTL_MSR : Z := 0xD50.

(** Limits of the RDT test program and of [rdt/rdt_monitor.c]. *)

Definition MAX_CLOS : Z := 16.
Definition MAX_RMID : Z := 256.

(** ** Field manipulation ([msr_get_field], [msr_set_field])

    A C shift is defined for a count below the width of the type only.
    The two definitions stand for the C functions on
    [0 <= start_bit < 64] and [0 <= num_bits <= 63]; what is stated of
    the functions below stays within that range. *)

(** [mask = (1ULL << num_bits) - 1] *)
Definition field_mask (num_bits : Z) : Z := sub64 (shl64 1 num_bits) 1.

Definition msr_get_field (value start_bit num_bits : Z) : Z :=
  let mask := field_mask num_bits in
  Z.land (Z.shiftr value start_bit) mask.

Definition msr_set_field (value start_bit num_bits field_value : Z) : Z :=
  let mask := field_mask num_bits in
  let value := Z.land value (not64 (shl64 mask start_bit)) in
  let value := Z.lor value (shl64 (Z.land field_value mask) start_bit) in
  value.

(** ** The machine: per-CPU MSR devices

    [regs] maps (cpu, register) to the contents of an implemented
    register; [devs] is the set of CPUs whose [/dev/cpu/N/msr] opens;
    [accepts cpu msr v] tells whether the hardware takes the value [v]
    written to that register.  The counter register is driven by the
    hardware: [qm_ctr_feed] lists the values its next reads present
    (once the feed is used up a read shows the register's stored
    contents).  [trace] records every [msr_read_cpu] and [msr_write_cpu]
    call with its result, oldest first. *)

Inductive access : Type :=
| Rd (cpu msr : Z) (res : Z)
| Wr (cpu msr value : Z) (res : Z).

Record machine : Type := Machine {
  nprocs : Z;
  sched_cpu : Z;
  feature_mba : bool;
  devs : gset Z;
  regs : gmap (Z * Z) Z;
  accepts : Z -> Z -> Z -> bool;
  qm_ctr_feed : list Z;
  trace : list access
}.

Definition set_regs (m : machine) (r : gmap (Z * Z) Z) : machine :=
  {| nprocs := nprocs m; sched_cpu := sched_cpu m; feature_mba := feature_mba m;
     devs := devs m; regs := r; accepts := accepts m;
     qm_ctr_feed := qm_ctr_feed m; trace := trace m |}.

Definition set_trace (m : machine) (t : list access) : machine :=
  {| nprocs := nprocs m; sched_cpu := sched_cpu m; feature_mba := feature_mba m;
     devs := devs m; regs := regs m; accepts := accepts m;
     qm_ctr_feed := qm_ctr_feed m; trace := t |}.

Definition set_feed (m : machine) (f : list Z) : machine :=
  {| nprocs := nprocs m; sched_cpu := sched_cpu m; feature_mba := feature_mba m;
     devs := devs m; regs := regs m; accepts := accepts m;
     qm_ctr_feed := f; trace := trace m |}.

(** *** State passing *)

Definition M (A : Type) : Type := machine -> A * machine.

#[global] Instance M_ret : MRet M := fun A (a : A) m => (a, m).
#[global] Instance M_bind : MBind M :=
  fun A B (k : A -> M B) (c : M A) m => let (a, m') := c m in k a m'.

Definition record (a : access) : M unit :=
  fun m => (tt, set_trace m (trace m ++ [a])).

(** *** [msr_open], [msr_read], [msr_write]

    A descriptor is identified with the index of the CPU whose device it
    names; [-1] is the failed [open].  The out-parameter [value] of the
    C functions is threaded through: a failed read leaves it as it was.
    Its pointer is never [NULL] at a call site of this development.
    [record] appends to the trace; it is the only part with no
    counterpart in the C text. *)

Definition msr_open (cpu : Z) : M Z :=
  fun m => (if decide (cpu ∈ devs m) then cpu else -1, m).

Definition msr_read (fd msr value : Z) : M (Z * Z) :=
  if fd <? 0 then mret (ERROR_INVALID_PARAM, value)
  else fun m =>
    match regs m !! (fd, msr) with
    | Some v =>
        if msr =? MSR_IA32_QM_CTR then
          match qm_ctr_feed m with
          | x :: feed' => ((SUCCESS, u64 x), set_feed m feed')
          | [] => ((SUCCESS, u64 v), m)
          end
        else ((SUCCESS, u64 v), m)
    | None => ((ERROR_SYSTEM, value), m)
    end.

Definition msr_write (fd msr value : Z) : M Z :=
  if fd <? 0 then mret ERROR_INVALID_PARAM
  else fun m =>
    match regs m !! (fd, msr) with
    | Some _ =>
        if accepts m fd msr value
        then (SUCCESS, set_regs m (<[(fd, msr) := value]> (regs m)))
        else (ERROR_SYSTEM, m)
    | None => (ERROR_SYSTEM, m)
    end.

Definition msr_read_cpu (cpu msr value : Z) : M (Z * Z) :=
  fd ← msr_open cpu;
  if fd <? 0 then
    record (Rd cpu msr ERROR_SYSTEM);; mret (ERROR_SYSTEM, value)
  else
    rv ← msr_read fd msr value;
    record (Rd cpu msr rv.1);; mret rv.

Definition msr_write_cpu (cpu msr value : Z) : M Z :=
  fd ← msr_open cpu;
  if fd <? 0 then
    record (Wr cpu msr value ERROR_SYSTEM);; mret ERROR_SYSTEM
  else
    r ← msr_write fd msr value;
    record (Wr cpu msr value r);; mret r.

Definition get_cpu_count : M Z := fun m => (nprocs m, m).
Definition sched_getcpu : M Z := fun m => (sched_cpu m, m).
Definition check_cpu_feature_mba : M Z :=
  fun m => (if feature_mba m then SUCCESS else ERROR_NOT_SUPPORTED, m).

(** [for (i = start; ...; i++) body], run for [count] iterations at most;
    a body that yields [Some r] is a [return r] out of the loop. *)
Fixpoint for_range (count : nat) (i : Z) (body : Z -> M (option Z)) : M (option Z) :=
  match count with
  | O => mret None
  | S count' =>
      r ← body i;
      match r with
      | Some e => mret (Some e)
      | None => for_range count' (i + 1) body
      end
  end.

(** ** Batch operations ([msr_write_all_cpus]) *)

Definition msr_write_all_cpus (msr value max_cpus : Z) : M Z :=
  cpu_count ← get_cpu_count;
  let cpu_count := if cpu_count >? max_cpus then max_cpus else cpu_count in
  r ← for_range (Z.to_nat cpu_count) 0 (fun i =>
         r ← msr_write_cpu i msr value;
         if negb (r =? SUCCESS) then mret (Some ERROR_SYSTEM) else mret None);
  match r with
  | Some e => mret e
  | None => mret cpu_count
  end.

(** ** Allocation ([rdt_read_l3_mask] .. [rdt_get_clos])

    [MSR_IA32_L3_MASK_0 + clos_id] is computed on [int] and converted to
    the [uint32_t] register address; [(uint64_t)clos_id] is [u64 clos_id].
    The local [value] that C leaves uninitialised starts at 0: it is
    only used after a successful read has overwritten it. *)

Definition rdt_read_l3_mask (clos_id mask : Z) : M (Z * Z) :=
  if clos_id >=? MAX_CLOS then mret (ERROR_INVALID_PARAM, mask)
  else
    let msr := u32 (MSR_IA32_L3_MASK_0 + clos_id) in
    msr_read_cpu 0 msr mask.

Definition rdt_write_l3_mask (clos_id mask : Z) : M Z :=
  if clos_id >=? MAX_CLOS then mret ERROR_INVALID_PARAM
  else
    let msr := u32 (MSR_IA32_L3_MASK_0 + clos_id) in
    cpu_count ← get_cpu_count;
    r ← for_range (Z.to_nat cpu_count) 0 (fun cpu =>
           r ← msr_write_cpu cpu msr mask;
           if negb (r =? SUCCESS) then mret (Some ERROR_SYSTEM) else mret None);
    match r with
    | Some e => mret e
    | None => mret SUCCESS
    end.

Definition rdt_set_clos (cpu clos_id : Z) : M Z :=
  if clos_id >=? MAX_CLOS then mret ERROR_INVALID_PARAM
  else
    rv ← msr_read_cpu cpu MSR_IA32_PQR_ASSOC 0;
    if negb (rv.1 =? SUCCESS) then mret ERROR_SYSTEM
    else
      let value := Z.lor (Z.land rv.2 0xFFFFFFFF00000000) (u64 clos_id) in
      msr_write_cpu cpu MSR_IA32_PQR_ASSOC value.

Definition rdt_get_clos (cpu clos_id : Z) : M (Z * Z) :=
  rv ← msr_read_cpu cpu MSR_IA32_PQR_ASSOC 0;
  if negb (rv.1 =? SUCCESS) then mret (ERROR_SYSTEM, clos_id)
  else mret (SUCCESS, to_int (Z.land rv.2 0xFFFFFFFF)).

(** ** Monitoring identifiers ([rdt/rdt_monitor.c]) *)

Definition rdt_monitor_set_rmid (cpu rmid : Z) : M Z :=
  if rmid >=? MAX_RMID then mret ERROR_INVALID_PARAM
  else
    rv ← msr_read_cpu cpu MSR_IA32_PQR_ASSOC 0;
    if negb (rv.1 =? SUCCESS) then mret ERROR_SYSTEM
    else
      let value := Z.lor (Z.land rv.2 0x00000000FFFFFFFF) (shl64 (u64 rmid) 32) in
      msr_write_cpu cpu MSR_IA32_PQR_ASSOC value.

Definition rdt_monitor_get_rmid (cpu rmid : Z) : M (Z * Z) :=
  rv ← msr_read_cpu cpu MSR_IA32_PQR_ASSOC 0;
  if negb (rv.1 =? SUCCESS) then mret (ERROR_SYSTEM, rmid)
  else mret (SUCCESS, to_int (Z.shiftr rv.2 32)).

(** ** The benchmark's own setters ([rdt/rdt_bench.c]) *)

Definition setup_rdt_clos (clos_id l3_mask mb_throttle : Z) : M Z :=
  r ← msr_write_cpu 0 (u32 (MSR_IA32_L3_MASK_0 + clos_id)) l3_mask;
  if negb (r =? SUCCESS) then mret ERROR_SYSTEM
  else
    f ← check_cpu_feature_mba;
    (if (f =? SUCCESS) && (mb_throttle >? 0) then
       msr_write_cpu 0 (u32 (MSR_IA32_MBA_THRTL_MSR + clos_id)) mb_throttle;; mret tt
     else mret tt);;
    mret SUCCESS.

Definition assign_thread_to_clos (clos_id : Z) : M Z :=
  cpu ← sched_getcpu;
  if cpu <? 0 then mret ERROR_SYSTEM
  else
    rv ← msr_read_cpu cpu MSR_IA32_PQR_ASSOC 0;
    if negb (rv.1 =? SUCCESS) then mret ERROR_SYSTEM
    else
      let value := Z.lor (Z.land rv.2 0x00000000FFFFFFFF) (shl64 (u64 clos_id) 32) in
      msr_write_cpu cpu MSR_IA32_PQR_ASSOC value.

(** ** Sampling the shared counter ([rdt/rdt_monitor.c])

    The event-select register and the counter register are one pair on
    CPU 0; an event is sampled by writing the selector (identifier in
    the low half, event id in bits 63:32) and then reading the counter. *)

Definition EVT_LLC_OCCUPANCY : Z := 1.
Definition EVT_MBM_TOTAL : Z := 2.
Definition EVT_MBM_LOCAL : Z := 3.

(** [rmid | (event << 32)] with [rmid] an [int] and the event an
    [unsigned long long]. *)
Definition evtsel_of (rmid event : Z) : Z := Z.lor (u64 rmid) (shl64 event 32).

Definition rdt_monitor_read_llc_occupancy (rmid occupancy : Z) : M (Z * Z) :=
  let evtsel := evtsel_of rmid EVT_LLC_OCCUPANCY in
  r ← msr_write_cpu 0 MSR_IA32_QM_EVTSEL evtsel;
  if negb (r =? SUCCESS) then mret (ERROR_SYSTEM, occupancy)
  else
    rv ← msr_read_cpu 0 MSR_IA32_QM_CTR occupancy;
    if negb (rv.1 =? SUCCESS) then mret (ERROR_SYSTEM, rv.2)
    else mret (SUCCESS, mul64 rv.2 64).

Definition rdt_monitor_read_mbm_total (rmid bandwidth : Z) : M (Z * Z) :=
  let evtsel := evtsel_of rmid EVT_MBM_TOTAL in
  r ← msr_write_cpu 0 MSR_IA32_QM_EVTSEL evtsel;
  if negb (r =? SUCCESS) then mret (ERROR_SYSTEM, bandwidth)
  else
    rv ← msr_read_cpu 0 MSR_IA32_QM_CTR bandwidth;
    if negb (rv.1 =? SUCCESS) then mret (ERROR_SYSTEM, rv.2)
    else mret (SUCCESS, rv.2).

Definition rdt_monitor_read_mbm_local (rmid bandwidth : Z) : M (Z * Z) :=
  let evtsel := evtsel_of rmid EVT_MBM_LOCAL in
  r ← msr_write_cpu 0 MSR_IA32_QM_EVTSEL evtsel;
  if negb (r =? SUCCESS) then mret (ERROR_SYSTEM, bandwidth)
  else
    rv ← msr_read_cpu 0 MSR_IA32_QM_CTR bandwidth;
    if negb (rv.1 =? SUCCESS) then mret (ERROR_SYSTEM, rv.2)
    else mret (SUCCESS, rv.2).

(** *** [rdt_monitor_continuous] *)

Record rdt_monitor_data_t : Type := MonitorData {
  rmid : Z;
  llc_occupancy : Z;
  mbm_total : Z;
  mbm_local : Z;
  timestamp : Z
}.

(** [rdt_monitor_data_t x = {0}] *)
Definition monitor_data_zero : rdt_monitor_data_t :=
  {| rmid := 0; llc_occupancy := 0; mbm_total := 0; mbm_local := 0; timestamp := 0 |}.

(** One printed line of the monitor: the arguments of its [printf].  The
    elapsed time is kept in microseconds (the program prints it divided
    by a million). *)
Record monitor_line : Type := MonitorLine {
  ml_elapsed_us : Z;
  ml_rmid : Z;
  ml_llc_kb : Z;
  ml_mbm_total_mbs : Z;
  ml_mbm_local_mbs : Z
}.

(** The block "Calculate bandwidth (if we have previous data)". *)
Definition monitor_rate_line (start_time : Z) (prev_data curr_data : rdt_monitor_data_t)
  : option monitor_line :=
  if timestamp prev_data >? 0 then
    let time_diff := sub64 (timestamp curr_data) (timestamp prev_data) in
    if time_diff >? 0 then
      let mbm_total_rate :=
        mul64 (sub64 (mbm_total curr_data) (mbm_total prev_data)) 1000000 / time_diff in
      let mbm_local_rate :=
        mul64 (sub64 (mbm_local curr_data) (mbm_local prev_data)) 1000000 / time_diff in
      Some {| ml_elapsed_us := sub64 (timestamp curr_data) start_time;
              ml_rmid := rmid curr_data;
              ml_llc_kb := llc_occupancy curr_data / 1024;
              ml_mbm_total_mbs := mbm_total_rate / (1024 * 1024);
              ml_mbm_local_mbs := mbm_local_rate / (1024 * 1024) |}
    else None
  else None.

(** The loop runs against a schedule of clock readings: each iteration
    takes the reading of the loop condition and the reading stored in
    [curr_data.timestamp].  The schedule running out is the [running]
    flag being cleared.  The result is the list of printed lines. *)
Fixpoint monitor_loop (start_time end_time : Z) (schedule : list (Z * Z))
    (prev_data curr_data : rdt_monitor_data_t) : M (list monitor_line) :=
  match schedule with
  | [] => mret []
  | (t_cond, t_curr) :: schedule' =>
      if negb (t_cond <? end_time) then mret []
      else
        let id := 0 in
        ro ← rdt_monitor_read_llc_occupancy id (llc_occupancy curr_data);
        if negb (ro.1 =? SUCCESS) then mret []
        else
          rt ← rdt_monitor_read_mbm_total id (mbm_total curr_data);
          if negb (rt.1 =? SUCCESS) then mret []
          else
            rl ← rdt_monitor_read_mbm_local id (mbm_local curr_data);
            if negb (rl.1 =? SUCCESS) then mret []
            else
              let curr_data :=
                {| rmid := id; llc_occupancy := ro.2; mbm_total := rt.2;
                   mbm_local := rl.2; timestamp := t_curr |} in
              let line := monitor_rate_line start_time prev_data curr_data in
              lines ← monitor_loop start_time end_time schedule' curr_data curr_data;
              mret (option_list line ++ lines)
  end.

Definition rdt_monitor_continuous (duration_seconds start_time : Z)
    (schedule : list (Z * Z)) : M (list monitor_line) :=
  let end_time := add64 start_time (mul64 (u64 duration_seconds) 1000000) in
  monitor_loop start_time end_time schedule monitor_data_zero monitor_data_zero.

(** *** [monitor_rdt_metrics] of [rdt/rdt_bench.c] *)

Record bench_line : Type := BenchLine {
  bl_elapsed_us : Z;
  bl_llc_kb : Z;
  bl_mbm_total_mbs : Z;
  bl_mbm_local_mbs : Z
}.

(** The block "Calculate rates". *)
Definition bench_rate_line (start_time prev_timestamp prev_mbm_total prev_mbm_local
    curr_timestamp llc_occupancy mbm_total mbm_local : Z) : option bench_line :=
  if prev_timestamp >? 0 then
    let time_diff := sub64 curr_timestamp prev_timestamp in
    let rates :=
      if time_diff >? 0 then
        (mul64 (sub64 mbm_total prev_mbm_total) 1000000 / time_diff,
         mul64 (sub64 mbm_local prev_mbm_local) 1000000 / time_diff)
      else (0, 0) in
    Some {| bl_elapsed_us := sub64 curr_timestamp start_time;
            bl_llc_kb := llc_occupancy / 1024;
            bl_mbm_total_mbs := rates.1 / (1024 * 1024);
            bl_mbm_local_mbs := rates.2 / (1024 * 1024) |}
  else None.

(** Select an event for identifier 0 and, if the select went through,
    read the counter into [value]; failures are ignored. *)
Definition bench_sample (event value : Z) : M (Z * Z) :=
  let evtsel := Z.lor 0 (shl64 event 32) in
  r ← msr_write_cpu 0 MSR_IA32_QM_EVTSEL evtsel;
  if r =? SUCCESS then msr_read_cpu 0 MSR_IA32_QM_CTR value
  else mret (r, value).

Fixpoint bench_loop (start_time end_time : Z) (schedule : list (Z * Z))
    (prev_mbm_total prev_mbm_local prev_timestamp : Z) : M (list bench_line) :=
  match schedule with
  | [] => mret []
  | (t_cond, curr_timestamp) :: schedule' =>
      if negb (t_cond <? end_time) then mret []
      else
        ro ← bench_sample EVT_LLC_OCCUPANCY 0;
        let llc_occupancy := if ro.1 =? SUCCESS then mul64 ro.2 64 else ro.2 in
        rt ← bench_sample EVT_MBM_TOTAL 0;
        let mbm_total := rt.2 in
        rl ← bench_sample EVT_MBM_LOCAL 0;
        let mbm_local := rl.2 in
        let line := bench_rate_line start_time prev_timestamp prev_mbm_total
                      prev_mbm_local curr_timestamp llc_occupancy mbm_total mbm_local in
        lines ← bench_loop start_time end_time schedule' mbm_total mbm_local curr_timestamp;
        mret (option_list line ++ lines)
  end.

Definition monitor_rdt_metrics (duration start_time : Z) (schedule : list (Z * Z))
  : M (list bench_line) :=
  let end_time := add64 start_time (mul64 (u64 duration) 1000000) in
  bench_loop start_time end_time schedule 0 0 start_time.

(** ** The RDT test program's checks *)

(** [rdt_test_cache_allocation]; locals that C leaves uninitialised are
    started at 0 (they are only used after a successful read). *)
Definition rdt_test_cache_allocation : M Z :=
  ro ← rdt_read_l3_mask 1 0;
  if negb (ro.1 =? SUCCESS) then mret ERROR_SYSTEM
  else
    let original_mask := ro.2 in
    let restricted_mask := 0x3FF in
    r ← rdt_write_l3_mask 1 restricted_mask;
    if negb (r =? SUCCESS) then mret ERROR_SYSTEM
    else
      rr ← rdt_read_l3_mask 1 0;
      if negb (rr.1 =? SUCCESS) then mret ERROR_SYSTEM
      else
        let read_mask := rr.2 in
        if negb (read_mask =? restricted_mask) then mret ERROR_SYSTEM
        else
          rdt_write_l3_mask 1 original_mask;;
          mret SUCCESS.

(** The latency loop of [rdt_test_dynamic_switching]:
    [for (i = 0; i < n; i++) rdt_set_clos(0, (i % 2) ? 1 : 0);] *)
Definition requested_clos (i : Z) : Z := if negb (i mod 2 =? 0) then 1 else 0.

Definition switching_loop (n : nat) : M (option Z) :=
  for_range n 0 (fun i => rdt_set_clos 0 (requested_clos i);; mret None).


(** ** Example machines *)

(** Two CPUs with the association word, the mask registers of classes 0
    and 1 and the monitoring pair implemented; every value is accepted. *)
Definition demo_regs : gmap (Z * Z) Z :=
  list_to_map
    [ ((0, MSR_IA32_PQR_ASSOC), 0); ((1, MSR_IA32_PQR_ASSOC), 0);
      ((0, MSR_IA32_L3_MASK_0), 0xFFFF); ((1, MSR_IA32_L3_MASK_0), 0xFFFF);
      ((0, MSR_IA32_L3_MASK_0 + 1), 0xFFFF); ((1, MSR_IA32_L3_MASK_0 + 1), 0xFFFF);
      ((0, MSR_IA32_QM_EVTSEL), 0); ((0, MSR_IA32_QM_CTR), 5000) ].

Definition demo : machine :=
  {| nprocs := 2; sched_cpu := 0; feature_mba := false;
     devs := {[ 0; 1 ]}; regs := demo_regs;
     accepts := fun _ _ _ => true; qm_ctr_feed := []; trace := [] |}.

(** * Vocabulary of the statements *)

(** ** Outcome of the two access primitives *)

(** A write goes through iff the device opens, the register exists and
    the hardware takes the value. *)
Definition write_ok (m : machine) (cpu msr value : Z) : bool :=
  bool_decide (cpu ∈ devs m) && (0 <=? cpu)
  && bool_decide (is_Some (regs m !! (cpu, msr))) && accepts m cpu msr value.

(** What a read returns and the machine it leaves, if it goes through. *)
Definition read_step (m : machine) (cpu msr : Z) : option (Z * machine) :=
  if bool_decide (cpu ∈ devs m) && (0 <=? cpu) then
    match regs m !! (cpu, msr) with
    | Some v =>
        if msr =? MSR_IA32_QM_CTR then
          match qm_ctr_feed m with
          | x :: feed' => Some (u64 x, set_feed m feed')
          | [] => Some (u64 v, m)
          end
        else Some (u64 v, m)
    | None => None
    end
  else None.

(** The machine after a write that went through. *)
Definition written (m : machine) (cpu msr value : Z) : machine :=
  set_trace (set_regs m (<[(cpu, msr) := value]> (regs m)))
    (trace m ++ [Wr cpu msr value SUCCESS]).

Definition logged (m : machine) (a : access) : machine :=
  set_trace m (trace m ++ [a]).

(** ** The two halves of the association word *)

(** The class-id half as [rdt_get_clos] extracts it, the monitoring-id
    half as [rdt_monitor_get_rmid] does. *)
Definition clos_half (w : Z) : Z := Z.land w 0xFFFFFFFF.
Definition rmid_half (w : Z) : Z := Z.shiftr w 32.

(** ** Read-modify-write of the association word

    [rdt_set_clos], [rdt_monitor_set_rmid] and [assign_thread_to_clos]
    share one shape after their guards: read the word, compute the new
    word, write it back. *)

Definition assoc_rmw (cpu : Z) (f : Z -> Z) : M Z :=
  rv ← msr_read_cpu cpu MSR_IA32_PQR_ASSOC 0;
  if negb (rv.1 =? SUCCESS) then mret ERROR_SYSTEM
  else msr_write_cpu cpu MSR_IA32_PQR_ASSOC (f rv.2).

Definition put_clos (clos_id w : Z) : Z := Z.lor (Z.land w 0xFFFFFFFF00000000) (u64 clos_id).
Definition put_rmid (rmid w : Z) : Z := Z.lor (Z.land w 0x00000000FFFFFFFF) (shl64 (u64 rmid) 32).

(** The device of [cpu] opens. *)
Definition dev_ok (m : machine) (cpu : Z) : bool :=
  bool_decide (cpu ∈ devs m) && (0 <=? cpu).

(** The stored association word of [cpu] as a read would show it. *)
Definition assoc_word (m : machine) (cpu : Z) : option Z :=
  if dev_ok m cpu then u64 <$> regs m !! (cpu, MSR_IA32_PQR_ASSOC) else None.

(** ** The write loop over all CPUs

    [msr_write_all_cpus] and [rdt_write_l3_mask] run the same loop. *)

Definition write_each (msr value : Z) (count : nat) (start : Z) : M (option Z) :=
  for_range count start (fun cpu =>
    r ← msr_write_cpu cpu msr value;
    if negb (r =? SUCCESS) then mret (Some ERROR_SYSTEM) else mret None).

(** The machine after the writes of [value] to [msr] went through on
    each CPU of [cpus], in that order. *)
Definition after_writes (msr value : Z) (m : machine) (cpus : list Z) : machine :=
  foldl (fun m cpu => written m cpu msr value) m cpus.

(** The first access a computation performs on [m]. *)
Definition first_access {A : Type} (c : M A) (m : machine) (a : access) : Prop :=
  exists rest, trace (c m).2 = trace m ++ a :: rest.

(** ** The batch write *)

(** Machines on which the batch write fails at CPU 2 and at CPU 0. *)
Definition mask_regs : gmap (Z * Z) Z :=
  list_to_map
    [ ((0, MSR_IA32_L3_MASK_0), 0xFFFF); ((1, MSR_IA32_L3_MASK_0), 0xFFFF);
      ((2, MSR_IA32_L3_MASK_0), 0xFFFF) ].

Definition cpu2_missing : machine :=
  {| nprocs := 3; sched_cpu := 0; feature_mba := false;
     devs := {[ 0; 1 ]}; regs := mask_regs;
     accepts := fun _ _ _ => true; qm_ctr_feed := []; trace := [] |}.

Definition cpu0_missing : machine :=
  {| nprocs := 3; sched_cpu := 0; feature_mba := false;
     devs := {[ 1; 2 ]}; regs := mask_regs;
     accepts := fun _ _ _ => true; qm_ctr_feed := []; trace := [] |}.

(** Number of writes in a trace that went through. *)
Definition is_applied (a : access) : bool :=
  match a with
  | Wr _ _ _ res => res =? SUCCESS
  | Rd _ _ _ => false
  end.

Definition applied_count (t : list access) : nat := length (filter is_applied t).

(** The number of CPUs [msr_write_all_cpus] walks over. *)
Definition batch_size (m : machine) (max_cpus : Z) : Z :=
  if nprocs m >? max_cpus then max_cpus else nprocs m.

(** ** The cache bitmask of a class *)

(** The mask register of a class. *)
Definition l3_mask_msr (clos_id : Z) : Z := u32 (MSR_IA32_L3_MASK_0 + clos_id).

(** ** Switching a CPU between classes *)

(** Writes of the association word that went through: the propagation
    passes that reached the hardware. *)
Definition is_assoc_pass (a : access) : bool :=
  match a with
  | Wr _ msr _ res => (msr =? MSR_IA32_PQR_ASSOC) && (res =? SUCCESS)
  | Rd _ _ _ => false
  end.

Definition passes (t : list access) : nat := length (filter is_assoc_pass t).

(** CPU 0 takes every write of its association word. *)
Definition assoc_writable (m : machine) : Prop :=
  forall v, write_ok m 0 MSR_IA32_PQR_ASSOC v = true.

(** The loop from index [i], [n] iterations. *)
Definition switch_from (n : nat) (i : Z) : M (option Z) :=
  for_range n i (fun i => rdt_set_clos 0 (requested_clos i);; mret None).

(** Class-assignment requests for [cpu], issued back to back: one call
    of [rdt_set_clos] for each, in order, the results ignored as the
    loop of [rdt_test_dynamic_switching] ignores them. *)
Fixpoint issue_requests (cpu : Z) (requests : list Z) : M unit :=
  match requests with
  | [] => mret tt
  | clos_id :: requests' => rdt_set_clos cpu clos_id;; issue_requests cpu requests'
  end.

(** ** Rates from consecutive samples *)

(** CPU 0 with the monitoring pair; the counter presents, read after
    read, the occupancy, total and local values of two rounds, the total
    counter dropping from 100 to 50 between them. *)
Definition dropping : machine :=
  {| nprocs := 2; sched_cpu := 0; feature_mba := false;
     devs := {[ 0; 1 ]}; regs := demo_regs;
     accepts := fun _ _ _ => true;
     qm_ctr_feed := [10; 100; 100; 10; 50; 100]; trace := [] |}.

(** Two rounds, one second apart. *)
Definition two_rounds : list (Z * Z) := [(1000001, 1000010); (2000001, 2000010)].

(** The same with both byte counters dropping, the total from 100 to 50
    and the local from 100 to 40. *)
Definition both_dropping : machine :=
  {| nprocs := 2; sched_cpu := 0; feature_mba := false;
     devs := {[ 0; 1 ]}; regs := demo_regs;
     accepts := fun _ _ _ => true;
     qm_ctr_feed := [10; 100; 100; 10; 50; 40]; trace := [] |}.

(** The rate, in units of [2^20] per second, that unsigned 64-bit
    arithmetic makes of a counter that went from [v1] down to [v2] in
    [dt] microseconds: the difference wraps to [2^64 - (v1 - v2)] and the
    product with a million is taken modulo [2^64]. *)
Definition wrapped_mbs (v1 v2 dt : Z) : Z :=
  (2 ^ 64 - (v1 - v2)) * 1000000 mod 2 ^ 64 / dt / (1024 * 1024).

(** ** One round of each monitor

    A round is the body of the loop up to the rate block: the three
    select-then-read sequences.  The monitor's round ends the loop when
    a sequence fails; the benchmark's round carries on with what it has. *)

Definition monitor_round (curr_data : rdt_monitor_data_t) (t_curr : Z)
  : M (option rdt_monitor_data_t) :=
  ro ← rdt_monitor_read_llc_occupancy 0 (llc_occupancy curr_data);
  if negb (ro.1 =? SUCCESS) then mret None
  else
    rt ← rdt_monitor_read_mbm_total 0 (mbm_total curr_data);
    if negb (rt.1 =? SUCCESS) then mret None
    else
      rl ← rdt_monitor_read_mbm_local 0 (mbm_local curr_data);
      if negb (rl.1 =? SUCCESS) then mret None
      else mret (Some {| rmid := 0; llc_occupancy := ro.2; mbm_total := rt.2;
                         mbm_local := rl.2; timestamp := t_curr |}).

(** The three values a round of the benchmark's monitor leaves in
    [llc_occupancy], [mbm_total] and [mbm_local]. *)
Definition bench_round : M (Z * Z * Z) :=
  ro ← bench_sample EVT_LLC_OCCUPANCY 0;
  rt ← bench_sample EVT_MBM_TOTAL 0;
  rl ← bench_sample EVT_MBM_LOCAL 0;
  mret (if ro.1 =? SUCCESS then mul64 ro.2 64 else ro.2, rt.2, rl.2).

(** ** Multiplexing the shared counter *)

(** The accesses of one sample of event [ev] for identifier [id]: the
    select alone when it is refused, the select and then the read of the
    counter otherwise. *)
Inductive sample_seq (id ev : Z) : list access -> Prop :=
| sample_refused res :
    res <> SUCCESS ->
    sample_seq id ev [Wr 0 MSR_IA32_QM_EVTSEL (evtsel_of id ev) res]
| sample_read res :
    sample_seq id ev [Wr 0 MSR_IA32_QM_EVTSEL (evtsel_of id ev) SUCCESS;
                      Rd 0 MSR_IA32_QM_CTR res].

(** A trace made of whole samples, one after the other. *)
Inductive multiplexed : list access -> Prop :=
| mux_nil : multiplexed []
| mux_sample id ev s rest :
    sample_seq id ev s -> multiplexed rest -> multiplexed (s ++ rest).

(** Every read in the trace is a read of the counter and comes right
    after a select that went through. *)
Definition reads_follow_selects (t : list access) : Prop :=
  forall (i : nat) cpu msr res,
    t !! i = Some (Rd cpu msr res) ->
    cpu = 0 /\ msr = MSR_IA32_QM_CTR
    /\ exists (j : nat) id ev,
         i = S j /\ t !! j = Some (Wr 0 MSR_IA32_QM_EVTSEL (evtsel_of id ev) SUCCESS).

(** Two reads of the counter are never adjacent: a select lies strictly
    between them. *)
Definition reads_are_separated (t : list access) : Prop :=
  forall (i j : nat) cpu msr res cpu' msr' res',
    (i < j)%nat ->
    t !! i = Some (Rd cpu msr res) ->
    t !! j = Some (Rd cpu' msr' res') ->
    exists (k : nat) id ev,
      (i < k < j)%nat
      /\ t !! k = Some (Wr 0 MSR_IA32_QM_EVTSEL (evtsel_of id ev) SUCCESS).

(** The shape shared by the three read functions of the monitor and by
    the benchmark's sampling step. *)
Definition sampled {A : Type} (id ev : Z) (c : M A) : Prop :=
  forall m, exists ext, trace (c m).2 = trace m ++ ext /\ sample_seq id ev ext.

(** A computation whose accesses are whole samples, one after the other. *)
Definition muxed {A : Type} (c : M A) : Prop :=
  forall m, exists ext, trace (c m).2 = trace m ++ ext /\ multiplexed ext.

(** The accesses of a monitor run: whole samples in sequence, hence
    every counter read right after its select and a select between any
    two counter reads. *)
Definition select_then_read {A : Type} (c : M A) : Prop :=
  forall m, exists ext,
    trace (c m).2 = trace m ++ ext
    /\ multiplexed ext /\ reads_follow_selects ext /\ reads_are_separated ext.

(** * Further functions of the programs *)

(** ** [msr_read_all_cpus]

    The array [values] is a list; [values[i]] is the in/out cell that
    [msr_read_cpu] is given.  The caller provides an array of at least
    [max_cpus] cells (an index past the end is undefined in C; here the
    cell reads 0 and the store is dropped). *)

Fixpoint read_each (msr : Z) (count : nat) (i : Z) (values : list Z)
  : M (option Z * list Z) :=
  match count with
  | O => mret (None, values)
  | S count' =>
      rv ← msr_read_cpu i msr (default 0 (values !! Z.to_nat i));
      let values := <[Z.to_nat i := rv.2]> values in
      if negb (rv.1 =? SUCCESS) then mret (Some ERROR_SYSTEM, values)
      else read_each msr count' (i + 1) values
  end.

Definition msr_read_all_cpus (msr : Z) (values : list Z) (max_cpus : Z) : M (Z * list Z) :=
  cpu_count ← get_cpu_count;
  let cpu_count := if cpu_count >? max_cpus then max_cpus else cpu_count in
  r ← read_each msr (Z.to_nat cpu_count) 0 values;
  match r.1 with
  | Some e => mret (e, r.2)
  | None => mret (cpu_count, r.2)
  end.

(** ** [msr_check_available]

    [access("/dev/cpu/0/msr", R_OK | W_OK)] succeeds when the device of
    CPU 0 is one that opens. *)
Definition msr_check_available : M Z :=
  fun m => (if decide (0 ∈ devs m) then SUCCESS else ERROR_NOT_SUPPORTED, m).

(** ** The RDT test program: [rdt_cleanup], [rdt_test_basic_functionality] *)

Definition rdt_cleanup : M Z :=
  cpu_count ← get_cpu_count;
  for_range (Z.to_nat cpu_count) 0 (fun cpu => rdt_set_clos cpu 0;; mret None);;
  mret SUCCESS.

Definition rdt_test_basic_functionality : M Z :=
  rm ← rdt_read_l3_mask 0 0;
  if negb (rm.1 =? SUCCESS) then mret ERROR_SYSTEM
  else
    rc ← rdt_get_clos 0 0;
    if negb (rc.1 =? SUCCESS) then mret ERROR_SYSTEM
    else mret SUCCESS.

(** ** The monitor: [rdt_monitor_init], [rdt_monitor_cleanup]

    [rdt_m] is what [check_cpu_feature("rdt_m")] returned: the flags of
    [/proc/cpuinfo] are not part of the machine. *)

Definition rdt_monitor_init (rdt_m : Z) : M Z :=
  if negb (rdt_m =? SUCCESS) then mret ERROR_NOT_SUPPORTED
  else
    a ← msr_check_available;
    if negb (a =? SUCCESS) then mret ERROR_NOT_SUPPORTED
    else
      cpu_count ← get_cpu_count;
      r ← for_range (Z.to_nat cpu_count) 0 (fun cpu =>
             r ← rdt_monitor_set_rmid cpu 0;
             if negb (r =? SUCCESS) then mret (Some ERROR_SYSTEM) else mret None);
      match r with
      | Some e => mret e
      | None => mret SUCCESS
      end.

Definition rdt_monitor_cleanup : M Z :=
  cpu_count ← get_cpu_count;
  for_range (Z.to_nat cpu_count) 0 (fun cpu => rdt_monitor_set_rmid cpu 0;; mret None);;
  mret SUCCESS.

(** ** The benchmark: [rdt_bench_cleanup] *)

Definition rdt_bench_cleanup : M unit :=
  cpu_count ← get_cpu_count;
  for_range (Z.to_nat cpu_count) 0 (fun cpu =>
    rv ← msr_read_cpu cpu MSR_IA32_PQR_ASSOC 0;
    (if rv.1 =? SUCCESS then
       let value := Z.land rv.2 0x00000000FFFFFFFF in
       msr_write_cpu cpu MSR_IA32_PQR_ASSOC value;; mret tt
     else mret tt);;
    mret None);;
  for_range 16 0 (fun clos =>
    msr_write_cpu 0 (u32 (MSR_IA32_L3_MASK_0 + clos)) 0xFFFF;;
    f ← check_cpu_feature_mba;
    (if f =? SUCCESS then
       msr_write_cpu 0 (u32 (MSR_IA32_MBA_THRTL_MSR + clos)) 0;; mret tt
     else mret tt);;
    mret None);;
  mret tt.

(** ** Time helpers of [common/common.c] *)

(** [get_timestamp_us] on the [timeval] the clock returned:
    [(uint64_t)tv.tv_sec * 1000000 + tv.tv_usec]. *)
Definition get_timestamp_us (tv_sec tv_usec : Z) : Z :=
  add64 (mul64 (u64 tv_sec) 1000000) (u64 tv_usec).

(** The [timespec] that [sleep_ms] hands to [nanosleep]; [/] and [%] of
    C truncate towards zero. *)
Definition sleep_ms (ms : Z) : Z * Z :=
  let tv_sec := Z.quot ms 1000 in
  let tv_nsec := Z.rem ms 1000 * 1000000 in
  (tv_sec, tv_nsec).

(** ** More vocabulary *)

(** The contents of a register other than the counter, as a read of
    [cpu] would show them. *)
Definition reg_read (m : machine) (cpu msr : Z) : option Z :=
  if dev_ok m cpu then u64 <$> regs m !! (cpu, msr) else None.

(** The association word of [cpu] after one read-modify-write with [f]:
    replaced when both accesses go through, as it was otherwise. *)
Definition rmw_word (f : Z -> Z) (m : machine) (cpu : Z) : option Z :=
  match assoc_word m cpu with
  | Some w => if write_ok m cpu MSR_IA32_PQR_ASSOC (f w) then Some (u64 (f w)) else Some w
  | None => None
  end.

(** A loop that runs the read-modify-write on CPUs [i .. i+n-1] and
    ignores every result. *)
Definition rmw_all (f : Z -> Z) (n : nat) (i : Z) : M (option Z) :=
  for_range n i (fun cpu => assoc_rmw cpu f;; mret None).

(** No access in the trace is a write. *)
Definition read_only (t : list access) : Prop :=
  forall a, a ∈ t -> exists cpu msr res, a = Rd cpu msr res.

(** Number of rounds a monitor loop runs on a schedule: the readings of
    the loop condition that lie before [end_time], up to the first that
    does not. *)
Fixpoint rounds_before (end_time : Z) (schedule : list (Z * Z)) : nat :=
  match schedule with
  | [] => O
  | (t_cond, _) :: schedule' =>
      if t_cond <? end_time then S (rounds_before end_time schedule') else O
  end.

(** ** Vocabulary of the further properties *)

(** A CPU whose association word takes every write. *)
Definition word_writable (m : machine) (cpu : Z) : Prop :=
  forall v, write_ok m cpu MSR_IA32_PQR_ASSOC v = true.

(** [m'] has the devices, the acceptance rule, the CPU count and the
    feature flag of [m], and the same registers implemented. *)
Definition same_access (m m' : machine) : Prop :=
  devs m' = devs m /\ accepts m' = accepts m /\ nprocs m' = nprocs m
  /\ feature_mba m' = feature_mba m
  /\ forall key, is_Some (regs m' !! key) <-> is_Some (regs m !! key).

(** The example machine with the device of CPU 0 gone. *)
Definition cpu0_offline : machine :=
  {| nprocs := 2; sched_cpu := 1; feature_mba := false;
     devs := {[ 1 ]}; regs := <[(1, MSR_IA32_PQR_ASSOC) := 0x0000000700000003]> demo_regs;
     accepts := fun _ _ _ => true; qm_ctr_feed := []; trace := [] |}.

(** Three CPUs, each in a class and with a monitoring id of its own;
    the device of CPU 2 is gone. *)
Definition assoc_cpu2_missing : machine :=
  {| nprocs := 3; sched_cpu := 0; feature_mba := false;
     devs := {[ 0; 1 ]};
     regs := list_to_map
               [ ((0, MSR_IA32_PQR_ASSOC), 0x0000000500000003);
                 ((1, MSR_IA32_PQR_ASSOC), 0x0000000700000002);
                 ((2, MSR_IA32_PQR_ASSOC), 0x0000000900000001) ];
     accepts := fun _ _ _ => true; qm_ctr_feed := []; trace := [] |}.

(** The example machine with hardware that refuses the mask 0x3FF. *)
Definition refuses_restricted : machine :=
  {| nprocs := 2; sched_cpu := 0; feature_mba := false;
     devs := {[ 0; 1 ]}; regs := demo_regs;
     accepts := fun _ _ v => negb (v =? 0x3FF); qm_ctr_feed := []; trace := [] |}.

(** The read-modify-write of [cpu] goes through on [m]. *)
Definition rmw_ok (f : Z -> Z) (m : machine) (cpu : Z) : bool :=
  match assoc_word m cpu with
  | Some w => write_ok m cpu MSR_IA32_PQR_ASSOC (f w)
  | None => false
  end.

(** The loop that stops at the first read-modify-write that fails. *)
Definition rmw_until (f : Z -> Z) (n : nat) (i : Z) : M (option Z) :=
  for_range n i (fun cpu =>
    r ← assoc_rmw cpu f;
    if negb (r =? SUCCESS) then mret (Some ERROR_SYSTEM) else mret None).

(** What the first loop of [rdt_bench_cleanup] keeps of the word: bits 31:0. *)
Definition keep_low (w : Z) : Z := Z.land w 0x00000000FFFFFFFF.

(** One iteration of its second loop. *)
Definition mask_reset_body (clos : Z) : M (option Z) :=
  msr_write_cpu 0 (u32 (MSR_IA32_L3_MASK_0 + clos)) 0xFFFF;;
  f ← check_cpu_feature_mba;
  (if f =? SUCCESS then
     msr_write_cpu 0 (u32 (MSR_IA32_MBA_THRTL_MSR + clos)) 0;; mret tt
   else mret tt);;
  mret None.


(** The clock readings stored in a schedule increase strictly from
    [prev] on and fit the 64-bit timestamp. *)
Fixpoint ticking (prev : Z) (schedule : list (Z * Z)) : Prop :=
  match schedule with
  | [] => True
  | (_, t_curr) :: schedule' => prev < t_curr < 2 ^ 64 /\ ticking t_curr schedule'
  end.

(** CPU 0 takes every write of its event selector and has a counter
    register. *)
Definition sampler_ok (m : machine) : Prop :=
  (forall v, write_ok m 0 MSR_IA32_QM_EVTSEL v = true)
  /\ is_Some (regs m !! (0, MSR_IA32_QM_CTR)).

(** ** Looking up a CPU flag in [/proc/cpuinfo]

    A text is the list of its characters.  [cpuinfo] is the contents of
    [/proc/cpuinfo], [None] when the file cannot be opened.  [fgets]
    stores the bytes of the file as they are; the string functions see
    of a buffer the C string it holds, which ends before the first NUL
    byte. *)

Definition newline : ascii := "010"%char.
Definition NUL : ascii := "000"%char.

(** The C string a buffer holds. *)
Fixpoint cstr (buffer : list ascii) : list ascii :=
  match buffer with
  | [] => []
  | c :: buffer' => if Ascii.eqb c NUL then [] else c :: cstr buffer'
  end.

(** [fgets] with room for [room] characters: it stops after a newline,
    when the room is used up, or at the end of the stream. *)
Fixpoint fgets_upto (room : nat) (stream : list ascii) : list ascii * list ascii :=
  match room, stream with
  | S room', c :: stream' =>
      if Ascii.eqb c newline then ([c], stream')
      else let r := fgets_upto room' stream' in (c :: r.1, r.2)
  | _, _ => ([], stream)
  end.

(** [fgets(line, size, fp)]: the line and the rest of the stream, [None]
    at the end of the file. *)
Definition fgets (size : nat) (stream : list ascii) : option (list ascii * list ascii) :=
  match stream with
  | [] => None
  | _ :: _ => Some (fgets_upto (size - 1) stream)
  end.

(** [strncmp(s1, s2, n) == 0], on C strings. *)
Fixpoint strncmp_eq (s1 s2 : list ascii) (n : nat) {struct n} : bool :=
  match n with
  | O => true
  | S n' =>
      match s1, s2 with
      | [], [] => true
      | c1 :: s1', c2 :: s2' => Ascii.eqb c1 c2 && strncmp_eq s1' s2' n'
      | _, _ => false
      end
  end.

Fixpoint starts_with (needle haystack : list ascii) : bool :=
  match needle, haystack with
  | [], _ => true
  | c :: needle', h :: haystack' => Ascii.eqb c h && starts_with needle' haystack'
  | _ :: _, [] => false
  end.

(** [strstr(haystack, needle) != NULL], on C strings. *)
Fixpoint strstr (haystack needle : list ascii) : bool :=
  match haystack with
  | [] => starts_with needle []
  | _ :: haystack' => starts_with needle haystack || strstr haystack' needle
  end.

(** [while (fgets(line, size, fp)) if (hit(line)) ...found...], for at
    most [calls] calls of [fgets]; [None] when they are used up before
    the loop ends. *)
Fixpoint scan_lines (calls size : nat) (hit : list ascii -> bool) (stream : list ascii)
  : option bool :=
  match calls with
  | O => None
  | S calls' =>
      match fgets size stream with
      | None => Some false
      | Some (line, stream') =>
          if hit line then Some true else scan_lines calls' size hit stream'
      end
  end.

Definition flags : list ascii := ["f"; "l"; "a"; "g"; "s"]%char.

(** [check_cpu_feature] of [common/common.c].  Every call of [fgets]
    but the last takes a character off the stream, so one call more than
    the text has characters is enough. *)
Definition check_cpu_feature (cpuinfo : option (list ascii)) (feature : list ascii)
  : option Z :=
  match cpuinfo with
  | None => Some ERROR_SYSTEM
  | Some stream =>
      found ← scan_lines (S (length stream)) 1024
                (fun line => strncmp_eq (cstr line) flags 5
                             && strstr (cstr line) (cstr feature)) stream;
      Some (if found : bool then SUCCESS else ERROR_NOT_SUPPORTED)
  end.

(** [msr_check_cpu_feature] of [common/msr_utils.c]. *)
Definition msr_check_cpu_feature (cpuinfo : option (list ascii)) (feature : list ascii)
  : option Z :=
  match cpuinfo with
  | None => Some ERROR_SYSTEM
  | Some stream =>
      found ← scan_lines (S (length stream)) 256
                (fun line => strstr (cstr line) flags
                             && strstr (cstr line) (cstr feature)) stream;
      Some (if found : bool then SUCCESS else ERROR_NOT_SUPPORTED)
  end.

(** The text of a file made of the given lines, each ended by a newline. *)
Definition text_of_lines (lines : list (list ascii)) : list ascii :=
  concat (map (fun line => line ++ [newline]) lines).

(** A line without its newline that fits a buffer of [size] characters
    together with it. *)
Definition fits (size : nat) (line : list ascii) : Prop :=
  (newline ∉ line) /\ (length line + 2 <= size)%nat.

(** A flags line of 1023 characters and more, with a feature named
    after them. *)
Definition long_flags_line : list ascii :=
  flags ++ repeat " "%char 1018 ++ [" "; "r"; "d"; "t"; "_"; "a"]%char.

(** Two lines of a file; the second names the word flags in its middle. *)
Definition cpuinfo_lines : list (list ascii) :=
  [ flags ++ [" "; ":"; " "; "f"; "p"; "u"; " "; "m"; "b"; "a"]%char;
    ["b"; "u"; "g"; "s"; " "; ":"; " "]%char ++ flags ++ [" "; "h"; "t"]%char ].

(** * Properties *)

(** ** Machine integers *)

Lemma u64_range x : is_u64 (u64 x).
Proof. unfold is_u64, u64. apply Z.mod_pos_bound. lia. Qed.

Lemma u64_small x : is_u64 x -> u64 x = x.
Proof. unfold is_u64, u64. intros H. apply Z.mod_small. exact H. Qed.

Lemma u64_testbit x i :
  Z.testbit (u64 x) i = (i <? 64) && Z.testbit x i.
Proof.
  unfold u64. destruct (Z.ltb_spec i 64) as [Hlt|Hge]; simpl.
  - destruct (Z.ltb_spec i 0) as [Hn|Hp].
    + rewrite !Z.testbit_neg_r by lia. reflexivity.
    + apply Z.mod_pow2_bits_low. lia.
  - apply Z.mod_pow2_bits_high. lia.
Qed.

Lemma is_u64_testbit_high x i : is_u64 x -> 64 <= i -> Z.testbit x i = false.
Proof.
  intros Hx Hi. rewrite <- (u64_small x Hx), u64_testbit.
  destruct (Z.ltb_spec i 64); [lia | reflexivity].
Qed.

Lemma is_u64_of_bits x :
  0 <= x -> (forall i, 64 <= i -> Z.testbit x i = false) -> is_u64 x.
Proof.
  intros H0 Hb. split; [exact H0|].
  destruct (Z.eq_dec x 0) as [->|Hne]; [lia|].
  assert (Hpos : 0 < x) by lia.
  destruct (Z.lt_ge_cases x (2 ^ 64)) as [Hlt|Hge]; [exact Hlt|].
  exfalso.
  pose proof (Z.bit_log2 x Hpos) as Hbit.
  assert (64 <= Z.log2 x) by (apply Z.log2_le_pow2; lia).
  rewrite Hb in Hbit by lia. discriminate.
Qed.

Lemma land_is_u64 x y : is_u64 x -> 0 <= y -> is_u64 (Z.land x y).
Proof.
  intros Hx Hy. apply is_u64_of_bits.
  - apply Z.land_nonneg. left. apply Hx.
  - intros i Hi. rewrite Z.land_spec, (is_u64_testbit_high x i Hx Hi). reflexivity.
Qed.

Lemma lor_is_u64 x y : is_u64 x -> is_u64 y -> is_u64 (Z.lor x y).
Proof.
  intros Hx Hy. apply is_u64_of_bits.
  - apply Z.lor_nonneg. split; [apply Hx | apply Hy].
  - intros i Hi. rewrite Z.lor_spec, (is_u64_testbit_high x i Hx Hi),
      (is_u64_testbit_high y i Hy Hi). reflexivity.
Qed.

(** ** The field helpers *)

Example msr_set_field_ex : msr_set_field 0xFFFF 4 8 0xAB = 0xFABF.
Proof. reflexivity. Qed.

Example msr_get_field_ex : msr_get_field 0xFABF 4 8 = 0xAB.
Proof. reflexivity. Qed.

(** *** Bit-level facts about the field helpers *)

(** Case analysis on every comparison of the goal. *)
Ltac cmp_cases :=
  repeat match goal with
    | |- context [Z.leb ?a ?b] => destruct (Z.leb_spec a b)
    | |- context [Z.ltb ?a ?b] => destruct (Z.ltb_spec a b)
    end.

Section FieldBits.

Lemma field_mask_ones n : 0 <= n <= 63 -> field_mask n = Z.ones n.
Proof.
  intros Hn. unfold field_mask, sub64, shl64.
  rewrite Z.shiftl_1_l.
  assert (Hp : 0 < 2 ^ n < 2 ^ 64).
  { split; [apply Z.pow_pos_nonneg; lia|].
    apply Z.pow_lt_mono_r; lia. }
  rewrite (u64_small (2 ^ n)) by (unfold is_u64; lia).
  rewrite u64_small by (unfold is_u64; lia).
  rewrite Z.ones_equiv. lia.
Qed.

Lemma testbit_ones n i :
  0 <= n -> Z.testbit (Z.ones n) i = (0 <=? i) && (i <? n).
Proof.
  intros Hn.
  destruct (Z.leb_spec 0 i) as [Hi|Hi]; simpl.
  - destruct (Z.ltb_spec i n).
    + apply Z.ones_spec_low. lia.
    + apply Z.ones_spec_high. lia.
  - apply Z.testbit_neg_r. lia.
Qed.

Lemma testbit_shiftl a s i :
  0 <= s -> Z.testbit (Z.shiftl a s) i = (0 <=? i) && Z.testbit a (i - s).
Proof.
  intros Hs. destruct (Z.leb_spec 0 i) as [Hi|Hi]; simpl.
  - apply Z.shiftl_spec. exact Hi.
  - apply Z.testbit_neg_r. lia.
Qed.

Lemma testbit_not64 a i :
  Z.testbit (not64 a) i = (0 <=? i) && (i <? 64) && negb (Z.testbit a i).
Proof.
  unfold not64. rewrite u64_testbit.
  destruct (Z.leb_spec 0 i) as [Hi|Hi]; simpl.
  - rewrite Z.lnot_spec by lia. reflexivity.
  - rewrite (Z.testbit_neg_r (Z.lnot a)) by lia.
    rewrite Bool.andb_false_r. reflexivity.
Qed.

(** Bit [i] of the updated word. *)
Lemma msr_set_field_testbit v s n f i :
  is_u64 v -> 0 <= s -> 0 <= n <= 63 ->
  Z.testbit (msr_set_field v s n f) i =
    if (s <=? i) && (i <? s + n) && (i <? 64)
    then Z.testbit f (i - s)
    else Z.testbit v i.
Proof.
  intros Hv Hs Hn. unfold msr_set_field.
  rewrite (field_mask_ones n Hn).
  rewrite Z.lor_spec, Z.land_spec, testbit_not64.
  unfold shl64. rewrite !u64_testbit, !testbit_shiftl by lia.
  rewrite Z.land_spec, !testbit_ones by lia.
  pose proof (Z.testbit_neg_r v i) as Hneg.
  pose proof (is_u64_testbit_high v i Hv) as Hhigh.
  cmp_cases; try lia; rewrite ?Hneg, ?Hhigh by lia;
    destruct (Z.testbit v i), (Z.testbit f (i - s)); reflexivity.
Qed.

Lemma msr_get_field_testbit w s n i :
  0 <= s -> 0 <= n <= 63 ->
  Z.testbit (msr_get_field w s n) i =
    (0 <=? i) && (i <? n) && Z.testbit w (i + s).
Proof.
  intros Hs Hn. unfold msr_get_field.
  rewrite (field_mask_ones n Hn), Z.land_spec, testbit_ones by lia.
  destruct (Z.leb_spec 0 i) as [Hi|Hi]; simpl.
  - rewrite Z.shiftr_spec by lia. apply Bool.andb_comm.
  - rewrite (Z.testbit_neg_r _ i) by lia. reflexivity.
Qed.

End FieldBits.

(** C9. For a 64-bit word [v], a field value [f], a start bit [s >= 0] and a
    width [n >= 1] with [s + n <= 63], reading back the field that
    [msr_set_field] wrote gives [f mod 2^n], and [msr_set_field] leaves
    every bit outside positions [s .. s+n-1] as it was in [v]. *)
Theorem msr_field_set_get (v f s n : Z) :
  is_u64 v -> is_u64 f -> 0 <= s -> 1 <= n -> s + n <= 63 ->
  msr_get_field (msr_set_field v s n f) s n = f mod 2 ^ n
  /\ (forall i, ~ (s <= i < s + n) ->
        Z.testbit (msr_set_field v s n f) i = Z.testbit v i).
Proof.
  intros Hv Hf Hs Hn Hsn. split.
  - apply Z.bits_inj'. intros i Hi.
    rewrite msr_get_field_testbit by lia.
    rewrite msr_set_field_testbit by (try assumption; lia).
    destruct (Z.leb_spec 0 i); [|lia]. simpl.
    destruct (Z.ltb_spec i n) as [Hin|Hin]; simpl.
    + rewrite Z.mod_pow2_bits_low by lia.
      destruct (Z.leb_spec s (i + s)); [|lia].
      destruct (Z.ltb_spec (i + s) (s + n)); [|lia].
      destruct (Z.ltb_spec (i + s) 64); [|lia]. simpl.
      f_equal. lia.
    + rewrite Z.mod_pow2_bits_high by lia. reflexivity.
  - intros i Hout.
    rewrite msr_set_field_testbit by (try assumption; lia).
    destruct (Z.leb_spec s i); destruct (Z.ltb_spec i (s + n)); simpl;
      try reflexivity; lia.
Qed.

Lemma msr_field_set_get_witness :
  msr_get_field (msr_set_field 0xFFFF 4 8 0x1AB) 4 8 = 0x1AB mod 2 ^ 8
  /\ (forall i, ~ (4 <= i < 4 + 8) ->
        Z.testbit (msr_set_field 0xFFFF 4 8 0x1AB) i = Z.testbit 0xFFFF i).
Proof.
  apply (msr_field_set_get 0xFFFF 0x1AB 4 8); unfold is_u64; lia.
Defined.

(** ** The access primitives *)

Lemma msr_write_cpu_eq cpu msr value m :
  msr_write_cpu cpu msr value m =
    if write_ok m cpu msr value
    then (SUCCESS, written m cpu msr value)
    else (ERROR_SYSTEM, logged m (Wr cpu msr value ERROR_SYSTEM)).
Proof.
  unfold msr_write_cpu, write_ok, mbind, M_bind, msr_open, msr_write, record,
    mret, M_ret, written, logged.
  destruct (decide (cpu ∈ devs m)) as [Hin|Hin].
  - rewrite (bool_decide_eq_true_2 _ Hin).
    destruct (Z.ltb_spec cpu 0) as [Hneg|Hpos].
    + destruct (Z.leb_spec 0 cpu); [lia|]. reflexivity.
    + destruct (Z.leb_spec 0 cpu); [|lia]. simpl.
      destruct (regs m !! (cpu, msr)) as [w|] eqn:Hreg.
      * rewrite bool_decide_eq_true_2 by eauto. simpl.
        destruct (accepts m cpu msr value); reflexivity.
      * rewrite bool_decide_eq_false_2 by (intros [? ?]; discriminate).
        reflexivity.
  - rewrite (bool_decide_eq_false_2 _ Hin). reflexivity.
Qed.

Lemma msr_read_cpu_eq cpu msr old m :
  msr_read_cpu cpu msr old m =
    match read_step m cpu msr with
    | Some (v, m1) => ((SUCCESS, v), logged m1 (Rd cpu msr SUCCESS))
    | None => ((ERROR_SYSTEM, old), logged m (Rd cpu msr ERROR_SYSTEM))
    end.
Proof.
  unfold msr_read_cpu, read_step, mbind, M_bind, msr_open, msr_read, record,
    mret, M_ret, logged.
  destruct (decide (cpu ∈ devs m)) as [Hin|Hin].
  - rewrite (bool_decide_eq_true_2 _ Hin).
    destruct (Z.ltb_spec cpu 0) as [Hneg|Hpos].
    + destruct (Z.leb_spec 0 cpu); [lia|]. reflexivity.
    + destruct (Z.leb_spec 0 cpu); [|lia]. simpl.
      destruct (regs m !! (cpu, msr)) as [w|]; [|reflexivity].
      destruct (msr =? MSR_IA32_QM_CTR); [|reflexivity].
      destruct (qm_ctr_feed m); reflexivity.
  - rewrite (bool_decide_eq_false_2 _ Hin). reflexivity.
Qed.

Lemma read_step_plain m cpu msr :
  msr <> MSR_IA32_QM_CTR ->
  read_step m cpu msr =
    if bool_decide (cpu ∈ devs m) && (0 <=? cpu)
    then (fun v => (u64 v, m)) <$> regs m !! (cpu, msr)
    else None.
Proof.
  intros Hne. unfold read_step.
  destruct (bool_decide (cpu ∈ devs m) && (0 <=? cpu)); [|reflexivity].
  destruct (regs m !! (cpu, msr)); [|reflexivity]. simpl.
  destruct (Z.eqb_spec msr MSR_IA32_QM_CTR); [contradiction | reflexivity].
Qed.

(** A read changes neither the registers nor what can be accessed. *)
Lemma read_step_frame m cpu msr v m1 :
  read_step m cpu msr = Some (v, m1) ->
  regs m1 = regs m /\ devs m1 = devs m /\ accepts m1 = accepts m
  /\ nprocs m1 = nprocs m /\ trace m1 = trace m /\ sched_cpu m1 = sched_cpu m.
Proof.
  unfold read_step. intros H.
  destruct (bool_decide (cpu ∈ devs m) && (0 <=? cpu)); [|discriminate].
  destruct (regs m !! (cpu, msr)); [|discriminate].
  destruct (msr =? MSR_IA32_QM_CTR); [destruct (qm_ctr_feed m)|];
    inversion H; subst; repeat split.
Qed.

Lemma read_step_u64 m cpu msr v m1 :
  read_step m cpu msr = Some (v, m1) -> is_u64 v.
Proof.
  unfold read_step. intros H.
  destruct (bool_decide (cpu ∈ devs m) && (0 <=? cpu)); [|discriminate].
  destruct (regs m !! (cpu, msr)); [|discriminate].
  destruct (msr =? MSR_IA32_QM_CTR); [destruct (qm_ctr_feed m)|];
    inversion H; subst; apply u64_range.
Qed.

(** ** The association word *)

Section AssociationWord.

Lemma testbit_low_mask i : Z.testbit 0xFFFFFFFF i = (0 <=? i) && (i <? 32).
Proof. change 0xFFFFFFFF with (Z.ones 32). apply testbit_ones. lia. Qed.

Lemma testbit_high_mask i :
  Z.testbit 0xFFFFFFFF00000000 i = (32 <=? i) && (i <? 64).
Proof.
  change 0xFFFFFFFF00000000 with (Z.shiftl (Z.ones 32) 32).
  rewrite testbit_shiftl, testbit_ones by lia.
  cmp_cases; try lia; reflexivity.
Qed.

Lemma testbit_small x k i : 0 <= x < 2 ^ k -> 0 <= k -> k <= i -> Z.testbit x i = false.
Proof.
  intros Hx Hk Hi. rewrite <- (Z.mod_small x (2 ^ k)) by lia.
  apply Z.mod_pow2_bits_high. lia.
Qed.

(** Writing a class id below [2^32] into the low half. *)
Lemma set_low_half w id :
  is_u64 w -> 0 <= id < 2 ^ 32 ->
  let w' := Z.lor (Z.land w 0xFFFFFFFF00000000) (u64 id) in
  rmid_half w' = rmid_half w /\ clos_half w' = id /\ is_u64 w'.
Proof.
  intros Hw Hid w'. subst w'.
  assert (Hid64 : is_u64 id) by (unfold is_u64; lia).
  rewrite (u64_small id Hid64).
  split; [|split].
  - unfold rmid_half. apply Z.bits_inj'. intros i Hi.
    rewrite !Z.shiftr_spec, Z.lor_spec, Z.land_spec, testbit_high_mask by lia.
    rewrite (testbit_small id 32 (i + 32)) by lia.
    pose proof (is_u64_testbit_high w (i + 32) Hw).
    cmp_cases; try lia; rewrite ?H by lia;
      destruct (Z.testbit w (i + 32)); reflexivity.
  - unfold clos_half. apply Z.bits_inj'. intros i Hi.
    rewrite Z.land_spec, Z.lor_spec, Z.land_spec, testbit_high_mask, testbit_low_mask.
    pose proof (testbit_small id 32 i Hid).
    cmp_cases; try lia; rewrite ?H by lia;
      destruct (Z.testbit w i), (Z.testbit id i); reflexivity.
  - apply lor_is_u64; [apply land_is_u64; [exact Hw | lia] | exact Hid64].
Qed.

(** Writing an identifier below [2^32] into the high half. *)
Lemma set_high_half w id :
  is_u64 w -> 0 <= id < 2 ^ 32 ->
  let w' := Z.lor (Z.land w 0x00000000FFFFFFFF) (shl64 (u64 id) 32) in
  clos_half w' = clos_half w /\ rmid_half w' = id /\ is_u64 w'.
Proof.
  intros Hw Hid w'. subst w'.
  assert (Hid64 : is_u64 id) by (unfold is_u64; lia).
  rewrite (u64_small id Hid64).
  split; [|split].
  - unfold clos_half. apply Z.bits_inj'. intros i Hi.
    rewrite !Z.land_spec, Z.lor_spec, Z.land_spec, testbit_low_mask.
    unfold shl64. rewrite u64_testbit, testbit_shiftl by lia.
    pose proof (Z.testbit_neg_r id (i - 32)) as Hneg.
    cmp_cases; try lia; rewrite ?Hneg by lia;
      destruct (Z.testbit w i); try reflexivity;
      destruct (Z.testbit id (i - 32)); reflexivity.
  - unfold rmid_half. apply Z.bits_inj'. intros i Hi.
    rewrite Z.shiftr_spec, Z.lor_spec, Z.land_spec, testbit_low_mask by lia.
    unfold shl64. rewrite u64_testbit, testbit_shiftl by lia.
    replace (i + 32 - 32) with i by lia.
    pose proof (testbit_small id 32 i Hid).
    cmp_cases; try lia; rewrite ?H by lia;
      destruct (Z.testbit w (i + 32)), (Z.testbit id i); reflexivity.
  - apply lor_is_u64; [apply land_is_u64; [exact Hw | lia] | apply u64_range].
Qed.

End AssociationWord.

Lemma rdt_set_clos_rmw cpu clos_id :
  rdt_set_clos cpu clos_id =
    if clos_id >=? MAX_CLOS then mret ERROR_INVALID_PARAM
    else assoc_rmw cpu (put_clos clos_id).
Proof. reflexivity. Qed.

Lemma rdt_monitor_set_rmid_rmw cpu rmid :
  rdt_monitor_set_rmid cpu rmid =
    if rmid >=? MAX_RMID then mret ERROR_INVALID_PARAM
    else assoc_rmw cpu (put_rmid rmid).
Proof. reflexivity. Qed.

Lemma assign_thread_to_clos_rmw clos_id m :
  assign_thread_to_clos clos_id m =
    if sched_cpu m <? 0 then (ERROR_SYSTEM, m)
    else assoc_rmw (sched_cpu m) (put_rmid clos_id) m.
Proof.
  unfold assign_thread_to_clos, mbind, M_bind, sched_getcpu.
  destruct (sched_cpu m <? 0); reflexivity.
Qed.

Lemma PQR_not_CTR : MSR_IA32_PQR_ASSOC <> MSR_IA32_QM_CTR.
Proof. discriminate. Qed.

Lemma read_step_assoc m cpu :
  read_step m cpu MSR_IA32_PQR_ASSOC = (fun w => (w, m)) <$> assoc_word m cpu.
Proof.
  rewrite (read_step_plain _ _ _ PQR_not_CTR). unfold assoc_word, dev_ok.
  destruct (bool_decide (cpu ∈ devs m) && (0 <=? cpu)); [|reflexivity].
  destruct (regs m !! (cpu, MSR_IA32_PQR_ASSOC)); reflexivity.
Qed.

(** What the read-modify-write does, case by case. *)
Lemma assoc_rmw_eq cpu f m :
  assoc_rmw cpu f m =
    match assoc_word m cpu with
    | None => (ERROR_SYSTEM, logged m (Rd cpu MSR_IA32_PQR_ASSOC ERROR_SYSTEM))
    | Some w =>
        msr_write_cpu cpu MSR_IA32_PQR_ASSOC (f w)
          (logged m (Rd cpu MSR_IA32_PQR_ASSOC SUCCESS))
    end.
Proof.
  unfold assoc_rmw, mbind, M_bind. rewrite msr_read_cpu_eq, read_step_assoc.
  destruct (assoc_word m cpu); reflexivity.
Qed.

Lemma assoc_word_logged m a cpu : assoc_word (logged m a) cpu = assoc_word m cpu.
Proof. reflexivity. Qed.

Lemma write_ok_logged m a cpu msr v : write_ok (logged m a) cpu msr v = write_ok m cpu msr v.
Proof. reflexivity. Qed.

Lemma assoc_word_written m cpu v :
  write_ok m cpu MSR_IA32_PQR_ASSOC v = true ->
  assoc_word (written m cpu MSR_IA32_PQR_ASSOC v) cpu = Some (u64 v).
Proof.
  unfold write_ok, assoc_word, dev_ok, written. simpl. intros H.
  destruct (bool_decide (cpu ∈ devs m) && (0 <=? cpu)); [|discriminate].
  rewrite lookup_insert_eq. reflexivity.
Qed.

(** The word of [cpu] after the read-modify-write: replaced by [f w]
    when both accesses went through, untouched otherwise. *)
Lemma assoc_rmw_word cpu f m :
  assoc_word (assoc_rmw cpu f m).2 cpu =
    match assoc_word m cpu with
    | Some w =>
        if write_ok m cpu MSR_IA32_PQR_ASSOC (f w) then Some (u64 (f w)) else Some w
    | None => None
    end.
Proof.
  rewrite assoc_rmw_eq. destruct (assoc_word m cpu) as [w|] eqn:Hw.
  - rewrite msr_write_cpu_eq, write_ok_logged.
    destruct (write_ok m cpu MSR_IA32_PQR_ASSOC (f w)) eqn:Hok; simpl.
    + rewrite assoc_word_written; [reflexivity|]. rewrite write_ok_logged. exact Hok.
    + rewrite !assoc_word_logged. exact Hw.
  - simpl. rewrite assoc_word_logged. exact Hw.
Qed.

Lemma assoc_word_u64 m cpu w : assoc_word m cpu = Some w -> is_u64 w.
Proof.
  unfold assoc_word. destruct (dev_ok m cpu); [|discriminate].
  destruct (regs m !! (cpu, MSR_IA32_PQR_ASSOC)); [|discriminate].
  intros [= <-]. apply u64_range.
Qed.

(** The getters read the two halves of the stored word. *)
Lemma rdt_get_clos_eq cpu old m :
  (rdt_get_clos cpu old m).1 =
    match assoc_word m cpu with
    | Some w => (SUCCESS, to_int (clos_half w))
    | None => (ERROR_SYSTEM, old)
    end.
Proof.
  unfold rdt_get_clos, mbind, M_bind. rewrite msr_read_cpu_eq, read_step_assoc.
  destruct (assoc_word m cpu); reflexivity.
Qed.

Lemma rdt_monitor_get_rmid_eq cpu old m :
  (rdt_monitor_get_rmid cpu old m).1 =
    match assoc_word m cpu with
    | Some w => (SUCCESS, to_int (rmid_half w))
    | None => (ERROR_SYSTEM, old)
    end.
Proof.
  unfold rdt_monitor_get_rmid, mbind, M_bind. rewrite msr_read_cpu_eq, read_step_assoc.
  destruct (assoc_word m cpu); reflexivity.
Qed.

(** *** The two setters of the test program and the monitor keep the
    other half *)

Lemma rdt_set_clos_keeps_rmid m cpu clos_id old :
  0 <= clos_id < MAX_CLOS ->
  (rdt_monitor_get_rmid cpu old (rdt_set_clos cpu clos_id m).2).1
  = (rdt_monitor_get_rmid cpu old m).1.
Proof.
  intros Hid. rewrite !rdt_monitor_get_rmid_eq, rdt_set_clos_rmw.
  destruct (Z.geb_spec clos_id MAX_CLOS) as [Hge|_]; [lia|].
  rewrite assoc_rmw_word.
  destruct (assoc_word m cpu) as [w|] eqn:Hw; [|reflexivity].
  destruct (write_ok m cpu MSR_IA32_PQR_ASSOC (put_clos clos_id w)); [|reflexivity].
  pose proof (assoc_word_u64 _ _ _ Hw) as Hu.
  assert (Hr : 0 <= clos_id < 2 ^ 32) by (unfold MAX_CLOS in Hid; lia).
  destruct (set_low_half w clos_id Hu Hr) as (Hrm & _ & Hu').
  fold (put_clos clos_id w) in Hrm, Hu'.
  rewrite (u64_small _ Hu'), Hrm. reflexivity.
Qed.

Lemma rdt_monitor_set_rmid_keeps_clos m cpu rmid old :
  0 <= rmid < MAX_RMID ->
  (rdt_get_clos cpu old (rdt_monitor_set_rmid cpu rmid m).2).1
  = (rdt_get_clos cpu old m).1.
Proof.
  intros Hid. rewrite !rdt_get_clos_eq, rdt_monitor_set_rmid_rmw.
  destruct (Z.geb_spec rmid MAX_RMID) as [Hge|_]; [lia|].
  rewrite assoc_rmw_word.
  destruct (assoc_word m cpu) as [w|] eqn:Hw; [|reflexivity].
  destruct (write_ok m cpu MSR_IA32_PQR_ASSOC (put_rmid rmid w)); [|reflexivity].
  pose proof (assoc_word_u64 _ _ _ Hw) as Hu.
  assert (Hr : 0 <= rmid < 2 ^ 32) by (unfold MAX_RMID in Hid; lia).
  destruct (set_high_half w rmid Hu Hr) as (Hcl & _ & Hu').
  fold (put_rmid rmid w) in Hcl, Hu'.
  rewrite (u64_small _ Hu'), Hcl. reflexivity.
Qed.

(** ** The write loop over all CPUs *)

Lemma msr_write_all_cpus_eq msr value max_cpus m :
  msr_write_all_cpus msr value max_cpus m =
    let cpu_count := if nprocs m >? max_cpus then max_cpus else nprocs m in
    match write_each msr value (Z.to_nat cpu_count) 0 m with
    | (Some e, m') => (e, m')
    | (None, m') => (cpu_count, m')
    end.
Proof.
  unfold msr_write_all_cpus, write_each, mbind, M_bind, get_cpu_count. simpl.
  destruct (for_range _ _ _ m) as [[e|] m']; reflexivity.
Qed.

Lemma rdt_write_l3_mask_eq clos_id mask m :
  rdt_write_l3_mask clos_id mask m =
    if clos_id >=? MAX_CLOS then (ERROR_INVALID_PARAM, m)
    else
      match write_each (u32 (MSR_IA32_L3_MASK_0 + clos_id)) mask
              (Z.to_nat (nprocs m)) 0 m with
      | (Some e, m') => (e, m')
      | (None, m') => (SUCCESS, m')
      end.
Proof.
  unfold rdt_write_l3_mask, write_each, mbind, M_bind, get_cpu_count.
  destruct (clos_id >=? MAX_CLOS); [reflexivity|]. simpl.
  destruct (for_range _ _ _ m) as [[e|] m']; reflexivity.
Qed.

Lemma write_ok_written m c msr v c' msr' v' :
  write_ok m c msr v = true ->
  write_ok (written m c msr v) c' msr' v' = write_ok m c' msr' v'.
Proof.
  unfold write_ok, written. simpl. intros Hok.
  destruct (decide ((c, msr) = (c', msr'))) as [Heq|Hne].
  - inversion Heq; subst c' msr'. rewrite lookup_insert_eq.
    destruct (bool_decide (c ∈ devs m)); [|discriminate].
    destruct (0 <=? c); [|discriminate]. simpl in *.
    destruct (bool_decide (is_Some (regs m !! (c, msr)))); [|discriminate].
    reflexivity.
  - rewrite lookup_insert_ne by exact Hne. reflexivity.
Qed.

Section AfterWrites.

Variables msr value : Z.

Lemma after_writes_trace cpus m :
  trace (after_writes msr value m cpus)
  = trace m ++ map (fun c => Wr c msr value SUCCESS) cpus.
Proof.
  revert m. induction cpus as [|c cpus IH]; intros m; simpl.
  - rewrite app_nil_r. reflexivity.
  - rewrite IH. simpl. rewrite <- app_assoc. reflexivity.
Qed.

Lemma after_writes_fixed cpus m :
  let m' := after_writes msr value m cpus in
  nprocs m' = nprocs m /\ devs m' = devs m /\ accepts m' = accepts m
  /\ sched_cpu m' = sched_cpu m /\ qm_ctr_feed m' = qm_ctr_feed m.
Proof.
  revert m. induction cpus as [|c cpus IH]; intros m; simpl.
  - repeat split.
  - destruct (IH (written m c msr value)) as (H1 & H2 & H3 & H4 & H5).
    simpl in *. repeat split; assumption.
Qed.

Lemma after_writes_snoc cpus c m :
  after_writes msr value m (cpus ++ [c])
  = written (after_writes msr value m cpus) c msr value.
Proof. unfold after_writes. rewrite foldl_app. reflexivity. Qed.

Lemma after_writes_hit cpus m c :
  c ∈ cpus -> regs (after_writes msr value m cpus) !! (c, msr) = Some value.
Proof.
  induction cpus as [|c0 cpus IH] using rev_ind; intros Hin.
  - inversion Hin.
  - rewrite after_writes_snoc. simpl.
    destruct (decide (c0 = c)) as [->|Hne].
    + apply lookup_insert_eq.
    + rewrite lookup_insert_ne by congruence.
      apply IH. apply elem_of_app in Hin as [Hin|Hin]; [exact Hin|].
      apply list_elem_of_singleton in Hin. congruence.
Qed.

Lemma after_writes_miss cpus m key :
  (forall c, c ∈ cpus -> key <> (c, msr)) ->
  regs (after_writes msr value m cpus) !! key = regs m !! key.
Proof.
  revert m. induction cpus as [|c0 cpus IH]; intros m Hout; simpl.
  - reflexivity.
  - rewrite IH by (intros c Hc; apply Hout; right; exact Hc).
    simpl. apply lookup_insert_ne. intros Heq. apply (Hout c0); [left|].
    symmetry. exact Heq.
Qed.

Lemma write_each_S count start m :
  write_each msr value (S count) start m =
    match msr_write_cpu start msr value m with
    | (r, m1) =>
        if negb (r =? SUCCESS) then (Some ERROR_SYSTEM, m1)
        else write_each msr value count (start + 1) m1
    end.
Proof.
  unfold write_each. simpl for_range. unfold mbind, M_bind.
  destruct (msr_write_cpu start msr value m) as [r m1].
  destruct (negb (r =? SUCCESS)); reflexivity.
Qed.

(** The loop, run from [start] for [count] CPUs, with [stop] the first
    CPU at which the write does not go through ([stop = start + count]
    when they all do). *)
Lemma write_each_run (count : nat) : forall (start stop : Z) (m : machine),
  start <= stop <= start + Z.of_nat count ->
  (forall j, start <= j < stop -> write_ok m j msr value = true) ->
  (stop < start + Z.of_nat count -> write_ok m stop msr value = false) ->
  write_each msr value count start m =
    let m1 := after_writes msr value m (seqZ start (stop - start)) in
    if stop <? start + Z.of_nat count
    then (Some ERROR_SYSTEM, logged m1 (Wr stop msr value ERROR_SYSTEM))
    else (None, m1).
Proof.
  induction count as [|count IH]; intros start stop m Hrange Hbefore Hat.
  - assert (stop = start) as -> by lia.
    rewrite seqZ_nil by lia.
    destruct (Z.ltb_spec start (start + Z.of_nat 0)); [lia | reflexivity].
  - rewrite write_each_S, msr_write_cpu_eq.
    rewrite Nat2Z.inj_succ in *.
    destruct (Z.eq_dec stop start) as [->|Hne].
    + rewrite Hat by lia. rewrite seqZ_nil by lia.
      destruct (Z.ltb_spec start (start + Z.succ (Z.of_nat count))); [reflexivity | lia].
    + rewrite (Hbefore start) by lia.
      rewrite (IH (start + 1) stop (written m start msr value)).
      * rewrite (seqZ_cons start (stop - start)) by lia.
        replace (Z.succ start) with (start + 1) by lia.
        replace (Z.pred (stop - start)) with (stop - (start + 1)) by lia.
        destruct (Z.ltb_spec stop (start + 1 + Z.of_nat count));
          destruct (Z.ltb_spec stop (start + Z.succ (Z.of_nat count)));
          try lia; reflexivity.
      * lia.
      * intros j Hj. rewrite write_ok_written; [apply Hbefore; lia|].
        apply Hbefore. lia.
      * intros Hlt. rewrite write_ok_written; [apply Hat; lia|].
        apply Hbefore. lia.
Qed.

End AfterWrites.

(** ** Negative identifiers *)

Section NegativeIds.

Lemma testbit_negative x k i :
  - 2 ^ k <= x < 0 -> 0 <= k -> k <= i -> Z.testbit x i = true.
Proof.
  intros Hx Hk Hi.
  replace x with (Z.lnot (- x - 1)) by (unfold Z.lnot; lia).
  rewrite Z.lnot_spec by lia.
  rewrite (testbit_small (- x - 1) k i) by lia. reflexivity.
Qed.

Lemma u64_negative x : - 2 ^ 64 <= x < 0 -> u64 x = 2 ^ 64 + x.
Proof.
  intros Hx. unfold u64. symmetry.
  apply (Z.mod_unique x (2 ^ 64) (-1)); lia.
Qed.

(** A negative class id, converted to [uint64_t], is all ones above bit
    31: it replaces the whole word. *)
Lemma put_clos_negative w id :
  is_u64 w -> is_int id -> id < 0 -> put_clos id w = 2 ^ 64 + id.
Proof.
  intros Hw Hid Hneg. unfold is_int in Hid. unfold put_clos.
  rewrite <- (u64_negative id) by lia.
  apply Z.bits_inj'. intros i Hi.
  rewrite Z.lor_spec, Z.land_spec, testbit_high_mask, u64_testbit.
  pose proof (testbit_negative id 31 i) as Hones.
  pose proof (is_u64_testbit_high w i Hw) as Hhigh.
  cmp_cases; try lia; rewrite ?Hones, ?Hhigh by lia;
    destruct (Z.testbit w i); try reflexivity;
    destruct (Z.testbit id i); reflexivity.
Qed.

Lemma shl64_32_low x : shl64 (u64 x) 32 = shl64 (u64 (x mod 2 ^ 32)) 32.
Proof.
  unfold shl64, u64. rewrite !Z.shiftl_mul_pow2 by lia.
  change (2 ^ 64) with (2 ^ 32 * 2 ^ 32).
  rewrite !Z.mul_mod_distr_r by lia. f_equal.
  rewrite Z.mod_mod_divide by (exists (2 ^ 32); reflexivity).
  rewrite Z.mod_mod_divide by (exists (2 ^ 32); reflexivity).
  rewrite Z.mod_mod by lia. reflexivity.
Qed.

(** A negative monitoring id lands in the high half as [2^32 + rmid]. *)
Lemma put_rmid_negative w id :
  is_u64 w -> is_int id -> id < 0 ->
  clos_half (put_rmid id w) = clos_half w
  /\ rmid_half (put_rmid id w) = 2 ^ 32 + id
  /\ is_u64 (put_rmid id w).
Proof.
  intros Hw Hid Hneg. unfold is_int in Hid. unfold put_rmid.
  rewrite shl64_32_low.
  replace (id mod 2 ^ 32) with (2 ^ 32 + id)
    by (apply (Z.mod_unique id (2 ^ 32) (-1)); lia).
  apply set_high_half; [exact Hw | lia].
Qed.

End NegativeIds.

(** ** The benchmark's class assignment *)

(** C1. On the word of CPU 0 with class 0 and monitoring id 5 (put there
    by [rdt_monitor_set_rmid]), [assign_thread_to_clos 1] run on CPU 0
    succeeds and leaves monitoring id 1 and class id 0: the class id went
    into bits 63:32, over the monitoring identifier, and bits 31:0 were
    kept. *)
Theorem assign_thread_to_clos_overwrites_rmid :
  let m1 := (rdt_monitor_set_rmid 0 5 demo).2 in
  let r := assign_thread_to_clos 1 m1 in
  (rdt_monitor_get_rmid 0 0 m1).1 = (SUCCESS, 5)
  /\ (rdt_get_clos 0 0 m1).1 = (SUCCESS, 0)
  /\ r.1 = SUCCESS
  /\ (rdt_monitor_get_rmid 0 0 r.2).1 = (SUCCESS, 1)
  /\ (rdt_get_clos 0 0 r.2).1 = (SUCCESS, 0).
Proof. vm_compute. repeat split. Qed.

(** The same for every machine: where both accesses go through, the
    monitoring-id half reads back the class id just assigned. *)
Lemma assign_thread_to_clos_word m clos_id w :
  0 <= clos_id < MAX_CLOS ->
  0 <= sched_cpu m ->
  assoc_word m (sched_cpu m) = Some w ->
  write_ok m (sched_cpu m) MSR_IA32_PQR_ASSOC (put_rmid clos_id w) = true ->
  exists w', assoc_word (assign_thread_to_clos clos_id m).2 (sched_cpu m) = Some w'
    /\ rmid_half w' = clos_id /\ clos_half w' = clos_half w.
Proof.
  intros Hid Hcpu Hw Hok. rewrite assign_thread_to_clos_rmw.
  destruct (Z.ltb_spec (sched_cpu m) 0); [lia|].
  rewrite assoc_rmw_word, Hw, Hok.
  pose proof (assoc_word_u64 _ _ _ Hw) as Hu.
  assert (Hr : 0 <= clos_id < 2 ^ 32) by (unfold MAX_CLOS in Hid; lia).
  destruct (set_high_half w clos_id Hu Hr) as (Hcl & Hrm & Hu').
  fold (put_rmid clos_id w) in Hcl, Hrm, Hu'.
  exists (put_rmid clos_id w). rewrite (u64_small _ Hu'). auto.
Qed.

(** ** Validation of identifiers *)

(** The first CPU of [start .. start+count-1] whose write does not go
    through, found by bounded search ([start + count] if there is none). *)
Lemma first_stop_exists msr value (count : nat) (start : Z) (m : machine) :
  exists stop,
    start <= stop <= start + Z.of_nat count
    /\ (forall j, start <= j < stop -> write_ok m j msr value = true)
    /\ (stop < start + Z.of_nat count -> write_ok m stop msr value = false).
Proof.
  induction count as [|count (stop & Hr & Hb & Ha)].
  - exists start. split; [lia|]. split; intros; lia.
  - rewrite Nat2Z.inj_succ.
    destruct (Z.eq_dec stop (start + Z.of_nat count)) as [Heq|Hne].
    + destruct (write_ok m stop msr value) eqn:Hok.
      * exists (stop + 1). repeat split; try lia.
        intros j Hj. destruct (Z.eq_dec j stop) as [->|Hj']; [exact Hok|].
        apply Hb. lia.
      * exists stop. repeat split; try lia; auto.
    + exists stop. repeat split; try lia; auto.
      intros _. apply Ha. lia.
Qed.

Lemma assoc_rmw_first_access cpu f m :
  exists res, first_access (assoc_rmw cpu f) m (Rd cpu MSR_IA32_PQR_ASSOC res).
Proof.
  unfold first_access. rewrite assoc_rmw_eq.
  destruct (assoc_word m cpu) as [w|].
  - exists SUCCESS. rewrite msr_write_cpu_eq, write_ok_logged.
    destruct (write_ok m cpu MSR_IA32_PQR_ASSOC (f w)); simpl;
      rewrite <- app_assoc; eexists; reflexivity.
  - exists ERROR_SYSTEM. exists []. reflexivity.
Qed.

Lemma assoc_rmw_result cpu f m :
  (assoc_rmw cpu f m).1 = SUCCESS \/ (assoc_rmw cpu f m).1 = ERROR_SYSTEM.
Proof.
  rewrite assoc_rmw_eq. destruct (assoc_word m cpu) as [w|]; [|right; reflexivity].
  rewrite msr_write_cpu_eq.
  destruct (write_ok _ cpu MSR_IA32_PQR_ASSOC (f w)); [left | right]; reflexivity.
Qed.

Lemma assoc_rmw_success cpu f m w :
  assoc_word m cpu = Some w ->
  write_ok m cpu MSR_IA32_PQR_ASSOC (f w) = true ->
  assoc_rmw cpu f m =
    (SUCCESS, written (logged m (Rd cpu MSR_IA32_PQR_ASSOC SUCCESS)) cpu
                MSR_IA32_PQR_ASSOC (f w)).
Proof.
  intros Hw Hok. rewrite assoc_rmw_eq, Hw, msr_write_cpu_eq, write_ok_logged, Hok.
  reflexivity.
Qed.

Lemma write_each_first_access msr value count m :
  exists res, first_access (write_each msr value (S count) 0) m (Wr 0 msr value res).
Proof.
  unfold first_access. rewrite write_each_S, msr_write_cpu_eq.
  destruct (write_ok m 0 msr value) eqn:Hok.
  - exists SUCCESS. simpl negb. cbv iota.
    destruct (first_stop_exists msr value count (0 + 1) (written m 0 msr value)) as (stop & Hr & Hb & Ha).
    rewrite (write_each_run msr value count (0 + 1) stop _ Hr Hb Ha). cbv zeta.
    destruct (stop <? 0 + 1 + Z.of_nat count); simpl;
      rewrite after_writes_trace; simpl; rewrite <- !app_assoc; eexists; reflexivity.
  - exists ERROR_SYSTEM. exists []. reflexivity.
Qed.

Lemma write_each_result msr value count start m :
  (write_each msr value count start m).1 = None
  \/ (write_each msr value count start m).1 = Some ERROR_SYSTEM.
Proof.
  destruct (first_stop_exists msr value count start m) as (stop & Hr & Hb & Ha).
  rewrite (write_each_run msr value count start stop m Hr Hb Ha). cbv zeta.
  destruct (stop <? start + Z.of_nat count); [right | left]; reflexivity.
Qed.

Lemma rdt_write_l3_mask_result clos_id mask m :
  clos_id < MAX_CLOS ->
  (rdt_write_l3_mask clos_id mask m).1 = SUCCESS
  \/ (rdt_write_l3_mask clos_id mask m).1 = ERROR_SYSTEM.
Proof.
  intros Hid. rewrite rdt_write_l3_mask_eq.
  destruct (Z.geb_spec clos_id MAX_CLOS); [lia|].
  destruct (write_each_result (u32 (MSR_IA32_L3_MASK_0 + clos_id)) mask
              (Z.to_nat (nprocs m)) 0 m) as [Hres|Hres];
    destruct (write_each _ _ _ _ m) as [[e|] m']; simpl in Hres; try discriminate.
  - left. reflexivity.
  - right. inversion Hres. reflexivity.
Qed.

(** C10. The setters compare their identifier with the upper bound only.
    An identifier at or above the bound ([MAX_CLOS] = 16 for class ids,
    [MAX_RMID] = 256 for monitoring ids) is refused with
    [ERROR_INVALID_PARAM] and the machine, its access trace included, is
    untouched.  A negative identifier is not refused: [rdt_set_clos] and
    [rdt_monitor_set_rmid] go on to read the association word, and where
    both accesses go through they store the identifier's two's-complement
    bits in it; [rdt_write_l3_mask] goes on to write the mask at the
    address computed from the negative id. *)
Theorem setters_check_upper_bound_only (m : machine) (cpu id mask : Z) :
  (MAX_CLOS <= id ->
     rdt_set_clos cpu id m = (ERROR_INVALID_PARAM, m)
     /\ rdt_write_l3_mask id mask m = (ERROR_INVALID_PARAM, m))
  /\ (MAX_RMID <= id ->
        rdt_monitor_set_rmid cpu id m = (ERROR_INVALID_PARAM, m))
  /\ (is_int id -> id < 0 ->
        ((rdt_set_clos cpu id m).1 <> ERROR_INVALID_PARAM
         /\ exists res, first_access (rdt_set_clos cpu id) m
                          (Rd cpu MSR_IA32_PQR_ASSOC res))
        /\ ((rdt_monitor_set_rmid cpu id m).1 <> ERROR_INVALID_PARAM
            /\ exists res, first_access (rdt_monitor_set_rmid cpu id) m
                             (Rd cpu MSR_IA32_PQR_ASSOC res))
        /\ ((rdt_write_l3_mask id mask m).1 <> ERROR_INVALID_PARAM
            /\ (1 <= nprocs m ->
                exists res, first_access (rdt_write_l3_mask id mask) m
                              (Wr 0 (u32 (MSR_IA32_L3_MASK_0 + id)) mask res)))
        /\ (forall w, assoc_word m cpu = Some w ->
              (write_ok m cpu MSR_IA32_PQR_ASSOC (2 ^ 64 + id) = true ->
                 rdt_set_clos cpu id m =
                   (SUCCESS, written (logged m (Rd cpu MSR_IA32_PQR_ASSOC SUCCESS))
                               cpu MSR_IA32_PQR_ASSOC (2 ^ 64 + id)))
              /\ (write_ok m cpu MSR_IA32_PQR_ASSOC (put_rmid id w) = true ->
                    rdt_monitor_set_rmid cpu id m =
                      (SUCCESS, written (logged m (Rd cpu MSR_IA32_PQR_ASSOC SUCCESS))
                                  cpu MSR_IA32_PQR_ASSOC (put_rmid id w))
                    /\ rmid_half (put_rmid id w) = 2 ^ 32 + id
                    /\ clos_half (put_rmid id w) = clos_half w))).
Proof.
  split; [|split].
  - intros Hge. rewrite rdt_set_clos_rmw, rdt_write_l3_mask_eq.
    destruct (Z.geb_spec id MAX_CLOS); [|lia]. split; reflexivity.
  - intros Hge. rewrite rdt_monitor_set_rmid_rmw.
    destruct (Z.geb_spec id MAX_RMID); [|lia]. reflexivity.
  - intros Hint Hneg.
    assert (Hc : (id >=? MAX_CLOS) = false)
      by (destruct (Z.geb_spec id MAX_CLOS); [unfold MAX_CLOS in *; lia | reflexivity]).
    assert (Hr : (id >=? MAX_RMID) = false)
      by (destruct (Z.geb_spec id MAX_RMID); [unfold MAX_RMID in *; lia | reflexivity]).
    split; [|split; [|split; [|]]].
    + rewrite rdt_set_clos_rmw, Hc. split.
      * destruct (assoc_rmw_result cpu (put_clos id) m) as [H|H]; rewrite H; discriminate.
      * apply assoc_rmw_first_access.
    + rewrite rdt_monitor_set_rmid_rmw, Hr. split.
      * destruct (assoc_rmw_result cpu (put_rmid id) m) as [H|H]; rewrite H; discriminate.
      * apply assoc_rmw_first_access.
    + split.
      * destruct (rdt_write_l3_mask_result id mask m) as [H|H];
          [unfold MAX_CLOS; lia | rewrite H; discriminate | rewrite H; discriminate].
      * intros Hn. unfold first_access. rewrite rdt_write_l3_mask_eq, Hc.
        destruct (Z.to_nat (nprocs m)) as [|count] eqn:Hcount; [lia|].
        destruct (write_each_first_access (u32 (MSR_IA32_L3_MASK_0 + id)) mask count m)
          as (res & rest & Htr).
        exists res, rest.
        destruct (write_each _ _ _ _ m) as [[e|] m']; exact Htr.
    + intros w Hw. pose proof (assoc_word_u64 _ _ _ Hw) as Hu. split.
      * intros Hok. rewrite rdt_set_clos_rmw, Hc.
        rewrite (assoc_rmw_success cpu (put_clos id) m w Hw);
          rewrite (put_clos_negative w id Hu Hint Hneg); [reflexivity | exact Hok].
      * intros Hok. rewrite rdt_monitor_set_rmid_rmw, Hr.
        rewrite (assoc_rmw_success cpu (put_rmid id) m w Hw Hok).
        destruct (put_rmid_negative w id Hu Hint Hneg) as (Hcl & Hrm & _).
        auto.
Qed.

Lemma setters_check_upper_bound_only_witness :
  rdt_set_clos 0 16 demo = (ERROR_INVALID_PARAM, demo)
  /\ rdt_monitor_set_rmid 0 256 demo = (ERROR_INVALID_PARAM, demo)
  /\ (rdt_set_clos 0 (-1) demo).1 <> ERROR_INVALID_PARAM
  /\ rdt_set_clos 0 (-1) demo =
       (SUCCESS, written (logged demo (Rd 0 MSR_IA32_PQR_ASSOC SUCCESS))
                   0 MSR_IA32_PQR_ASSOC (2 ^ 64 + -1)).
Proof.
  pose proof (setters_check_upper_bound_only demo 0 16 0xFF) as (Hclos & _ & _).
  pose proof (setters_check_upper_bound_only demo 0 256 0xFF) as (_ & Hrmid & _).
  pose proof (setters_check_upper_bound_only demo 0 (-1) 0xFF) as (_ & _ & Hneg).
  assert (Hi : is_int (-1)) by (unfold is_int; lia).
  assert (Hn : -1 < 0) by lia.
  destruct (Hneg Hi Hn) as ((Hpass & _) & _ & _ & Hword).
  split; [apply Hclos; unfold MAX_CLOS; lia|].
  split; [apply Hrmid; unfold MAX_RMID; lia|].
  split; [exact Hpass|].
  apply (Hword 0); reflexivity.
Defined.

(** ** The batch write *)

(** C3, as the code has it.  Let [stop] be the first CPU of the
    enumeration whose write does not go through ([stop] = the number of
    CPUs when they all do).  [msr_write_all_cpus] writes CPUs
    [0 .. stop-1], attempts CPU [stop] and nothing after it: the CPUs
    before [stop] hold the new value, the CPUs from [stop] on keep their
    register as it was.  The result is the CPU count on full success and
    the bare [ERROR_SYSTEM] otherwise, whatever [stop] is. *)
Theorem msr_write_all_cpus_stops_at_first_failure
    (m : machine) (msr value max_cpus stop : Z) :
  0 <= stop <= batch_size m max_cpus ->
  (forall j, 0 <= j < stop -> write_ok m j msr value = true) ->
  (stop < batch_size m max_cpus -> write_ok m stop msr value = false) ->
  let r := msr_write_all_cpus msr value max_cpus m in
  r.1 = (if stop <? batch_size m max_cpus then ERROR_SYSTEM else batch_size m max_cpus)
  /\ trace r.2 =
       trace m ++ map (fun c => Wr c msr value SUCCESS) (seqZ 0 stop)
         ++ (if stop <? batch_size m max_cpus
             then [Wr stop msr value ERROR_SYSTEM] else [])
  /\ (forall c, 0 <= c < stop -> regs r.2 !! (c, msr) = Some value)
  /\ (forall c, stop <= c -> regs r.2 !! (c, msr) = regs m !! (c, msr)).
Proof.
  intros Hr Hb Ha r. subst r. rewrite msr_write_all_cpus_eq. fold (batch_size m max_cpus).
  cbv zeta.
  assert (Hn : Z.of_nat (Z.to_nat (batch_size m max_cpus)) = batch_size m max_cpus) by lia.
  rewrite (write_each_run msr value (Z.to_nat (batch_size m max_cpus)) 0 stop m);
    rewrite ?Hn; try assumption; try lia.
  cbv zeta. rewrite Z.sub_0_r, !Z.add_0_l.
  assert (Hhit : forall c, 0 <= c < stop ->
            regs (after_writes msr value m (seqZ 0 stop)) !! (c, msr) = Some value).
  { intros c Hc. apply after_writes_hit, elem_of_seqZ. lia. }
  assert (Hmiss : forall c, stop <= c ->
            regs (after_writes msr value m (seqZ 0 stop)) !! (c, msr) = regs m !! (c, msr)).
  { intros c Hc. apply after_writes_miss. intros c' Hc' [= ->].
    apply elem_of_seqZ in Hc'. lia. }
  destruct (stop <? batch_size m max_cpus); simpl.
  - rewrite after_writes_trace, <- app_assoc. auto.
  - rewrite after_writes_trace, app_nil_r. auto.
Qed.

Lemma msr_write_all_cpus_stops_at_first_failure_witness :
  let r := msr_write_all_cpus MSR_IA32_L3_MASK_0 0xFF 8 cpu2_missing in
  r.1 = ERROR_SYSTEM
  /\ trace r.2 =
       [Wr 0 MSR_IA32_L3_MASK_0 0xFF SUCCESS; Wr 1 MSR_IA32_L3_MASK_0 0xFF SUCCESS;
        Wr 2 MSR_IA32_L3_MASK_0 0xFF ERROR_SYSTEM]
  /\ (forall c, 0 <= c < 2 -> regs r.2 !! (c, MSR_IA32_L3_MASK_0) = Some 0xFF)
  /\ (forall c, 2 <= c ->
        regs r.2 !! (c, MSR_IA32_L3_MASK_0) = regs cpu2_missing !! (c, MSR_IA32_L3_MASK_0)).
Proof.
  apply (msr_write_all_cpus_stops_at_first_failure cpu2_missing MSR_IA32_L3_MASK_0 0xFF 8 2).
  - vm_compute. split; discriminate.
  - intros j Hj. assert (j = 0 \/ j = 1) as [-> | ->] by lia; vm_compute; reflexivity.
  - intros _. vm_compute. reflexivity.
Defined.

(** C3, the part that fails: the batch write returns [ERROR_SYSTEM] both
    when two writes went through before the failure and when none did,
    so the result does not report how many writes succeeded. *)
Lemma msr_write_all_cpus_result_hides_count :
  let a := msr_write_all_cpus MSR_IA32_L3_MASK_0 0xFF 8 cpu2_missing in
  let b := msr_write_all_cpus MSR_IA32_L3_MASK_0 0xFF 8 cpu0_missing in
  a.1 = ERROR_SYSTEM /\ b.1 = ERROR_SYSTEM
  /\ applied_count (trace a.2) = 2%nat /\ applied_count (trace b.2) = 0%nat
  /\ ~ (exists count_of : Z -> nat,
          count_of a.1 = applied_count (trace a.2)
          /\ count_of b.1 = applied_count (trace b.2)).
Proof.
  vm_compute. repeat split.
  intros (f & Ha & Hb). rewrite Ha in Hb. discriminate.
Qed.

(** ** The cache bitmask of a class *)

Lemma l3_mask_msr_in_range clos_id :
  0 <= clos_id < MAX_CLOS -> l3_mask_msr clos_id = MSR_IA32_L3_MASK_0 + clos_id.
Proof.
  unfold l3_mask_msr, u32, MAX_CLOS, MSR_IA32_L3_MASK_0. intros H.
  apply Z.mod_small. lia.
Qed.

Lemma rdt_write_l3_mask_run m clos_id mask stop :
  clos_id < MAX_CLOS ->
  0 <= stop <= nprocs m ->
  (forall j, 0 <= j < stop -> write_ok m j (l3_mask_msr clos_id) mask = true) ->
  (stop < nprocs m -> write_ok m stop (l3_mask_msr clos_id) mask = false) ->
  rdt_write_l3_mask clos_id mask m =
    let m1 := after_writes (l3_mask_msr clos_id) mask m (seqZ 0 stop) in
    if stop <? nprocs m
    then (ERROR_SYSTEM, logged m1 (Wr stop (l3_mask_msr clos_id) mask ERROR_SYSTEM))
    else (SUCCESS, m1).
Proof.
  intros Hid Hr Hb Ha. rewrite rdt_write_l3_mask_eq.
  destruct (Z.geb_spec clos_id MAX_CLOS); [lia|]. fold (l3_mask_msr clos_id).
  assert (Hn : Z.of_nat (Z.to_nat (nprocs m)) = nprocs m) by lia.
  rewrite (write_each_run (l3_mask_msr clos_id) mask (Z.to_nat (nprocs m)) 0 stop m);
    rewrite ?Hn; try assumption; try lia.
  cbv zeta. rewrite Z.sub_0_r, Z.add_0_l.
  destruct (stop <? nprocs m); reflexivity.
Qed.

(** A successful [rdt_write_l3_mask] wrote every CPU. *)
Lemma rdt_write_l3_mask_success m m' clos_id mask :
  clos_id < MAX_CLOS -> 0 <= nprocs m ->
  rdt_write_l3_mask clos_id mask m = (SUCCESS, m') ->
  m' = after_writes (l3_mask_msr clos_id) mask m (seqZ 0 (nprocs m))
  /\ forall j, 0 <= j < nprocs m -> write_ok m j (l3_mask_msr clos_id) mask = true.
Proof.
  intros Hid Hn Hrun.
  destruct (first_stop_exists (l3_mask_msr clos_id) mask (Z.to_nat (nprocs m)) 0 m)
    as (stop & Hr & Hb & Ha).
  rewrite Z2Nat.id in Hr, Ha by lia. rewrite Z.add_0_l in Hr, Ha.
  rewrite (rdt_write_l3_mask_run m clos_id mask stop Hid Hr Hb Ha) in Hrun.
  cbv zeta in Hrun.
  destruct (Z.ltb_spec stop (nprocs m)) as [Hlt|Hge]; [discriminate|].
  assert (stop = nprocs m) as -> by lia.
  inversion Hrun. split; [reflexivity | exact Hb].
Qed.

(** C7. Let [rdt_write_l3_mask] succeed in writing the 64-bit mask [mask]
    (in particular any non-zero one) for a class id in [0 .. MAX_CLOS-1]
    on a machine with at least one CPU.  Then [rdt_read_l3_mask] of the
    same class succeeds and returns exactly [mask]. *)
Theorem l3_mask_round_trip (m m' : machine) (clos_id mask old : Z) :
  0 <= clos_id < MAX_CLOS ->
  is_u64 mask ->
  1 <= nprocs m ->
  rdt_write_l3_mask clos_id mask m = (SUCCESS, m') ->
  (rdt_read_l3_mask clos_id old m').1 = (SUCCESS, mask).
Proof.
  intros Hid Hmask Hn Hrun.
  destruct (rdt_write_l3_mask_success m m' clos_id mask) as (-> & Hok);
    [lia | lia | exact Hrun |].
  unfold rdt_read_l3_mask.
  destruct (Z.geb_spec clos_id MAX_CLOS); [lia|]. fold (l3_mask_msr clos_id).
  rewrite msr_read_cpu_eq, read_step_plain.
  2:{ rewrite l3_mask_msr_in_range by exact Hid.
      unfold MSR_IA32_L3_MASK_0, MSR_IA32_QM_CTR, MAX_CLOS in *. lia. }
  destruct (after_writes_fixed (l3_mask_msr clos_id) mask (seqZ 0 (nprocs m)) m)
    as (_ & Hdevs & _).
  rewrite Hdevs.
  specialize (Hok 0 ltac:(lia)). unfold write_ok in Hok.
  destruct (bool_decide (0 ∈ devs m) && (0 <=? 0)); [|discriminate].
  rewrite after_writes_hit by (apply elem_of_seqZ; lia).
  simpl. rewrite (u64_small mask Hmask). reflexivity.
Qed.

Lemma l3_mask_round_trip_witness :
  (rdt_read_l3_mask 1 0 (rdt_write_l3_mask 1 0x3FF demo).2).1 = (SUCCESS, 0x3FF).
Proof.
  apply (l3_mask_round_trip demo _ 1 0x3FF 0).
  - unfold MAX_CLOS. lia.
  - unfold is_u64. lia.
  - simpl. lia.
  - vm_compute. reflexivity.
Defined.

(** [rdt_test_cache_allocation] passes on the example machine. *)
Example rdt_test_cache_allocation_demo : (rdt_test_cache_allocation demo).1 = SUCCESS.
Proof. vm_compute. reflexivity. Qed.

(** C6, as stated, fails: the zero mask for class 1 is accepted and
    written to both CPUs, by [rdt_write_l3_mask] and by
    [setup_rdt_clos] alike. *)
Lemma zero_mask_is_written :
  let r := rdt_write_l3_mask 1 0 demo in
  let s := setup_rdt_clos 1 0 0 demo in
  r.1 = SUCCESS
  /\ trace r.2 = [Wr 0 (MSR_IA32_L3_MASK_0 + 1) 0 SUCCESS;
                  Wr 1 (MSR_IA32_L3_MASK_0 + 1) 0 SUCCESS]
  /\ regs demo !! (0, MSR_IA32_L3_MASK_0 + 1) = Some 0xFFFF
  /\ regs r.2 !! (0, MSR_IA32_L3_MASK_0 + 1) = Some 0
  /\ s.1 = SUCCESS
  /\ trace s.2 = [Wr 0 (MSR_IA32_L3_MASK_0 + 1) 0 SUCCESS]
  /\ regs s.2 !! (0, MSR_IA32_L3_MASK_0 + 1) = Some 0.
Proof. vm_compute. repeat split. Qed.

(** C6, as the code has it.  [rdt_write_l3_mask] refuses a class id at
    or above [MAX_CLOS] with [ERROR_INVALID_PARAM] before any access;
    it does not look at the mask.  With a class id below [MAX_CLOS] and
    the writes going through, the zero mask is written to every CPU and
    the result is [SUCCESS].  [setup_rdt_clos] validates nothing: where
    the write goes through on CPU 0 the zero mask is stored. *)
Theorem zero_mask_not_rejected (m : machine) (clos_id : Z) :
  (MAX_CLOS <= clos_id ->
     forall mask, rdt_write_l3_mask clos_id mask m = (ERROR_INVALID_PARAM, m))
  /\ (clos_id < MAX_CLOS -> 0 <= nprocs m ->
        (forall j, 0 <= j < nprocs m -> write_ok m j (l3_mask_msr clos_id) 0 = true) ->
        let r := rdt_write_l3_mask clos_id 0 m in
        r.1 = SUCCESS
        /\ trace r.2 =
             trace m ++ map (fun c => Wr c (l3_mask_msr clos_id) 0 SUCCESS)
                          (seqZ 0 (nprocs m))
        /\ forall c, 0 <= c < nprocs m -> regs r.2 !! (c, l3_mask_msr clos_id) = Some 0)
  /\ (write_ok m 0 (l3_mask_msr clos_id) 0 = true ->
        let s := setup_rdt_clos clos_id 0 0 m in
        s.1 = SUCCESS
        /\ trace s.2 = trace m ++ [Wr 0 (l3_mask_msr clos_id) 0 SUCCESS]
        /\ regs s.2 !! (0, l3_mask_msr clos_id) = Some 0).
Proof.
  split; [|split].
  - intros Hge mask. rewrite rdt_write_l3_mask_eq.
    destruct (Z.geb_spec clos_id MAX_CLOS); [reflexivity | lia].
  - intros Hid Hn Hok r. subst r.
    rewrite (rdt_write_l3_mask_run m clos_id 0 (nprocs m)); try assumption; try lia.
    cbv zeta. destruct (Z.ltb_spec (nprocs m) (nprocs m)); [lia|]. simpl.
    split; [reflexivity|]. split; [apply after_writes_trace|].
    intros c Hc. apply after_writes_hit, elem_of_seqZ. lia.
  - intros Hok s. subst s.
    unfold setup_rdt_clos, mbind, M_bind. fold (l3_mask_msr clos_id).
    rewrite msr_write_cpu_eq, Hok. simpl.
    destruct (feature_mba m); simpl; rewrite lookup_insert_eq; auto.
Qed.

Lemma zero_mask_not_rejected_witness :
  rdt_write_l3_mask 16 0 demo = (ERROR_INVALID_PARAM, demo)
  /\ (rdt_write_l3_mask 1 0 demo).1 = SUCCESS
  /\ (setup_rdt_clos 1 0 0 demo).1 = SUCCESS.
Proof.
  pose proof (zero_mask_not_rejected demo 16) as (Hhigh & _ & _).
  pose proof (zero_mask_not_rejected demo 1) as (_ & Hwrite & Hsetup).
  split; [apply Hhigh; unfold MAX_CLOS; lia|]. split.
  - apply Hwrite.
    + unfold MAX_CLOS. lia.
    + simpl. lia.
    + intros j Hj. simpl in Hj.
      assert (j = 0 \/ j = 1) as [-> | ->] by lia; vm_compute; reflexivity.
  - apply Hsetup. vm_compute. reflexivity.
Defined.

(** ** Switching a CPU between classes *)



Lemma passes_app t1 t2 : passes (t1 ++ t2) = (passes t1 + passes t2)%nat.
Proof. unfold passes. rewrite filter_app, length_app. reflexivity. Qed.

Lemma switch_from_S n i m :
  switch_from (S n) i m = switch_from n (i + 1) (rdt_set_clos 0 (requested_clos i) m).2.
Proof.
  unfold switch_from. simpl for_range. unfold mbind, M_bind.
  destruct (rdt_set_clos 0 (requested_clos i) m) as [r m1]. reflexivity.
Qed.


(** One request on any CPU whose association word can be read and
    written. *)
Lemma rdt_set_clos_on cpu c m w :
  0 <= c < MAX_CLOS ->
  assoc_word m cpu = Some w ->
  word_writable m cpu ->
  let m1 := (rdt_set_clos cpu c m).2 in
  trace m1 = trace m ++ [Rd cpu MSR_IA32_PQR_ASSOC SUCCESS;
                         Wr cpu MSR_IA32_PQR_ASSOC (put_clos c w) SUCCESS]
  /\ assoc_word m1 cpu = Some (put_clos c w)
  /\ word_writable m1 cpu
  /\ rmid_half (put_clos c w) = rmid_half w
  /\ clos_half (put_clos c w) = c.
Proof.
  intros Hc Hw Hok m1. subst m1. rewrite rdt_set_clos_rmw.
  destruct (Z.geb_spec c MAX_CLOS); [lia|].
  rewrite (assoc_rmw_success cpu (put_clos c) m w Hw (Hok _)). simpl snd.
  assert (Hrange : 0 <= c < 2 ^ 32) by (unfold MAX_CLOS in Hc; lia).
  destruct (set_low_half w c (assoc_word_u64 _ _ _ Hw) Hrange) as (Hrm & Hcl & Hu).
  fold (put_clos c w) in Hrm, Hcl, Hu.
  split; [|split; [|split; [|split]]].
  - simpl. rewrite <- app_assoc. reflexivity.
  - rewrite assoc_word_written by (rewrite write_ok_logged; apply Hok).
    f_equal. apply u64_small. exact Hu.
  - intros v. rewrite write_ok_written by (rewrite write_ok_logged; apply Hok).
    rewrite write_ok_logged. apply Hok.
  - exact Hrm.
  - exact Hcl.
Qed.

Lemma issue_requests_cons cpu c requests m :
  (issue_requests cpu (c :: requests) m).2
  = (issue_requests cpu requests (rdt_set_clos cpu c m).2).2.
Proof.
  simpl issue_requests. unfold mbind, M_bind.
  destruct (rdt_set_clos cpu c m) as [r m1]. reflexivity.
Qed.

(** The word after a run of requests: the class half is the class
    requested last, the monitoring half is untouched, and every request
    was one write. *)
Lemma issue_requests_run cpu requests : forall (m : machine) (w : Z),
  assoc_word m cpu = Some w ->
  word_writable m cpu ->
  Forall (fun c => 0 <= c < MAX_CLOS) requests ->
  let m' := (issue_requests cpu requests m).2 in
  exists ext w',
    trace m' = trace m ++ ext
    /\ passes ext = length requests
    /\ assoc_word m' cpu = Some w'
    /\ rmid_half w' = rmid_half w
    /\ clos_half w' = default (clos_half w) (last requests).
Proof.
  induction requests as [|c requests IH]; intros m w Hw Hok Hall m'; subst m'.
  - exists [], w. simpl. rewrite app_nil_r. repeat split; auto.
  - rewrite issue_requests_cons.
    inversion Hall as [|? ? Hc Hrest]; subst.
    destruct (rdt_set_clos_on cpu c m w Hc Hw Hok) as (Htr & Hw1 & Hok1 & Hrm1 & Hcl1).
    destruct (IH _ _ Hw1 Hok1 Hrest) as (ext & w' & Hext & Hp & Hw' & Hrm & Hcl).
    exists ([Rd cpu MSR_IA32_PQR_ASSOC SUCCESS;
             Wr cpu MSR_IA32_PQR_ASSOC (put_clos c w) SUCCESS] ++ ext), w'.
    split; [rewrite Hext, Htr, <- app_assoc; reflexivity|].
    split; [rewrite passes_app, Hp; reflexivity|].
    split; [exact Hw'|].
    split; [congruence|].
    rewrite Hcl, Hcl1. destruct requests as [|c' requests]; [reflexivity|].
    rewrite (last_cons c (c' :: requests)).
    destruct (last (c' :: requests)) eqn:Hl; [reflexivity|].
    apply last_None in Hl. discriminate.
Qed.

(** The loop of [rdt_test_dynamic_switching] is such a run, on CPU 0. *)
Lemma switch_from_requests (n : nat) : forall (i : Z) (m : machine),
  (switch_from n i m).2
  = (issue_requests 0 (requested_clos <$> seqZ i (Z.of_nat n)) m).2.
Proof.
  induction n as [|n IH]; intros i m; [reflexivity|].
  rewrite switch_from_S, Nat2Z.inj_succ, seqZ_cons by lia.
  rewrite fmap_cons, issue_requests_cons, Z.pred_succ.
  replace (Z.succ i) with (i + 1) by lia. apply IH.
Qed.

(** C5, as the code has it.  Class-assignment requests issued back to
    back, on any CPU whose association word can be read and written and
    for any class ids below [MAX_CLOS], are applied one by one: the
    hardware sees as many writes of the association word as there were
    requests, the monitoring half stays as it was, and the class read
    back at the end is the one requested last.  The loop of
    [rdt_test_dynamic_switching] is such a sequence of requests, on CPU
    0 and alternating between class 0 and class 1. *)
Theorem switching_loop_applies_every_request
    (cpu : Z) (requests : list Z) (m : machine) (w old : Z) :
  assoc_word m cpu = Some w ->
  word_writable m cpu ->
  Forall (fun c => 0 <= c < MAX_CLOS) requests ->
  let m' := (issue_requests cpu requests m).2 in
  (exists ext, trace m' = trace m ++ ext /\ passes ext = length requests)
  /\ (rdt_monitor_get_rmid cpu old m').1 = (rdt_monitor_get_rmid cpu old m).1
  /\ (forall c, last requests = Some c -> (rdt_get_clos cpu old m').1 = (SUCCESS, c))
  /\ (forall n : nat,
        cpu = 0 -> requests = requested_clos <$> seqZ 0 (Z.of_nat n) ->
        (switching_loop n m).2 = m').
Proof.
  intros Hw Hok Hall m'. subst m'.
  destruct (issue_requests_run cpu requests m w Hw Hok Hall)
    as (ext & w' & Hext & Hp & Hw' & Hrm & Hcl).
  split; [exists ext; split; assumption|]. split; [|split].
  - rewrite !rdt_monitor_get_rmid_eq, Hw', Hw, Hrm. reflexivity.
  - intros c Hlast. rewrite rdt_get_clos_eq, Hw', Hcl, Hlast. simpl. f_equal.
    assert (Hc : 0 <= c < MAX_CLOS).
    { rewrite Forall_forall in Hall. apply Hall.
      apply last_Some_elem_of. exact Hlast. }
    unfold MAX_CLOS in Hc. unfold to_int, u32. rewrite Z.mod_small by lia.
    destruct (Z.ltb_spec c (2 ^ 31)); lia.
  - intros n -> ->. change (switching_loop n) with (switch_from n 0).
    apply switch_from_requests.
Qed.

Lemma demo_assoc_writable : assoc_writable demo.
Proof. intros v. reflexivity. Qed.

Lemma switching_loop_applies_every_request_witness :
  let m' := (issue_requests 1 [3; 7; 2] demo).2 in
  (exists ext, trace m' = trace demo ++ ext /\ passes ext = 3%nat)
  /\ (rdt_monitor_get_rmid 1 0 m').1 = (rdt_monitor_get_rmid 1 0 demo).1
  /\ (rdt_get_clos 1 0 m').1 = (SUCCESS, 2).
Proof.
  destruct (switching_loop_applies_every_request 1 [3; 7; 2] demo 0 0)
    as (Hext & Hrm & Hlast & _).
  - reflexivity.
  - intros v. reflexivity.
  - repeat constructor; unfold MAX_CLOS; lia.
  - split; [exact Hext|]. split; [exact Hrm|]. apply Hlast. reflexivity.
Defined.

(** C5, as stated, fails: the 1000 back-to-back requests of
    [rdt_test_dynamic_switching] reach the hardware as 1000 writes of the
    association word, not fewer. *)
Lemma switching_loop_is_not_rate_limited :
  passes (trace (switching_loop 1000 demo).2) = 1000%nat
  /\ ~ (passes (trace (switching_loop 1000 demo).2) < 1000)%nat.
Proof.
  assert (H : passes (trace (switching_loop 1000 demo).2) = 1000%nat)
    by (vm_compute; reflexivity).
  split; [exact H | rewrite H; lia].
Qed.

(** ** Rates from consecutive samples *)

Lemma sub64_decrease v1 v2 :
  is_u64 v1 -> is_u64 v2 -> v2 < v1 -> sub64 v2 v1 = 2 ^ 64 - (v1 - v2).
Proof.
  unfold is_u64, sub64. intros H1 H2 Hlt.
  rewrite u64_negative by lia. lia.
Qed.

Lemma sub64_distinct t1 t2 : is_u64 t1 -> is_u64 t2 -> t1 <> t2 -> 0 < sub64 t2 t1.
Proof.
  unfold is_u64, sub64, u64. intros H1 H2 Hne.
  destruct (Z.lt_ge_cases t2 t1).
  - rewrite <- (Z.mod_unique (t2 - t1) (2 ^ 64) (-1) (2 ^ 64 + (t2 - t1))); lia.
  - rewrite Z.mod_small; lia.
Qed.

(** C2, as stated, fails: the total counter reads 100 and then 50; the
    monitor prints, for the second round, a total bandwidth of 17592186
    MB/s, the wrapped difference, and flags nothing. *)
Lemma counter_decrease_is_printed_as_rate :
  (rdt_monitor_continuous 10 1000000 two_rounds dropping).1 =
    [ {| ml_elapsed_us := 1000010; ml_rmid := 0; ml_llc_kb := 0;
         ml_mbm_total_mbs := 17592186; ml_mbm_local_mbs := 0 |} ]
  /\ (monitor_rdt_metrics 10 1000000 two_rounds dropping).1 =
       [ {| bl_elapsed_us := 10; bl_llc_kb := 0;
            bl_mbm_total_mbs := 9; bl_mbm_local_mbs := 9 |};
         {| bl_elapsed_us := 1000010; bl_llc_kb := 0;
            bl_mbm_total_mbs := 17592186; bl_mbm_local_mbs := 0 |} ].
Proof. vm_compute. split; reflexivity. Qed.

(** ** The rounds of the two monitors *)

Lemma monitor_loop_cons start_time end_time t_cond t_curr schedule prev_data curr_data m :
  monitor_loop start_time end_time ((t_cond, t_curr) :: schedule) prev_data curr_data m =
    if negb (t_cond <? end_time) then ([], m)
    else
      match monitor_round curr_data t_curr m with
      | (None, m1) => ([], m1)
      | (Some c, m1) =>
          let r := monitor_loop start_time end_time schedule c c m1 in
          (option_list (monitor_rate_line start_time prev_data c) ++ r.1, r.2)
      end.
Proof.
  simpl monitor_loop. destruct (negb (t_cond <? end_time)); [reflexivity|].
  unfold monitor_round, mbind, M_bind.
  destruct (rdt_monitor_read_llc_occupancy 0 (llc_occupancy curr_data) m) as [ro m1].
  destruct (negb (ro.1 =? SUCCESS)); [reflexivity|].
  destruct (rdt_monitor_read_mbm_total 0 (mbm_total curr_data) m1) as [rt m2].
  destruct (negb (rt.1 =? SUCCESS)); [reflexivity|].
  destruct (rdt_monitor_read_mbm_local 0 (mbm_local curr_data) m2) as [rl m3].
  destruct (negb (rl.1 =? SUCCESS)); [reflexivity|].
  unfold mret, M_ret. cbv zeta.
  destruct (monitor_loop start_time end_time schedule _ _ m3) as [lines m4].
  reflexivity.
Qed.

Lemma bench_loop_cons start_time end_time t_cond curr_timestamp schedule
    prev_mbm_total prev_mbm_local prev_timestamp m :
  bench_loop start_time end_time ((t_cond, curr_timestamp) :: schedule)
    prev_mbm_total prev_mbm_local prev_timestamp m =
    if negb (t_cond <? end_time) then ([], m)
    else
      match bench_round m with
      | ((llc_occupancy, mbm_total, mbm_local), m1) =>
          let r := bench_loop start_time end_time schedule mbm_total mbm_local
                     curr_timestamp m1 in
          (option_list (bench_rate_line start_time prev_timestamp prev_mbm_total
                          prev_mbm_local curr_timestamp llc_occupancy mbm_total mbm_local)
             ++ r.1, r.2)
      end.
Proof.
  simpl bench_loop. destruct (negb (t_cond <? end_time)); [reflexivity|].
  unfold bench_round, mbind, M_bind.
  destruct (bench_sample EVT_LLC_OCCUPANCY 0 m) as [ro m1].
  destruct (bench_sample EVT_MBM_TOTAL 0 m1) as [rt m2].
  destruct (bench_sample EVT_MBM_LOCAL 0 m2) as [rl m3].
  unfold mret, M_ret. cbv zeta.
  destruct (bench_loop start_time end_time schedule _ _ _ m3) as [lines m4].
  reflexivity.
Qed.

(** *** The first sample *)

(** Each round of the monitor prints at most one line. *)
Lemma monitor_loop_lines start_time end_time schedule :
  forall prev_data curr_data m,
    (length (monitor_loop start_time end_time schedule prev_data curr_data m).1
     <= length schedule)%nat.
Proof.
  induction schedule as [|[t_cond t_curr] schedule IH]; intros prev_data curr_data m.
  - simpl. lia.
  - rewrite monitor_loop_cons.
    destruct (negb (t_cond <? end_time)); [simpl; lia|].
    destruct (monitor_round curr_data t_curr m) as [[c|] m1]; [|simpl; lia].
    cbv zeta. simpl fst. rewrite length_app.
    specialize (IH c c m1).
    destruct (monitor_rate_line start_time prev_data c); simpl; lia.
Qed.

(** In [rdt_monitor_continuous] the first round prints nothing: with
    [k] rounds in the schedule at most [k - 1] lines come out. *)
Lemma rdt_monitor_continuous_first_round_silent duration_seconds start_time schedule m :
  (length (rdt_monitor_continuous duration_seconds start_time schedule m).1
   <= Nat.pred (length schedule))%nat.
Proof.
  unfold rdt_monitor_continuous.
  destruct schedule as [|[t_cond t_curr] schedule]; [simpl; lia|].
  rewrite monitor_loop_cons.
  destruct (negb (t_cond <? _)); [simpl; lia|].
  destruct (monitor_round monitor_data_zero t_curr m) as [[c|] m1]; [|simpl; lia].
  cbv zeta. simpl fst. simpl length. simpl Nat.pred. apply monitor_loop_lines.
Qed.

(** In [monitor_rdt_metrics] the first round already prints a line, with
    rates computed against the initial zeros. *)
Lemma monitor_rdt_metrics_first_round_prints duration start_time t_cond t_curr schedule m :
  0 < start_time ->
  t_cond < add64 start_time (mul64 (u64 duration) 1000000) ->
  exists line lines,
    (monitor_rdt_metrics duration start_time ((t_cond, t_curr) :: schedule) m).1
    = line :: lines.
Proof.
  intros Hstart Hcond. unfold monitor_rdt_metrics. rewrite bench_loop_cons.
  destruct (Z.ltb_spec t_cond (add64 start_time (mul64 (u64 duration) 1000000))); [|lia].
  simpl negb. cbv iota.
  destruct (bench_round m) as [[[llc total] loc] m1]. cbv zeta. simpl fst.
  unfold bench_rate_line at 1.
  destruct (Z.gtb_spec start_time 0); [|lia].
  simpl option_list. eexists. eexists. reflexivity.
Qed.

(** C4. The first round of [monitor_rdt_metrics], taken 10 microseconds
    after the start with the counters reading 5000, prints total and
    local bandwidths of 476 MB/s, rates against a previous value that was
    never sampled; [rdt_monitor_continuous] prints nothing for the same
    round. *)
Theorem monitor_rdt_metrics_first_sample_rate :
  (monitor_rdt_metrics 10 1000000 [(1000001, 1000010)] demo).1 =
    [ {| bl_elapsed_us := 10; bl_llc_kb := 312;
         bl_mbm_total_mbs := 476; bl_mbm_local_mbs := 476 |} ]
  /\ (monitor_rdt_metrics 10 1000000 [(1000000, 1000000)] demo).1 =
       [ {| bl_elapsed_us := 0; bl_llc_kb := 312;
            bl_mbm_total_mbs := 0; bl_mbm_local_mbs := 0 |} ]
  /\ (rdt_monitor_continuous 10 1000000 [(1000001, 1000010)] demo).1 = [].
Proof. vm_compute. repeat split. Qed.

(** ** A counter that goes down *)

Lemma msr_read_cpu_u64 cpu msr old m :
  (msr_read_cpu cpu msr old m).1.1 = SUCCESS -> is_u64 (msr_read_cpu cpu msr old m).1.2.
Proof.
  rewrite msr_read_cpu_eq.
  destruct (read_step m cpu msr) as [[v m1]|] eqn:Hstep; simpl.
  - intros _. exact (read_step_u64 _ _ _ _ _ Hstep).
  - discriminate.
Qed.

Ltac read_u64 :=
  unfold mbind, M_bind;
  let r := fresh "r" in
  let m0 := fresh "m" in
  match goal with
  | |- context [msr_write_cpu ?c ?reg ?v ?m] =>
      destruct (msr_write_cpu c reg v m) as [r m0]
  end;
  destruct (negb (r =? SUCCESS)); [simpl; discriminate|];
  let Hu := fresh "Hu" in
  let rr := fresh "rr" in
  let value := fresh "value" in
  let m1 := fresh "m" in
  let Hrr := fresh "Hrr" in
  match goal with
  | |- context [msr_read_cpu ?c ?reg ?v ?m] =>
      pose proof (msr_read_cpu_u64 c reg v m) as Hu;
      destruct (msr_read_cpu c reg v m) as [[rr value] m1]
  end;
  cbn [fst snd] in *;
  destruct (Z.eqb_spec rr SUCCESS) as [Hrr|Hrr]; simpl; [|discriminate];
  intros _; exact (Hu Hrr).

Lemma rdt_monitor_read_mbm_total_u64 id old m :
  (rdt_monitor_read_mbm_total id old m).1.1 = SUCCESS ->
  is_u64 (rdt_monitor_read_mbm_total id old m).1.2.
Proof. unfold rdt_monitor_read_mbm_total. read_u64. Qed.

Lemma rdt_monitor_read_mbm_local_u64 id old m :
  (rdt_monitor_read_mbm_local id old m).1.1 = SUCCESS ->
  is_u64 (rdt_monitor_read_mbm_local id old m).1.2.
Proof. unfold rdt_monitor_read_mbm_local. read_u64. Qed.

(** What a round of the monitor that went through stores. *)
Lemma monitor_round_sample curr_data t_curr m c m1 :
  monitor_round curr_data t_curr m = (Some c, m1) ->
  timestamp c = t_curr /\ is_u64 (mbm_total c) /\ is_u64 (mbm_local c).
Proof.
  unfold monitor_round, mbind, M_bind.
  destruct (rdt_monitor_read_llc_occupancy 0 (llc_occupancy curr_data) m) as [ro m2].
  destruct (negb (ro.1 =? SUCCESS)); [intros H; inversion H|]. cbv beta.
  pose proof (rdt_monitor_read_mbm_total_u64 0 (mbm_total curr_data) m2) as Ht.
  destruct (rdt_monitor_read_mbm_total 0 (mbm_total curr_data) m2) as [rt m3].
  destruct (Z.eqb_spec rt.1 SUCCESS) as [Hrt|Hrt]; cbn [negb]; cbv beta iota;
    [|intros H; inversion H].
  pose proof (rdt_monitor_read_mbm_local_u64 0 (mbm_local curr_data) m3) as Hl.
  destruct (rdt_monitor_read_mbm_local 0 (mbm_local curr_data) m3) as [rl m4].
  destruct (Z.eqb_spec rl.1 SUCCESS) as [Hrl|Hrl]; cbn [negb]; cbv beta iota;
    [|intros H; inversion H].
  intros H. inversion H. subst. simpl. auto.
Qed.

Lemma bench_sample_u64 ev m : is_u64 (bench_sample ev 0 m).1.2.
Proof.
  assert (H0 : is_u64 0) by (unfold is_u64; lia).
  unfold bench_sample, mbind, M_bind.
  destruct (msr_write_cpu 0 MSR_IA32_QM_EVTSEL _ m) as [r m1].
  destruct (r =? SUCCESS); [|exact H0].
  rewrite msr_read_cpu_eq.
  destruct (read_step m1 0 MSR_IA32_QM_CTR) as [[v m2]|] eqn:Hstep; simpl;
    [exact (read_step_u64 _ _ _ _ _ Hstep) | exact H0].
Qed.

(** The byte counters a round of the benchmark's monitor stores. *)
Lemma bench_round_sample m llc total loc m1 :
  bench_round m = ((llc, total, loc), m1) -> is_u64 total /\ is_u64 loc.
Proof.
  unfold bench_round, mbind, M_bind.
  destruct (bench_sample EVT_LLC_OCCUPANCY 0 m) as [ro m2].
  pose proof (bench_sample_u64 EVT_MBM_TOTAL m2) as Ht.
  destruct (bench_sample EVT_MBM_TOTAL 0 m2) as [rt m3].
  pose proof (bench_sample_u64 EVT_MBM_LOCAL m3) as Hl.
  destruct (bench_sample EVT_MBM_LOCAL 0 m3) as [rl m4].
  intros H. inversion H. subst. auto.
Qed.

Lemma wrapped_mbs_eq v1 v2 dt :
  is_u64 v1 -> is_u64 v2 -> v2 < v1 ->
  mul64 (sub64 v2 v1) 1000000 / dt / (1024 * 1024) = wrapped_mbs v1 v2 dt.
Proof.
  intros H1 H2 Hlt. rewrite (sub64_decrease _ _ H1 H2 Hlt). reflexivity.
Qed.

(** A round of [rdt_monitor_continuous] that follows a sample. *)
Lemma monitor_loop_wrapped start_time end_time t_cond t_curr schedule
    prev_data curr_data m c m1 :
  t_cond < end_time -> is_u64 t_curr ->
  monitor_round curr_data t_curr m = (Some c, m1) ->
  is_u64 (timestamp prev_data) -> 0 < timestamp prev_data ->
  timestamp prev_data <> t_curr ->
  exists line,
    (monitor_loop start_time end_time ((t_cond, t_curr) :: schedule)
       prev_data curr_data m).1
    = line :: (monitor_loop start_time end_time schedule c c m1).1
    /\ (is_u64 (mbm_total prev_data) -> mbm_total c < mbm_total prev_data ->
        ml_mbm_total_mbs line
        = wrapped_mbs (mbm_total prev_data) (mbm_total c)
            (sub64 t_curr (timestamp prev_data)))
    /\ (is_u64 (mbm_local prev_data) -> mbm_local c < mbm_local prev_data ->
        ml_mbm_local_mbs line
        = wrapped_mbs (mbm_local prev_data) (mbm_local c)
            (sub64 t_curr (timestamp prev_data))).
Proof.
  intros Hcond Hcurr Hround Hprev Hpos Hne.
  destruct (monitor_round_sample _ _ _ _ _ Hround) as (Hts & Htot & Hloc).
  rewrite monitor_loop_cons, Hround.
  destruct (Z.ltb_spec t_cond end_time); [|lia]. simpl negb. cbv iota zeta. cbn [fst].
  unfold monitor_rate_line. rewrite Hts.
  destruct (Z.gtb_spec (timestamp prev_data) 0); [|lia].
  pose proof (sub64_distinct _ _ Hprev Hcurr Hne) as Hdt.
  destruct (Z.gtb_spec (sub64 t_curr (timestamp prev_data)) 0); [|lia].
  eexists. split; [reflexivity|]. split; intros Hu Hlt; simpl.
  - apply wrapped_mbs_eq; assumption.
  - apply wrapped_mbs_eq; assumption.
Qed.

(** A round of [monitor_rdt_metrics] that follows a sample. *)
Lemma bench_loop_wrapped start_time end_time t_cond t_curr schedule
    prev_mbm_total prev_mbm_local prev_timestamp m llc total loc m1 :
  t_cond < end_time -> is_u64 t_curr ->
  bench_round m = ((llc, total, loc), m1) ->
  is_u64 prev_timestamp -> 0 < prev_timestamp -> prev_timestamp <> t_curr ->
  exists line,
    (bench_loop start_time end_time ((t_cond, t_curr) :: schedule)
       prev_mbm_total prev_mbm_local prev_timestamp m).1
    = line :: (bench_loop start_time end_time schedule total loc t_curr m1).1
    /\ (is_u64 prev_mbm_total -> total < prev_mbm_total ->
        bl_mbm_total_mbs line
        = wrapped_mbs prev_mbm_total total (sub64 t_curr prev_timestamp))
    /\ (is_u64 prev_mbm_local -> loc < prev_mbm_local ->
        bl_mbm_local_mbs line
        = wrapped_mbs prev_mbm_local loc (sub64 t_curr prev_timestamp)).
Proof.
  intros Hcond Hcurr Hround Hprev Hpos Hne.
  destruct (bench_round_sample _ _ _ _ _ Hround) as (Htot & Hloc).
  rewrite bench_loop_cons, Hround.
  destruct (Z.ltb_spec t_cond end_time); [|lia]. simpl negb. cbv iota zeta. cbn [fst].
  unfold bench_rate_line.
  destruct (Z.gtb_spec prev_timestamp 0); [|lia].
  pose proof (sub64_distinct _ _ Hprev Hcurr Hne) as Hdt.
  destruct (Z.gtb_spec (sub64 t_curr prev_timestamp) 0); [|lia].
  eexists. split; [reflexivity|]. split; intros Hu Hlt; simpl.
  - apply wrapped_mbs_eq; assumption.
  - apply wrapped_mbs_eq; assumption.
Qed.

(** C2, as the code has it.  Neither monitor looks at whether a raw
    value went down.  In any round of either loop that follows a sample
    taken at another, non-zero time, the line is printed, and a byte
    counter, total or local, that reads below its previous value is
    turned into a rate like any other: the difference wraps to
    [2^64 - (v1 - v2)], is multiplied by a million modulo [2^64] and
    divided by the elapsed time.  The first two parts say so for the
    loops of [rdt_monitor_continuous] and [monitor_rdt_metrics] in any
    state; the last two for the second round of the two monitors run
    from their start. *)
Theorem decreasing_counter_gives_wrapped_rate
    (start_time end_time t_cond t_curr : Z) (schedule : list (Z * Z)) (m : machine) :
  t_cond < end_time -> is_u64 t_curr ->
  (forall prev_data curr_data c m1,
     monitor_round curr_data t_curr m = (Some c, m1) ->
     is_u64 (timestamp prev_data) -> 0 < timestamp prev_data ->
     timestamp prev_data <> t_curr ->
     exists line,
       (monitor_loop start_time end_time ((t_cond, t_curr) :: schedule)
          prev_data curr_data m).1
       = line :: (monitor_loop start_time end_time schedule c c m1).1
       /\ (is_u64 (mbm_total prev_data) -> mbm_total c < mbm_total prev_data ->
           ml_mbm_total_mbs line
           = wrapped_mbs (mbm_total prev_data) (mbm_total c)
               (sub64 t_curr (timestamp prev_data)))
       /\ (is_u64 (mbm_local prev_data) -> mbm_local c < mbm_local prev_data ->
           ml_mbm_local_mbs line
           = wrapped_mbs (mbm_local prev_data) (mbm_local c)
               (sub64 t_curr (timestamp prev_data))))
  /\ (forall prev_mbm_total prev_mbm_local prev_timestamp llc total loc m1,
        bench_round m = ((llc, total, loc), m1) ->
        is_u64 prev_timestamp -> 0 < prev_timestamp -> prev_timestamp <> t_curr ->
        exists line,
          (bench_loop start_time end_time ((t_cond, t_curr) :: schedule)
             prev_mbm_total prev_mbm_local prev_timestamp m).1
          = line :: (bench_loop start_time end_time schedule total loc t_curr m1).1
          /\ (is_u64 prev_mbm_total -> total < prev_mbm_total ->
              bl_mbm_total_mbs line
              = wrapped_mbs prev_mbm_total total (sub64 t_curr prev_timestamp))
          /\ (is_u64 prev_mbm_local -> loc < prev_mbm_local ->
              bl_mbm_local_mbs line
              = wrapped_mbs prev_mbm_local loc (sub64 t_curr prev_timestamp)))
  /\ (forall duration_seconds t_cond0 t_prev m0 c0 c m1,
        end_time = add64 start_time (mul64 (u64 duration_seconds) 1000000) ->
        t_cond0 < end_time -> is_u64 t_prev -> 0 < t_prev -> t_prev <> t_curr ->
        monitor_round monitor_data_zero t_prev m0 = (Some c0, m) ->
        monitor_round c0 t_curr m = (Some c, m1) ->
        exists line lines,
          (rdt_monitor_continuous duration_seconds start_time
             ((t_cond0, t_prev) :: (t_cond, t_curr) :: schedule) m0).1
          = line :: lines
          /\ (mbm_total c < mbm_total c0 ->
              ml_mbm_total_mbs line
              = wrapped_mbs (mbm_total c0) (mbm_total c) (sub64 t_curr t_prev))
          /\ (mbm_local c < mbm_local c0 ->
              ml_mbm_local_mbs line
              = wrapped_mbs (mbm_local c0) (mbm_local c) (sub64 t_curr t_prev)))
  /\ (forall duration t_cond0 t_prev m0 llc0 total0 loc0 llc total loc m1,
        end_time = add64 start_time (mul64 (u64 duration) 1000000) ->
        t_cond0 < end_time -> 0 < start_time ->
        is_u64 t_prev -> 0 < t_prev -> t_prev <> t_curr ->
        bench_round m0 = ((llc0, total0, loc0), m) ->
        bench_round m = ((llc, total, loc), m1) ->
        exists first line lines,
          (monitor_rdt_metrics duration start_time
             ((t_cond0, t_prev) :: (t_cond, t_curr) :: schedule) m0).1
          = first :: line :: lines
          /\ (total < total0 ->
              bl_mbm_total_mbs line = wrapped_mbs total0 total (sub64 t_curr t_prev))
          /\ (loc < loc0 ->
              bl_mbm_local_mbs line = wrapped_mbs loc0 loc (sub64 t_curr t_prev))).
Proof.
  intros Hcond Hcurr. split; [|split; [|split]].
  - intros prev_data curr_data c m1 Hround Hprev Hpos Hne.
    exact (monitor_loop_wrapped start_time end_time t_cond t_curr schedule
             prev_data curr_data m c m1 Hcond Hcurr Hround Hprev Hpos Hne).
  - intros prev_mbm_total prev_mbm_local prev_timestamp llc total loc m1
      Hround Hprev Hpos Hne.
    exact (bench_loop_wrapped start_time end_time t_cond t_curr schedule
             prev_mbm_total prev_mbm_local prev_timestamp m llc total loc m1
             Hcond Hcurr Hround Hprev Hpos Hne).
  - intros duration_seconds t_cond0 t_prev m0 c0 c m1 Hend Hcond0 Hprev Hpos Hne
      Hround0 Hround.
    destruct (monitor_round_sample _ _ _ _ _ Hround0) as (Hts0 & Htot0 & Hloc0).
    destruct (monitor_loop_wrapped start_time end_time t_cond t_curr schedule
                c0 c0 m c m1 Hcond Hcurr Hround)
      as (line & Hline & Htot & Hloc); rewrite ?Hts0; try assumption.
    rewrite Hts0 in Htot, Hloc.
    unfold rdt_monitor_continuous. rewrite <- Hend, monitor_loop_cons, Hround0.
    destruct (Z.ltb_spec t_cond0 end_time); [|lia]. simpl negb. cbv iota zeta. cbn [fst].
    rewrite Hline. simpl.
    exists line. eexists. split; [reflexivity|]. split.
    + intros Hlt. apply Htot; assumption.
    + intros Hlt. apply Hloc; assumption.
  - intros duration t_cond0 t_prev m0 llc0 total0 loc0 llc total loc m1
      Hend Hcond0 Hstart Hprev Hpos Hne Hround0 Hround.
    destruct (bench_round_sample _ _ _ _ _ Hround0) as (Htot0 & Hloc0).
    destruct (bench_loop_wrapped start_time end_time t_cond t_curr schedule
                total0 loc0 t_prev m llc total loc m1 Hcond Hcurr Hround Hprev Hpos Hne)
      as (line & Hline & Htot & Hloc).
    unfold monitor_rdt_metrics. rewrite <- Hend, bench_loop_cons, Hround0.
    destruct (Z.ltb_spec t_cond0 end_time); [|lia]. simpl negb. cbv iota zeta. cbn [fst].
    rewrite Hline. unfold bench_rate_line at 1.
    destruct (Z.gtb_spec start_time 0); [|lia]. simpl.
    eexists. exists line. eexists. split; [reflexivity|]. split.
    + intros Hlt. apply Htot; assumption.
    + intros Hlt. apply Hloc; assumption.
Qed.

Lemma decreasing_counter_gives_wrapped_rate_witness :
  (exists line lines,
     (rdt_monitor_continuous 10 1000000 two_rounds both_dropping).1 = line :: lines
     /\ ml_mbm_total_mbs line = wrapped_mbs 100 50 (sub64 2000010 1000010)
     /\ ml_mbm_local_mbs line = wrapped_mbs 100 40 (sub64 2000010 1000010))
  /\ (exists first line lines,
        (monitor_rdt_metrics 10 1000000 two_rounds both_dropping).1
        = first :: line :: lines
        /\ bl_mbm_total_mbs line = wrapped_mbs 100 50 (sub64 2000010 1000010)
        /\ bl_mbm_local_mbs line = wrapped_mbs 100 40 (sub64 2000010 1000010)).
Proof.
  assert (Hend : 11000000 = add64 1000000 (mul64 (u64 10) 1000000))
    by (vm_compute; reflexivity).
  assert (Hcurr : is_u64 2000010) by (unfold is_u64; lia).
  assert (Hprev : is_u64 1000010) by (unfold is_u64; lia).
  split.
  - pose (c0 := {| rmid := 0; llc_occupancy := 640; mbm_total := 100;
                   mbm_local := 100; timestamp := 1000010 |}).
    pose (c := {| rmid := 0; llc_occupancy := 640; mbm_total := 50;
                  mbm_local := 40; timestamp := 2000010 |}).
    pose (m := (monitor_round monitor_data_zero 1000010 both_dropping).2).
    pose (m1 := (monitor_round c0 2000010 m).2).
    assert (Hround0 : monitor_round monitor_data_zero 1000010 both_dropping = (Some c0, m))
      by (vm_compute; reflexivity).
    assert (Hround : monitor_round c0 2000010 m = (Some c, m1))
      by (vm_compute; reflexivity).
    destruct (decreasing_counter_gives_wrapped_rate 1000000 11000000 2000001 2000010
                [] m ltac:(lia) Hcurr) as (_ & _ & Hmon & _).
    destruct (Hmon 10 1000001 1000010 both_dropping c0 c m1
                Hend ltac:(lia) Hprev ltac:(lia) ltac:(lia) Hround0 Hround)
      as (line & lines & Hout & Htot & Hloc).
    exists line, lines. split; [exact Hout|]. split.
    + apply Htot. simpl. lia.
    + apply Hloc. simpl. lia.
  - pose (m := (bench_round both_dropping).2).
    pose (m1 := (bench_round m).2).
    assert (Hround0 : bench_round both_dropping = ((640, 100, 100), m))
      by (vm_compute; reflexivity).
    assert (Hround : bench_round m = ((640, 50, 40), m1))
      by (vm_compute; reflexivity).
    destruct (decreasing_counter_gives_wrapped_rate 1000000 11000000 2000001 2000010
                [] m ltac:(lia) Hcurr) as (_ & _ & _ & Hbench).
    destruct (Hbench 10 1000001 1000010 both_dropping 640 100 100 640 50 40 m1
                Hend ltac:(lia) ltac:(lia) Hprev ltac:(lia) ltac:(lia) Hround0 Hround)
      as (first & line & lines & Hout & Htot & Hloc).
    exists first, line, lines. split; [exact Hout|]. split.
    + apply Htot. lia.
    + apply Hloc. lia.
Defined.

(** ** Multiplexing the shared counter *)

Lemma multiplexed_app t1 t2 : multiplexed t1 -> multiplexed t2 -> multiplexed (t1 ++ t2).
Proof.
  induction 1 as [|id ev s rest Hs Hrest IH]; intros H2; [exact H2|].
  rewrite <- app_assoc. econstructor; eauto.
Qed.

Lemma multiplexed_one id ev s : sample_seq id ev s -> multiplexed s.
Proof.
  intros Hs. rewrite <- (app_nil_r s). econstructor; [exact Hs | constructor].
Qed.

Lemma multiplexed_reads_follow_selects t : multiplexed t -> reads_follow_selects t.
Proof.
  induction 1 as [|id ev s rest Hs Hrest IH]; intros i cpu msr res Hi.
  - rewrite lookup_nil in Hi. discriminate.
  - destruct Hs as [r Hr|r].
    + destruct i as [|i]; [discriminate|]. simpl in Hi.
      destruct (IH i cpu msr res Hi) as (Hc & Hm & j & id' & ev' & -> & Hj).
      split; [exact Hc|]. split; [exact Hm|]. exists (S j), id', ev'. auto.
    + destruct i as [|[|i]]; [discriminate| |].
      * simpl in Hi. inversion Hi; subst.
        split; [reflexivity|]. split; [reflexivity|]. exists 0%nat, id, ev. auto.
      * simpl in Hi.
        destruct (IH i cpu msr res Hi) as (Hc & Hm & j & id' & ev' & -> & Hj).
        split; [exact Hc|]. split; [exact Hm|]. exists (S (S j)), id', ev'. auto.
Qed.

Lemma reads_follow_selects_separated t : reads_follow_selects t -> reads_are_separated t.
Proof.
  intros Hf i j cpu msr res cpu' msr' res' Hij Hi Hj.
  destruct (Hf j cpu' msr' res' Hj) as (_ & _ & k & id & ev & -> & Hk).
  exists k, id, ev. split; [|exact Hk].
  assert (i <> k) by (intros ->; rewrite Hk in Hi; discriminate). lia.
Qed.

(** The accesses of a select followed, if it went through, by a read. *)
Lemma select_then_read_trace id ev m :
  let sel := evtsel_of id ev in
  (write_ok m 0 MSR_IA32_QM_EVTSEL sel = false ->
     msr_write_cpu 0 MSR_IA32_QM_EVTSEL sel m =
       (ERROR_SYSTEM, logged m (Wr 0 MSR_IA32_QM_EVTSEL sel ERROR_SYSTEM)))
  /\ (write_ok m 0 MSR_IA32_QM_EVTSEL sel = true ->
        forall old, exists res,
          msr_write_cpu 0 MSR_IA32_QM_EVTSEL sel m =
            (SUCCESS, written m 0 MSR_IA32_QM_EVTSEL sel)
          /\ trace (msr_read_cpu 0 MSR_IA32_QM_CTR old
                      (written m 0 MSR_IA32_QM_EVTSEL sel)).2
             = trace m ++ [Wr 0 MSR_IA32_QM_EVTSEL sel SUCCESS;
                           Rd 0 MSR_IA32_QM_CTR res]).
Proof.
  intros sel. split; intros Hok.
  - rewrite msr_write_cpu_eq, Hok. reflexivity.
  - intros old. rewrite msr_write_cpu_eq, Hok, msr_read_cpu_eq.
    destruct (read_step (written m 0 MSR_IA32_QM_EVTSEL sel) 0 MSR_IA32_QM_CTR)
      as [[v m1]|] eqn:Hstep.
    + exists SUCCESS. split; [reflexivity|].
      destruct (read_step_frame _ _ _ _ _ Hstep) as (_ & _ & _ & _ & Htr & _).
      simpl. rewrite Htr. simpl. rewrite <- app_assoc. reflexivity.
    + exists ERROR_SYSTEM. split; [reflexivity|].
      simpl. rewrite <- app_assoc. reflexivity.
Qed.

Ltac sample_cases id ev m old :=
  destruct (select_then_read_trace id ev m) as (Hfail & Hgood);
  cbv zeta in Hfail, Hgood;
  destruct (write_ok m 0 MSR_IA32_QM_EVTSEL (evtsel_of id ev)) eqn:Hok;
  [ destruct (Hgood eq_refl old) as (res & Hw & Htr); rewrite Hw;
    change (SUCCESS =? SUCCESS) with true; cbv [negb]; cbv iota;
    destruct (msr_read_cpu 0 MSR_IA32_QM_CTR old
                (written m 0 MSR_IA32_QM_EVTSEL (evtsel_of id ev))) as [rv m1];
    simpl in Htr;
    exists [Wr 0 MSR_IA32_QM_EVTSEL (evtsel_of id ev) SUCCESS;
            Rd 0 MSR_IA32_QM_CTR res];
    split; [|constructor]
  | rewrite (Hfail eq_refl); simpl;
    exists [Wr 0 MSR_IA32_QM_EVTSEL (evtsel_of id ev) ERROR_SYSTEM];
    split; [reflexivity | constructor; discriminate] ].

Lemma rdt_monitor_read_llc_occupancy_sampled id old :
  sampled id EVT_LLC_OCCUPANCY (rdt_monitor_read_llc_occupancy id old).
Proof.
  intros m. unfold rdt_monitor_read_llc_occupancy, mbind, M_bind.
  sample_cases id EVT_LLC_OCCUPANCY m old.
  destruct (rv.1 =? SUCCESS); exact Htr.
Qed.

Lemma rdt_monitor_read_mbm_total_sampled id old :
  sampled id EVT_MBM_TOTAL (rdt_monitor_read_mbm_total id old).
Proof.
  intros m. unfold rdt_monitor_read_mbm_total, mbind, M_bind.
  sample_cases id EVT_MBM_TOTAL m old.
  destruct (rv.1 =? SUCCESS); exact Htr.
Qed.

Lemma rdt_monitor_read_mbm_local_sampled id old :
  sampled id EVT_MBM_LOCAL (rdt_monitor_read_mbm_local id old).
Proof.
  intros m. unfold rdt_monitor_read_mbm_local, mbind, M_bind.
  sample_cases id EVT_MBM_LOCAL m old.
  destruct (rv.1 =? SUCCESS); exact Htr.
Qed.

Lemma bench_sample_sampled ev old : sampled 0 ev (bench_sample ev old).
Proof.
  intros m. unfold bench_sample, mbind, M_bind.
  change (Z.lor 0 (shl64 ev 32)) with (evtsel_of 0 ev).
  sample_cases 0 ev m old.
  exact Htr.
Qed.

Lemma muxed_ret {A : Type} (a : A) : muxed (mret a).
Proof. intros m. exists []. split; [symmetry; apply app_nil_r | constructor]. Qed.

Lemma muxed_bind {A B : Type} (c : M A) (k : A -> M B) :
  muxed c -> (forall a, muxed (k a)) -> muxed (c ≫= k).
Proof.
  intros Hc Hk m. unfold mbind, M_bind.
  destruct (Hc m) as (e1 & Ht1 & Hm1).
  destruct (c m) as [a m1]. simpl in Ht1.
  destruct (Hk a m1) as (e2 & Ht2 & Hm2).
  exists (e1 ++ e2). split; [|apply multiplexed_app; assumption].
  rewrite Ht2, Ht1, app_assoc. reflexivity.
Qed.

Lemma sampled_muxed {A : Type} id ev (c : M A) : sampled id ev c -> muxed c.
Proof.
  intros Hs m. destruct (Hs m) as (ext & Ht & Hseq).
  exists ext. split; [exact Ht | exact (multiplexed_one _ _ _ Hseq)].
Qed.

Lemma monitor_loop_muxed start_time end_time schedule :
  forall prev_data curr_data,
    muxed (monitor_loop start_time end_time schedule prev_data curr_data).
Proof.
  induction schedule as [|[t_cond t_curr] schedule IH]; intros prev_data curr_data;
    simpl monitor_loop; [apply muxed_ret|].
  destruct (negb (t_cond <? end_time)); [apply muxed_ret|].
  apply muxed_bind;
    [exact (sampled_muxed _ _ _ (rdt_monitor_read_llc_occupancy_sampled 0 _))|].
  intros ro. destruct (negb (ro.1 =? SUCCESS)); [apply muxed_ret|].
  apply muxed_bind;
    [exact (sampled_muxed _ _ _ (rdt_monitor_read_mbm_total_sampled 0 _))|].
  intros rt. destruct (negb (rt.1 =? SUCCESS)); [apply muxed_ret|].
  apply muxed_bind;
    [exact (sampled_muxed _ _ _ (rdt_monitor_read_mbm_local_sampled 0 _))|].
  intros rl. destruct (negb (rl.1 =? SUCCESS)); [apply muxed_ret|].
  cbv zeta. apply muxed_bind; [apply IH|]. intros lines. apply muxed_ret.
Qed.

Lemma bench_loop_muxed start_time end_time schedule :
  forall prev_mbm_total prev_mbm_local prev_timestamp,
    muxed (bench_loop start_time end_time schedule prev_mbm_total prev_mbm_local
             prev_timestamp).
Proof.
  induction schedule as [|[t_cond t_curr] schedule IH]; intros pt pl pts;
    simpl bench_loop; [apply muxed_ret|].
  destruct (negb (t_cond <? end_time)); [apply muxed_ret|].
  apply muxed_bind; [exact (sampled_muxed _ _ _ (bench_sample_sampled _ _))|]. intros ro.
  apply muxed_bind; [exact (sampled_muxed _ _ _ (bench_sample_sampled _ _))|]. intros rt.
  apply muxed_bind; [exact (sampled_muxed _ _ _ (bench_sample_sampled _ _))|]. intros rl.
  cbv zeta. apply muxed_bind; [apply IH|]. intros lines. apply muxed_ret.
Qed.

Lemma muxed_select_then_read {A : Type} (c : M A) : muxed c -> select_then_read c.
Proof.
  intros Hc m. destruct (Hc m) as (ext & Ht & Hm).
  exists ext. split; [exact Ht|]. split; [exact Hm|].
  pose proof (multiplexed_reads_follow_selects ext Hm) as Hf.
  split; [exact Hf | exact (reads_follow_selects_separated ext Hf)].
Qed.

(** C8. Each of the three read functions of the monitor writes the
    selector of its own (identifier, event) pair to the event-select
    register and only then, if the select went through, reads the
    counter.  A run of either monitor loop is a sequence of such whole
    samples: each counter read comes right after a select that went
    through, and between any two counter reads lies a select, so no two
    samples share a position in the order of accesses. *)
Theorem counter_reads_follow_their_select :
  (forall id old, sampled id EVT_LLC_OCCUPANCY (rdt_monitor_read_llc_occupancy id old))
  /\ (forall id old, sampled id EVT_MBM_TOTAL (rdt_monitor_read_mbm_total id old))
  /\ (forall id old, sampled id EVT_MBM_LOCAL (rdt_monitor_read_mbm_local id old))
  /\ (forall ev old, sampled 0 ev (bench_sample ev old))
  /\ (forall duration_seconds start_time schedule,
        select_then_read (rdt_monitor_continuous duration_seconds start_time schedule))
  /\ (forall duration start_time schedule,
        select_then_read (monitor_rdt_metrics duration start_time schedule)).
Proof.
  split; [exact rdt_monitor_read_llc_occupancy_sampled|].
  split; [exact rdt_monitor_read_mbm_total_sampled|].
  split; [exact rdt_monitor_read_mbm_local_sampled|].
  split; [exact bench_sample_sampled|].
  split; intros d s sched; apply muxed_select_then_read.
  - apply monitor_loop_muxed.
  - apply bench_loop_muxed.
Qed.

(** One round of the monitor on the example machine: select, read,
    select, read, select, read. *)
Example monitor_round_trace :
  trace (rdt_monitor_continuous 10 1000000 [(1000001, 1000010)] demo).2 =
    [ Wr 0 MSR_IA32_QM_EVTSEL (evtsel_of 0 EVT_LLC_OCCUPANCY) SUCCESS;
      Rd 0 MSR_IA32_QM_CTR SUCCESS;
      Wr 0 MSR_IA32_QM_EVTSEL (evtsel_of 0 EVT_MBM_TOTAL) SUCCESS;
      Rd 0 MSR_IA32_QM_CTR SUCCESS;
      Wr 0 MSR_IA32_QM_EVTSEL (evtsel_of 0 EVT_MBM_LOCAL) SUCCESS;
      Rd 0 MSR_IA32_QM_CTR SUCCESS ].
Proof. vm_compute. reflexivity. Qed.

(** * Further properties *)

(** ** Algebra of the field helpers *)

Lemma msr_set_field_is_u64 v s n f : is_u64 v -> is_u64 (msr_set_field v s n f).
Proof.
  intros Hv. unfold msr_set_field.
  apply lor_is_u64; [|apply u64_range].
  apply land_is_u64; [exact Hv|]. apply u64_range.
Qed.

(** X1. For start bits below 64, where the shifts of the C functions
    are defined, the field setter behaves like an assignment to a slot
    of the word: writing back what the field holds changes nothing, a
    second write to the same field replaces the first, and writes to two
    fields that do not overlap can be done in either order. *)
Theorem msr_set_field_laws (v s n f g s' n' : Z) :
  is_u64 v -> 0 <= s < 64 -> 0 <= n <= 63 ->
  msr_set_field v s n (msr_get_field v s n) = v
  /\ msr_set_field (msr_set_field v s n f) s n g = msr_set_field v s n g
  /\ (0 <= n' <= 63 -> s + n <= s' -> s' < 64 ->
      msr_set_field (msr_set_field v s n f) s' n' g
      = msr_set_field (msr_set_field v s' n' g) s n f).
Proof.
  intros Hv Hs Hn. split; [|split].
  - apply Z.bits_inj'. intros i Hi.
    rewrite msr_set_field_testbit, msr_get_field_testbit by (try assumption; lia).
    replace (i - s + s) with i by lia.
    cmp_cases; try lia; reflexivity.
  - apply Z.bits_inj'. intros i Hi.
    rewrite !msr_set_field_testbit
      by (try apply msr_set_field_is_u64; try assumption; lia).
    destruct ((s <=? i) && (i <? s + n) && (i <? 64)); reflexivity.
  - intros Hn' Hdisj Hs'. apply Z.bits_inj'. intros i Hi.
    rewrite !msr_set_field_testbit
      by (try apply msr_set_field_is_u64; try assumption; lia).
    cmp_cases; try lia; reflexivity.
Qed.

Lemma msr_set_field_laws_witness :
  msr_set_field 0xFFFF 4 8 (msr_get_field 0xFFFF 4 8) = 0xFFFF
  /\ msr_set_field (msr_set_field 0xFFFF 4 8 0xAB) 4 8 0xCD = msr_set_field 0xFFFF 4 8 0xCD
  /\ msr_set_field (msr_set_field 0xFFFF 4 8 0xAB) 32 4 0xCD
     = msr_set_field (msr_set_field 0xFFFF 32 4 0xCD) 4 8 0xAB.
Proof.
  destruct (msr_set_field_laws 0xFFFF 4 8 0xAB 0xCD 32 4) as (H1 & H2 & H3);
    [unfold is_u64; lia | lia | lia |].
  split; [exact H1|]. split; [exact H2|]. apply H3; lia.
Defined.

(** X2. A field read is below [2^n].  A field that fits in the word
    ([s + n <= 64], the top bit included) reads back as written modulo
    [2^n]; a field that reaches past bit 63 loses its upper part: only
    the [64 - s] bits that fit are stored. *)
Theorem msr_field_at_the_top (v f s n : Z) :
  is_u64 v -> 0 <= s < 64 -> 0 <= n <= 63 ->
  0 <= msr_get_field v s n < 2 ^ n
  /\ msr_get_field (msr_set_field v s n f) s n = f mod 2 ^ Z.min n (64 - s).
Proof.
  intros Hv Hs Hn. split.
  - unfold msr_get_field. rewrite (field_mask_ones n Hn), Z.land_ones by lia.
    apply Z.mod_pos_bound. apply Z.pow_pos_nonneg; lia.
  - apply Z.bits_inj'. intros i Hi.
    rewrite msr_get_field_testbit by lia.
    rewrite msr_set_field_testbit by (try assumption; lia).
    replace (i + s - s) with i by lia.
    destruct (Z.ltb_spec i (Z.min n (64 - s))) as [Hlt|Hge].
    + rewrite Z.mod_pow2_bits_low by lia.
      cmp_cases; try lia; reflexivity.
    + rewrite Z.mod_pow2_bits_high by lia.
      pose proof (is_u64_testbit_high v (i + s) Hv) as Hhigh.
      cmp_cases; try lia; rewrite ?Hhigh by lia; reflexivity.
Qed.

Lemma msr_field_at_the_top_witness :
  0 <= msr_get_field 0xFFFF 60 8 < 2 ^ 8
  /\ msr_get_field (msr_set_field 0xFFFF 60 8 0xAB) 60 8 = 0xAB mod 2 ^ Z.min 8 (64 - 60).
Proof.
  apply (msr_field_at_the_top 0xFFFF 0xAB 60 8); unfold is_u64; lia.
Defined.

(** ** The register access layer *)

Lemma reg_read_logged m a cpu msr : reg_read (logged m a) cpu msr = reg_read m cpu msr.
Proof. reflexivity. Qed.

Lemma read_step_reg m cpu msr :
  msr <> MSR_IA32_QM_CTR ->
  read_step m cpu msr = (fun v => (v, m)) <$> reg_read m cpu msr.
Proof.
  intros Hne. rewrite (read_step_plain _ _ _ Hne). unfold reg_read, dev_ok.
  destruct (bool_decide (cpu ∈ devs m) && (0 <=? cpu)); [|reflexivity].
  destruct (regs m !! (cpu, msr)); reflexivity.
Qed.

Lemma msr_read_cpu_reg cpu msr old m :
  msr <> MSR_IA32_QM_CTR ->
  msr_read_cpu cpu msr old m =
    match reg_read m cpu msr with
    | Some v => ((SUCCESS, v), logged m (Rd cpu msr SUCCESS))
    | None => ((ERROR_SYSTEM, old), logged m (Rd cpu msr ERROR_SYSTEM))
    end.
Proof.
  intros Hne. rewrite msr_read_cpu_eq, (read_step_reg _ _ _ Hne).
  destruct (reg_read m cpu msr); reflexivity.
Qed.

Lemma reg_read_written m cpu msr value cpu' msr' :
  write_ok m cpu msr value = true ->
  reg_read (written m cpu msr value) cpu' msr' =
    if decide ((cpu', msr') = (cpu, msr)) then Some (u64 value) else reg_read m cpu' msr'.
Proof.
  intros Hok. unfold reg_read, dev_ok, written. simpl.
  destruct (decide ((cpu', msr') = (cpu, msr))) as [Heq|Hne].
  - inversion Heq; subst. rewrite lookup_insert_eq.
    unfold write_ok in Hok.
    destruct (bool_decide (cpu ∈ devs m) && (0 <=? cpu)); [reflexivity | discriminate].
  - rewrite lookup_insert_ne by congruence. reflexivity.
Qed.

(** X3. A register write returns [SUCCESS] or [ERROR_SYSTEM] and
    nothing else.  After a write that went through, a read of the same
    register of the same CPU returns the value written; a write that
    did not go through leaves every register as it was; and a write
    never changes what a read of another register, or of another CPU,
    returns.  (Registers other than the hardware-driven counter.) *)
Theorem register_write_then_read (m : machine) (cpu msr value cpu' msr' old : Z) :
  msr <> MSR_IA32_QM_CTR -> msr' <> MSR_IA32_QM_CTR -> is_u64 value ->
  let w := msr_write_cpu cpu msr value m in
  (w.1 = SUCCESS \/ w.1 = ERROR_SYSTEM)
  /\ (w.1 = SUCCESS -> (msr_read_cpu cpu msr old w.2).1 = (SUCCESS, value))
  /\ (w.1 <> SUCCESS -> regs w.2 = regs m)
  /\ ((cpu', msr') <> (cpu, msr) ->
      (msr_read_cpu cpu' msr' old w.2).1 = (msr_read_cpu cpu' msr' old m).1).
Proof.
  intros Hm Hm' Hv w. subst w. rewrite msr_write_cpu_eq.
  destruct (write_ok m cpu msr value) eqn:Hok; simpl.
  - split; [left; reflexivity|]. split; [|split].
    + intros _. rewrite (msr_read_cpu_reg _ _ _ _ Hm), (reg_read_written _ _ _ _ _ _ Hok).
      destruct (decide ((cpu, msr) = (cpu, msr))); [|congruence].
      rewrite (u64_small _ Hv). reflexivity.
    + intros H. congruence.
    + intros Hne. rewrite !(msr_read_cpu_reg _ _ _ _ Hm'), (reg_read_written _ _ _ _ _ _ Hok).
      destruct (decide ((cpu', msr') = (cpu, msr))); [congruence|].
      destruct (reg_read m cpu' msr'); reflexivity.
  - split; [right; reflexivity|]. split; [discriminate|]. split; [reflexivity|].
    intros _. rewrite !(msr_read_cpu_reg _ _ _ _ Hm'), reg_read_logged.
    destruct (reg_read m cpu' msr'); reflexivity.
Qed.

Lemma register_write_then_read_witness :
  let w := msr_write_cpu 0 MSR_IA32_L3_MASK_0 0xFF demo in
  (w.1 = SUCCESS \/ w.1 = ERROR_SYSTEM)
  /\ (w.1 = SUCCESS -> (msr_read_cpu 0 MSR_IA32_L3_MASK_0 7 w.2).1 = (SUCCESS, 0xFF))
  /\ (w.1 <> SUCCESS -> regs w.2 = regs demo)
  /\ ((1, MSR_IA32_L3_MASK_0) <> (0, MSR_IA32_L3_MASK_0) ->
      (msr_read_cpu 1 MSR_IA32_L3_MASK_0 7 w.2).1
      = (msr_read_cpu 1 MSR_IA32_L3_MASK_0 7 demo).1).
Proof.
  apply (register_write_then_read demo 0 MSR_IA32_L3_MASK_0 0xFF 1 MSR_IA32_L3_MASK_0 7).
  - discriminate.
  - discriminate.
  - unfold is_u64. lia.
Defined.

(** ** The batch read *)

Lemma insert_default_id (l : list Z) (k : nat) : <[k := default 0 (l !! k)]> l = l.
Proof.
  destruct (l !! k) as [x|] eqn:Hk; simpl.
  - apply list_insert_id. exact Hk.
  - apply list_insert_ge. apply lookup_ge_None. exact Hk.
Qed.

Lemma read_each_S msr count i values m :
  msr <> MSR_IA32_QM_CTR ->
  read_each msr (S count) i values m =
    match reg_read m i msr with
    | Some v =>
        read_each msr count (i + 1) (<[Z.to_nat i := v]> values)
          (logged m (Rd i msr SUCCESS))
    | None => ((Some ERROR_SYSTEM, values), logged m (Rd i msr ERROR_SYSTEM))
    end.
Proof.
  intros Hne. simpl read_each. unfold mbind, M_bind.
  rewrite (msr_read_cpu_reg _ _ _ _ Hne).
  destruct (reg_read m i msr) as [v|]; simpl.
  - reflexivity.
  - rewrite insert_default_id. reflexivity.
Qed.

(** The loop from CPU [i], with [stop] the first CPU whose read does not
    go through. *)
Lemma read_each_run msr (count : nat) :
  msr <> MSR_IA32_QM_CTR ->
  forall (i stop : Z) (values : list Z) (m : machine),
    0 <= i -> i <= stop <= i + Z.of_nat count ->
    (forall j, i <= j < stop -> is_Some (reg_read m j msr)) ->
    (stop < i + Z.of_nat count -> reg_read m stop msr = None) ->
    let r := read_each msr count i values m in
    r.1.1 = (if stop <? i + Z.of_nat count then Some ERROR_SYSTEM else None)
    /\ length r.1.2 = length values
    /\ (forall j, i <= j < stop -> (Z.to_nat j < length values)%nat ->
          r.1.2 !! Z.to_nat j = reg_read m j msr)
    /\ (forall k : nat, ~ (i <= Z.of_nat k < stop) -> r.1.2 !! k = values !! k)
    /\ r.2 = set_trace m
               (trace m ++ map (fun c => Rd c msr SUCCESS) (seqZ i (stop - i))
                  ++ (if stop <? i + Z.of_nat count
                      then [Rd stop msr ERROR_SYSTEM] else [])).
Proof.
  intros Hne. induction count as [|count IH]; intros i stop values m Hi Hr Hb Ha r; subst r.
  - assert (stop = i) as -> by lia. rewrite seqZ_nil by lia.
    destruct (Z.ltb_spec i (i + Z.of_nat 0)); [lia|]. simpl.
    rewrite app_nil_r. repeat split; try reflexivity.
    + intros j Hj. lia.
    + destruct m; reflexivity.
  - rewrite (read_each_S _ _ _ _ _ Hne). rewrite Nat2Z.inj_succ in *.
    destruct (Z.eq_dec stop i) as [->|Hstop].
    + rewrite Ha by lia. rewrite seqZ_nil by lia.
      destruct (Z.ltb_spec i (i + Z.succ (Z.of_nat count))); [|lia]. simpl.
      repeat split; try reflexivity. intros j Hj. lia.
    + destruct (Hb i ltac:(lia)) as [v Hv]. rewrite Hv.
      destruct (IH (i + 1) stop (<[Z.to_nat i := v]> values) (logged m (Rd i msr SUCCESS)))
        as (H1 & H2 & H3 & H4 & H5); try lia.
      { intros j Hj. rewrite reg_read_logged. apply Hb. lia. }
      { intros Hlt. rewrite reg_read_logged. apply Ha. lia. }
      split; [|split; [|split; [|split]]].
      * rewrite H1.
        destruct (Z.ltb_spec stop (i + 1 + Z.of_nat count));
          destruct (Z.ltb_spec stop (i + Z.succ (Z.of_nat count))); try lia; reflexivity.
      * rewrite H2. apply length_insert.
      * intros j Hj Hlen. destruct (Z.eq_dec j i) as [->|Hji].
        -- rewrite H4 by lia. rewrite list_lookup_insert_eq by exact Hlen.
           symmetry. exact Hv.
        -- rewrite H3; [apply reg_read_logged | lia | rewrite length_insert; exact Hlen].
      * intros k Hk. rewrite H4 by lia.
        apply list_lookup_insert_ne. lia.
      * rewrite H5. rewrite (seqZ_cons i (stop - i)) by lia.
        replace (Z.succ i) with (i + 1) by lia.
        replace (Z.pred (stop - i)) with (stop - (i + 1)) by lia.
        simpl. rewrite <- app_assoc. simpl.
        destruct (Z.ltb_spec stop (i + 1 + Z.of_nat count));
          destruct (Z.ltb_spec stop (i + Z.succ (Z.of_nat count))); try lia; reflexivity.
Qed.

(** X4. [msr_read_all_cpus] reads the CPUs in order and stops at the
    first one whose read fails.  With all reads going through it returns
    the CPU count and [values[j]] holds the register of CPU [j]; with a
    failure at CPU [stop] it returns [ERROR_SYSTEM], the cells before
    [stop] hold the registers read so far and the cells from [stop] on
    are as the caller left them.  Either way the array keeps its length
    and no register is changed. *)
Theorem msr_read_all_cpus_fills_until_failure
    (m : machine) (msr max_cpus stop : Z) (values : list Z) :
  msr <> MSR_IA32_QM_CTR ->
  0 <= stop <= batch_size m max_cpus ->
  batch_size m max_cpus <= Z.of_nat (length values) ->
  (forall j, 0 <= j < stop -> is_Some (reg_read m j msr)) ->
  (stop < batch_size m max_cpus -> reg_read m stop msr = None) ->
  let r := msr_read_all_cpus msr values max_cpus m in
  r.1.1 = (if stop <? batch_size m max_cpus then ERROR_SYSTEM else batch_size m max_cpus)
  /\ length r.1.2 = length values
  /\ (forall j, 0 <= j < stop -> r.1.2 !! Z.to_nat j = reg_read m j msr)
  /\ (forall k : nat, stop <= Z.of_nat k -> r.1.2 !! k = values !! k)
  /\ regs r.2 = regs m
  /\ read_only (drop (length (trace m)) (trace r.2)).
Proof.
  intros Hne Hr Hlen Hb Ha r. subst r.
  unfold msr_read_all_cpus, mbind, M_bind, get_cpu_count. fold (batch_size m max_cpus).
  assert (Hn : Z.of_nat (Z.to_nat (batch_size m max_cpus)) = batch_size m max_cpus) by lia.
  destruct (read_each_run msr (Z.to_nat (batch_size m max_cpus)) Hne 0 stop values m)
    as (H1 & H2 & H3 & H4 & H5); rewrite ?Hn; try assumption; try lia.
  rewrite Hn, Z.add_0_l in *. rewrite Z.sub_0_r in H5.
  destruct (read_each msr _ 0 values m) as [[e vals] m']. simpl in H1, H2, H3, H4, H5.
  subst e.
  assert (Hro : read_only (drop (length (trace m)) (trace m'))).
  { rewrite H5. simpl. rewrite drop_app_length.
    intros a Ha'. apply elem_of_app in Ha' as [Ha'|Ha'].
    - apply list_elem_of_fmap in Ha' as (c & -> & _). eauto.
    - destruct (stop <? batch_size m max_cpus).
      + apply list_elem_of_singleton in Ha'. subst. eauto.
      + inversion Ha'. }
  assert (Hregs : regs m' = regs m) by (rewrite H5; reflexivity).
  assert (Hlow : forall j, 0 <= j < stop -> vals !! Z.to_nat j = reg_read m j msr)
    by (intros j Hj; apply H3; lia).
  assert (Hhigh : forall k : nat, stop <= Z.of_nat k -> vals !! k = values !! k)
    by (intros k Hk; apply H4; lia).
  destruct (stop <? batch_size m max_cpus); simpl; auto 10.
Qed.

Lemma msr_read_all_cpus_fills_until_failure_witness :
  let r := msr_read_all_cpus MSR_IA32_L3_MASK_0 [1; 2; 3; 4] 8 cpu2_missing in
  r.1.1 = ERROR_SYSTEM /\ r.1.2 = [0xFFFF; 0xFFFF; 3; 4] /\ regs r.2 = regs cpu2_missing.
Proof.
  destruct (msr_read_all_cpus_fills_until_failure cpu2_missing MSR_IA32_L3_MASK_0 8 2
              [1; 2; 3; 4]) as (H1 & H2 & H3 & H4 & H5 & _).
  - discriminate.
  - vm_compute. split; discriminate.
  - vm_compute. discriminate.
  - intros j Hj. assert (j = 0 \/ j = 1) as [-> | ->] by lia; vm_compute; eauto.
  - intros _. vm_compute. reflexivity.
  - split; [exact H1|]. split; [|exact H5].
    vm_compute. reflexivity.
Defined.

(** ** Setting and getting the two identifiers *)

Lemma assoc_rmw_success_inv cpu f m :
  (assoc_rmw cpu f m).1 = SUCCESS ->
  exists w, assoc_word m cpu = Some w
            /\ write_ok m cpu MSR_IA32_PQR_ASSOC (f w) = true.
Proof.
  rewrite assoc_rmw_eq. destruct (assoc_word m cpu) as [w|];
    [|intros H; simpl in H; discriminate].
  rewrite msr_write_cpu_eq, write_ok_logged.
  destruct (write_ok m cpu MSR_IA32_PQR_ASSOC (f w)) eqn:Hok;
    intros H; simpl in H; [eauto | discriminate].
Qed.

Lemma to_int_small x : 0 <= x < 2 ^ 31 -> to_int x = x.
Proof.
  intros Hx. unfold to_int, u32. rewrite Z.mod_small by lia.
  destruct (Z.ltb_spec x (2 ^ 31)); lia.
Qed.

Lemma to_int_wrapped x : - 2 ^ 31 <= x < 0 -> to_int (2 ^ 32 + x) = x.
Proof.
  intros Hx. unfold to_int, u32. rewrite Z.mod_small by lia.
  destruct (Z.ltb_spec (2 ^ 32 + x) (2 ^ 31)); lia.
Qed.

Lemma clos_half_mod w : clos_half w = w mod 2 ^ 32.
Proof. unfold clos_half. change 0xFFFFFFFF with (Z.ones 32). apply Z.land_ones. lia. Qed.

Lemma rmid_half_div w : rmid_half w = w / 2 ^ 32.
Proof. unfold rmid_half. apply Z.shiftr_div_pow2. lia. Qed.

(** A word is its two halves. *)
Lemma word_of_halves w : w = rmid_half w * 2 ^ 32 + clos_half w.
Proof.
  rewrite clos_half_mod, rmid_half_div.
  pose proof (Z.div_mod w (2 ^ 32) ltac:(lia)). lia.
Qed.

(** The halves of the word a negative class id leaves. *)
Lemma halves_of_negative_clos id :
  is_int id -> id < 0 ->
  clos_half (2 ^ 64 + id) = 2 ^ 32 + id /\ rmid_half (2 ^ 64 + id) = 2 ^ 32 - 1.
Proof.
  unfold is_int. intros Hid Hneg. rewrite clos_half_mod, rmid_half_div. split.
  - symmetry. apply (Z.mod_unique _ _ (2 ^ 32 - 1)); lia.
  - symmetry. apply (Z.div_unique _ _ _ (2 ^ 32 + id)); lia.
Qed.

(** X5. After a successful [rdt_set_clos], [rdt_get_clos] of the same
    CPU returns the class id that was set, for every [int] below
    [MAX_CLOS], the negative ones included.  For a class id from 0 up
    the monitoring id reads as before; a negative class id leaves the
    monitoring id reading -1. *)
Theorem rdt_set_clos_then_get (m : machine) (cpu clos_id old : Z) :
  is_int clos_id -> clos_id < MAX_CLOS ->
  (rdt_set_clos cpu clos_id m).1 = SUCCESS ->
  let m' := (rdt_set_clos cpu clos_id m).2 in
  (rdt_get_clos cpu old m').1 = (SUCCESS, clos_id)
  /\ (0 <= clos_id ->
      (rdt_monitor_get_rmid cpu old m').1 = (rdt_monitor_get_rmid cpu old m).1)
  /\ (clos_id < 0 -> (rdt_monitor_get_rmid cpu old m').1 = (SUCCESS, -1)).
Proof.
  intros Hint Hmax Hres m'. subst m'.
  rewrite rdt_get_clos_eq, !rdt_monitor_get_rmid_eq.
  rewrite rdt_set_clos_rmw in *.
  destruct (Z.geb_spec clos_id MAX_CLOS); [lia|].
  destruct (assoc_rmw_success_inv _ _ _ Hres) as (w & Hw & Hok).
  rewrite assoc_rmw_word, Hw, Hok.
  pose proof (assoc_word_u64 _ _ _ Hw) as Hu.
  destruct (Z.lt_ge_cases clos_id 0) as [Hneg|Hpos].
  - rewrite (put_clos_negative w clos_id Hu Hint Hneg).
    destruct (halves_of_negative_clos clos_id Hint Hneg) as (Hcl & Hrm).
    rewrite u64_small by (unfold is_u64, is_int in *; lia).
    rewrite Hcl, Hrm, to_int_wrapped by (unfold is_int in Hint; lia).
    split; [reflexivity|]. split; [lia|]. intros _. reflexivity.
  - assert (Hr : 0 <= clos_id < 2 ^ 32) by (unfold MAX_CLOS in *; lia).
    destruct (set_low_half w clos_id Hu Hr) as (Hrm & Hcl & Hu').
    fold (put_clos clos_id w) in Hrm, Hcl, Hu'.
    rewrite (u64_small _ Hu'), Hcl, Hrm, to_int_small by (unfold MAX_CLOS in *; lia).
    split; [reflexivity|]. split; [reflexivity | lia].
Qed.

Lemma rdt_set_clos_then_get_witness :
  let m' := (rdt_set_clos 1 (-2) demo).2 in
  (rdt_get_clos 1 0 m').1 = (SUCCESS, -2)
  /\ (0 <= -2 ->
      (rdt_monitor_get_rmid 1 0 m').1 = (rdt_monitor_get_rmid 1 0 demo).1)
  /\ (-2 < 0 -> (rdt_monitor_get_rmid 1 0 m').1 = (SUCCESS, -1)).
Proof.
  apply (rdt_set_clos_then_get demo 1 (-2) 0).
  - unfold is_int. lia.
  - unfold MAX_CLOS. lia.
  - vm_compute. reflexivity.
Defined.

(** X6. After a successful [rdt_monitor_set_rmid],
    [rdt_monitor_get_rmid] of the same CPU returns the monitoring id
    that was set, for every [int] below [MAX_RMID], and [rdt_get_clos]
    returns what it returned before. *)
Theorem rdt_monitor_set_rmid_then_get (m : machine) (cpu rmid old : Z) :
  is_int rmid -> rmid < MAX_RMID ->
  (rdt_monitor_set_rmid cpu rmid m).1 = SUCCESS ->
  let m' := (rdt_monitor_set_rmid cpu rmid m).2 in
  (rdt_monitor_get_rmid cpu old m').1 = (SUCCESS, rmid)
  /\ (rdt_get_clos cpu old m').1 = (rdt_get_clos cpu old m).1.
Proof.
  intros Hint Hmax Hres m'. subst m'.
  rewrite !rdt_get_clos_eq, rdt_monitor_get_rmid_eq.
  rewrite rdt_monitor_set_rmid_rmw in *.
  destruct (Z.geb_spec rmid MAX_RMID); [lia|].
  destruct (assoc_rmw_success_inv _ _ _ Hres) as (w & Hw & Hok).
  rewrite assoc_rmw_word, Hw, Hok.
  pose proof (assoc_word_u64 _ _ _ Hw) as Hu.
  destruct (Z.lt_ge_cases rmid 0) as [Hneg|Hpos].
  - destruct (put_rmid_negative w rmid Hu Hint Hneg) as (Hcl & Hrm & Hu').
    rewrite (u64_small _ Hu'), Hcl, Hrm, to_int_wrapped by (unfold is_int in Hint; lia).
    split; reflexivity.
  - assert (Hr : 0 <= rmid < 2 ^ 32) by (unfold MAX_RMID in *; lia).
    destruct (set_high_half w rmid Hu Hr) as (Hcl & Hrm & Hu').
    fold (put_rmid rmid w) in Hrm, Hcl, Hu'.
    rewrite (u64_small _ Hu'), Hcl, Hrm, to_int_small by (unfold MAX_RMID in *; lia).
    split; reflexivity.
Qed.

Lemma rdt_monitor_set_rmid_then_get_witness :
  let m' := (rdt_monitor_set_rmid 1 200 demo).2 in
  (rdt_monitor_get_rmid 1 0 m').1 = (SUCCESS, 200)
  /\ (rdt_get_clos 1 0 m').1 = (rdt_get_clos 1 0 demo).1.
Proof.
  apply (rdt_monitor_set_rmid_then_get demo 1 200 0).
  - unfold is_int. lia.
  - unfold MAX_RMID. lia.
  - vm_compute. reflexivity.
Defined.

Lemma assoc_rmw_healthy cpu f m w :
  assoc_word m cpu = Some w -> word_writable m cpu -> is_u64 (f w) ->
  (assoc_rmw cpu f m).1 = SUCCESS
  /\ assoc_word (assoc_rmw cpu f m).2 cpu = Some (f w)
  /\ word_writable (assoc_rmw cpu f m).2 cpu.
Proof.
  intros Hw Hok Hu.
  rewrite (assoc_rmw_success cpu f m w Hw (Hok _)). simpl.
  split; [reflexivity|]. split.
  - rewrite assoc_word_written by (rewrite write_ok_logged; apply Hok).
    rewrite (u64_small _ Hu). reflexivity.
  - intros v. rewrite write_ok_written by (rewrite write_ok_logged; apply Hok).
    rewrite write_ok_logged. apply Hok.
Qed.

(** X7. The two setters work on separate halves of the word: on a CPU
    whose association word can be read and written, setting an in-range
    class id and an in-range monitoring id gives the same word in either
    order, [rmid * 2^32 + clos_id]. *)
Theorem set_clos_and_set_rmid_commute (m : machine) (cpu clos_id rmid w : Z) :
  0 <= clos_id < MAX_CLOS -> 0 <= rmid < MAX_RMID ->
  assoc_word m cpu = Some w -> word_writable m cpu ->
  assoc_word (rdt_monitor_set_rmid cpu rmid (rdt_set_clos cpu clos_id m).2).2 cpu
    = Some (rmid * 2 ^ 32 + clos_id)
  /\ assoc_word (rdt_set_clos cpu clos_id (rdt_monitor_set_rmid cpu rmid m).2).2 cpu
     = Some (rmid * 2 ^ 32 + clos_id).
Proof.
  intros Hc Hr Hw Hok. rewrite !rdt_set_clos_rmw, !rdt_monitor_set_rmid_rmw.
  destruct (Z.geb_spec clos_id MAX_CLOS); [lia|].
  destruct (Z.geb_spec rmid MAX_RMID); [lia|].
  pose proof (assoc_word_u64 _ _ _ Hw) as Hu.
  assert (Hc32 : 0 <= clos_id < 2 ^ 32) by (unfold MAX_CLOS in *; lia).
  assert (Hr32 : 0 <= rmid < 2 ^ 32) by (unfold MAX_RMID in *; lia).
  destruct (set_low_half w clos_id Hu Hc32) as (Hrm1 & Hcl1 & Hu1).
  destruct (set_high_half w rmid Hu Hr32) as (Hcl2 & Hrm2 & Hu2).
  fold (put_clos clos_id w) in Hrm1, Hcl1, Hu1.
  fold (put_rmid rmid w) in Hrm2, Hcl2, Hu2.
  destruct (set_high_half (put_clos clos_id w) rmid Hu1 Hr32) as (Hcl3 & Hrm3 & Hu3).
  destruct (set_low_half (put_rmid rmid w) clos_id Hu2 Hc32) as (Hrm4 & Hcl4 & Hu4).
  fold (put_rmid rmid (put_clos clos_id w)) in Hrm3, Hcl3, Hu3.
  fold (put_clos clos_id (put_rmid rmid w)) in Hrm4, Hcl4, Hu4.
  split.
  - destruct (assoc_rmw_healthy cpu (put_clos clos_id) m w Hw Hok Hu1) as (_ & Hw1 & Hok1).
    destruct (assoc_rmw_healthy cpu (put_rmid rmid) _ _ Hw1 Hok1 Hu3) as (_ & Hw2 & _).
    rewrite Hw2. f_equal.
    rewrite (word_of_halves (put_rmid rmid (put_clos clos_id w))). lia.
  - destruct (assoc_rmw_healthy cpu (put_rmid rmid) m w Hw Hok Hu2) as (_ & Hw1 & Hok1).
    destruct (assoc_rmw_healthy cpu (put_clos clos_id) _ _ Hw1 Hok1 Hu4) as (_ & Hw2 & _).
    rewrite Hw2. f_equal.
    rewrite (word_of_halves (put_clos clos_id (put_rmid rmid w))). lia.
Qed.

Lemma set_clos_and_set_rmid_commute_witness :
  assoc_word (rdt_monitor_set_rmid 1 7 (rdt_set_clos 1 3 demo).2).2 1
    = Some (7 * 2 ^ 32 + 3)
  /\ assoc_word (rdt_set_clos 1 3 (rdt_monitor_set_rmid 1 7 demo).2).2 1
     = Some (7 * 2 ^ 32 + 3).
Proof.
  apply (set_clos_and_set_rmid_commute demo 1 3 7 0).
  - unfold MAX_CLOS. lia.
  - unfold MAX_RMID. lia.
  - reflexivity.
  - intros v. reflexivity.
Defined.

(** ** What stays fixed across accesses *)

Lemma same_access_refl m : same_access m m.
Proof. unfold same_access. repeat split; auto. Qed.

Lemma same_access_trans m1 m2 m3 :
  same_access m1 m2 -> same_access m2 m3 -> same_access m1 m3.
Proof.
  intros (A1 & A2 & A3 & A4 & A5) (B1 & B2 & B3 & B4 & B5).
  unfold same_access. repeat split; try congruence.
  - intros H. apply A5, B5, H.
  - intros H. apply B5, A5, H.
Qed.

Lemma same_access_write_ok m m' cpu msr v :
  same_access m m' -> write_ok m' cpu msr v = write_ok m cpu msr v.
Proof.
  intros (A1 & A2 & _ & _ & A5). unfold write_ok. rewrite A1, A2.
  f_equal. f_equal. apply bool_decide_ext, A5.
Qed.

Lemma same_access_logged m a : same_access m (logged m a).
Proof. unfold same_access, logged. simpl. repeat split; auto. Qed.

Lemma msr_write_cpu_same_access cpu msr v m : same_access m (msr_write_cpu cpu msr v m).2.
Proof.
  rewrite msr_write_cpu_eq. destruct (write_ok m cpu msr v) eqn:Hok; simpl.
  - unfold same_access, written. simpl. repeat split; auto.
    + intros H. destruct (decide (key = (cpu, msr))) as [->|Hne].
      * unfold write_ok in Hok.
        destruct (bool_decide (is_Some (regs m !! (cpu, msr)))) eqn:Hb.
        -- apply bool_decide_eq_true in Hb. exact Hb.
        -- rewrite Bool.andb_false_r in Hok. discriminate.
      * rewrite lookup_insert_ne in H by congruence. exact H.
    + intros H. destruct (decide (key = (cpu, msr))) as [->|Hne].
      * rewrite lookup_insert_eq. eauto.
      * rewrite lookup_insert_ne by congruence. exact H.
  - apply same_access_logged.
Qed.

Lemma msr_write_cpu_regs cpu msr v m key :
  regs (msr_write_cpu cpu msr v m).2 !! key =
    if write_ok m cpu msr v && bool_decide (key = (cpu, msr))
    then Some v else regs m !! key.
Proof.
  rewrite msr_write_cpu_eq. destruct (write_ok m cpu msr v); simpl; [|reflexivity].
  destruct (decide (key = (cpu, msr))) as [->|Hne].
  - rewrite bool_decide_eq_true_2 by reflexivity. apply lookup_insert_eq.
  - rewrite bool_decide_eq_false_2 by exact Hne. apply lookup_insert_ne. congruence.
Qed.

Lemma msr_read_cpu_unchanged cpu msr old m :
  regs (msr_read_cpu cpu msr old m).2 = regs m
  /\ same_access m (msr_read_cpu cpu msr old m).2.
Proof.
  rewrite msr_read_cpu_eq.
  destruct (read_step m cpu msr) as [[v m1]|] eqn:Hstep; simpl.
  - destruct (read_step_frame _ _ _ _ _ Hstep) as (H1 & H2 & H3 & H4 & _ & _).
    split; [exact H1|]. unfold same_access. simpl.
    assert (feature_mba m1 = feature_mba m).
    { unfold read_step in Hstep.
      destruct (bool_decide (cpu ∈ devs m) && (0 <=? cpu)); [|discriminate].
      destruct (regs m !! (cpu, msr)); [|discriminate].
      destruct (msr =? MSR_IA32_QM_CTR); [destruct (qm_ctr_feed m)|];
        inversion Hstep; subst; reflexivity. }
    rewrite H1. repeat split; auto.
  - split; [reflexivity | apply same_access_logged].
Qed.

Lemma assoc_rmw_frame cpu f m :
  same_access m (assoc_rmw cpu f m).2
  /\ forall key, key <> (cpu, MSR_IA32_PQR_ASSOC) ->
       regs (assoc_rmw cpu f m).2 !! key = regs m !! key.
Proof.
  rewrite assoc_rmw_eq. destruct (assoc_word m cpu) as [w|].
  - split.
    + eapply same_access_trans; [apply (same_access_logged m)|].
      apply msr_write_cpu_same_access.
    + intros key Hne. rewrite msr_write_cpu_regs.
      rewrite (bool_decide_eq_false_2 _ Hne), Bool.andb_false_r. reflexivity.
  - split; [apply same_access_logged | reflexivity].
Qed.

Lemma same_access_assoc_word m m' cpu :
  same_access m m' ->
  regs m' !! (cpu, MSR_IA32_PQR_ASSOC) = regs m !! (cpu, MSR_IA32_PQR_ASSOC) ->
  assoc_word m' cpu = assoc_word m cpu.
Proof.
  intros (A1 & _) Hreg. unfold assoc_word, dev_ok. rewrite A1, Hreg. reflexivity.
Qed.

Lemma rmw_all_S f n i m :
  rmw_all f (S n) i m = rmw_all f n (i + 1) (assoc_rmw i f m).2.
Proof.
  unfold rmw_all. simpl for_range. unfold mbind, M_bind.
  destruct (assoc_rmw i f m) as [r m1]. reflexivity.
Qed.

(** A loop of read-modify-writes over CPUs [i .. i+n-1]: each of these
    CPUs ends with the word its own read-modify-write gives, whatever
    happened on the others; nothing else changes. *)
Lemma rmw_all_spec f (n : nat) : forall (i : Z) (m : machine),
  same_access m (rmw_all f n i m).2
  /\ (forall c, assoc_word (rmw_all f n i m).2 c =
        if (i <=? c) && (c <? i + Z.of_nat n) then rmw_word f m c else assoc_word m c)
  /\ (forall key, key.2 <> MSR_IA32_PQR_ASSOC ->
        regs (rmw_all f n i m).2 !! key = regs m !! key).
Proof.
  induction n as [|n IH]; intros i m.
  - split; [apply same_access_refl|]. split; [|reflexivity].
    intros c. cmp_cases; try lia; reflexivity.
  - rewrite rmw_all_S. destruct (IH (i + 1) (assoc_rmw i f m).2) as (A & W & R).
    destruct (assoc_rmw_frame i f m) as (A1 & R1).
    split; [eapply same_access_trans; eassumption|]. split.
    + intros c. rewrite W. rewrite Nat2Z.inj_succ.
      destruct (Z.eq_dec c i) as [->|Hne].
      * cmp_cases; try lia. simpl. apply assoc_rmw_word.
      * assert (Hw : assoc_word (assoc_rmw i f m).2 c = assoc_word m c).
        { apply same_access_assoc_word; [exact A1|]. apply R1. congruence. }
        unfold rmw_word. rewrite Hw.
        cmp_cases; try lia; simpl; try reflexivity.
        destruct (assoc_word m c) as [w|]; [|reflexivity].
        rewrite (same_access_write_ok _ _ _ _ _ A1). reflexivity.
    + intros key Hkey. rewrite R by exact Hkey. apply R1.
      destruct key as [c msr]. simpl in Hkey. congruence.
Qed.

(** ** Teardown: [rdt_cleanup], [rdt_monitor_cleanup] *)

Lemma rdt_cleanup_eq m :
  rdt_cleanup m = (SUCCESS, (rmw_all (put_clos 0) (Z.to_nat (nprocs m)) 0 m).2).
Proof.
  unfold rdt_cleanup, rmw_all, mbind, M_bind, get_cpu_count.
  change (fun cpu : Z => rdt_set_clos cpu 0 ≫= λ _ : Z, mret None)
    with (fun cpu : Z => assoc_rmw cpu (put_clos 0) ≫= λ _ : Z, mret None).
  destruct (for_range _ _ _ m) as [r m']. reflexivity.
Qed.

Lemma rdt_monitor_cleanup_eq m :
  rdt_monitor_cleanup m = (SUCCESS, (rmw_all (put_rmid 0) (Z.to_nat (nprocs m)) 0 m).2).
Proof.
  unfold rdt_monitor_cleanup, rmw_all, mbind, M_bind, get_cpu_count.
  change (fun cpu : Z => rdt_monitor_set_rmid cpu 0 ≫= λ _ : Z, mret None)
    with (fun cpu : Z => assoc_rmw cpu (put_rmid 0) ≫= λ _ : Z, mret None).
  destruct (for_range _ _ _ m) as [r m']. reflexivity.
Qed.

Lemma in_cpu_range (n c : Z) :
  (0 <=? c) && (c <? 0 + Z.of_nat (Z.to_nat n)) = true <-> 0 <= c < n.
Proof. cmp_cases; simpl; split; intros; try lia; try discriminate; reflexivity. Qed.

(** X8. [rdt_cleanup] returns [SUCCESS] whatever the accesses do, and
    it does not stop at a CPU that fails: every CPU below the CPU count
    whose association word can be read and written ends in class 0 with
    its monitoring id as before, whatever happened on the other CPUs.
    CPUs outside the count and all registers other than the association
    words are left alone. *)
Theorem rdt_cleanup_resets_every_cpu (m : machine) (cpu w old : Z) :
  let r := rdt_cleanup m in
  r.1 = SUCCESS
  /\ (0 <= cpu < nprocs m -> assoc_word m cpu = Some w ->
      write_ok m cpu MSR_IA32_PQR_ASSOC (put_clos 0 w) = true ->
      (rdt_get_clos cpu old r.2).1 = (SUCCESS, 0)
      /\ (rdt_monitor_get_rmid cpu old r.2).1 = (rdt_monitor_get_rmid cpu old m).1)
  /\ (~ (0 <= cpu < nprocs m) -> assoc_word r.2 cpu = assoc_word m cpu)
  /\ (forall key, key.2 <> MSR_IA32_PQR_ASSOC -> regs r.2 !! key = regs m !! key).
Proof.
  intros r. subst r. rewrite rdt_cleanup_eq. simpl.
  destruct (rmw_all_spec (put_clos 0) (Z.to_nat (nprocs m)) 0 m) as (_ & W & R).
  split; [reflexivity|]. split; [|split; [|exact R]].
  - intros Hc Hw Hok. rewrite rdt_get_clos_eq, !rdt_monitor_get_rmid_eq, W.
    rewrite (proj2 (in_cpu_range (nprocs m) cpu) Hc).
    unfold rmw_word. rewrite Hw, Hok.
    pose proof (assoc_word_u64 _ _ _ Hw) as Hu.
    destruct (set_low_half w 0 Hu ltac:(lia)) as (Hrm & Hcl & Hu').
    fold (put_clos 0 w) in Hrm, Hcl, Hu'.
    rewrite (u64_small _ Hu'), Hrm, Hcl. split; reflexivity.
  - intros Hout. rewrite W.
    destruct ((0 <=? cpu) && (cpu <? 0 + Z.of_nat (Z.to_nat (nprocs m)))) eqn:Hin;
      [|reflexivity].
    apply in_cpu_range in Hin. contradiction.
Qed.

Lemma rdt_cleanup_resets_every_cpu_witness :
  let r := rdt_cleanup cpu0_offline in
  r.1 = SUCCESS
  /\ (rdt_get_clos 1 0 cpu0_offline).1 = (SUCCESS, 3)
  /\ (rdt_get_clos 1 0 r.2).1 = (SUCCESS, 0)
  /\ (rdt_monitor_get_rmid 1 0 r.2).1 = (rdt_monitor_get_rmid 1 0 cpu0_offline).1.
Proof.
  destruct (rdt_cleanup_resets_every_cpu cpu0_offline 1 0x0000000700000003 0)
    as (H1 & H2 & _).
  split; [exact H1|]. split; [vm_compute; reflexivity|].
  apply H2.
  - simpl. lia.
  - vm_compute. reflexivity.
  - vm_compute. reflexivity.
Defined.

(** X9. [rdt_monitor_cleanup] likewise returns [SUCCESS] whatever the
    accesses do and visits every CPU: each CPU below the CPU count whose
    association word can be read and written ends with monitoring id 0
    and its class id as before, whatever happened on the other CPUs. *)
Theorem rdt_monitor_cleanup_resets_every_cpu (m : machine) (cpu w old : Z) :
  let r := rdt_monitor_cleanup m in
  r.1 = SUCCESS
  /\ (0 <= cpu < nprocs m -> assoc_word m cpu = Some w ->
      write_ok m cpu MSR_IA32_PQR_ASSOC (put_rmid 0 w) = true ->
      (rdt_monitor_get_rmid cpu old r.2).1 = (SUCCESS, 0)
      /\ (rdt_get_clos cpu old r.2).1 = (rdt_get_clos cpu old m).1)
  /\ (~ (0 <= cpu < nprocs m) -> assoc_word r.2 cpu = assoc_word m cpu)
  /\ (forall key, key.2 <> MSR_IA32_PQR_ASSOC -> regs r.2 !! key = regs m !! key).
Proof.
  intros r. subst r. rewrite rdt_monitor_cleanup_eq. simpl.
  destruct (rmw_all_spec (put_rmid 0) (Z.to_nat (nprocs m)) 0 m) as (_ & W & R).
  split; [reflexivity|]. split; [|split; [|exact R]].
  - intros Hc Hw Hok. rewrite !rdt_get_clos_eq, rdt_monitor_get_rmid_eq, W.
    rewrite (proj2 (in_cpu_range (nprocs m) cpu) Hc).
    unfold rmw_word. rewrite Hw, Hok.
    pose proof (assoc_word_u64 _ _ _ Hw) as Hu.
    destruct (set_high_half w 0 Hu ltac:(lia)) as (Hcl & Hrm & Hu').
    fold (put_rmid 0 w) in Hrm, Hcl, Hu'.
    rewrite (u64_small _ Hu'), Hrm, Hcl. split; reflexivity.
  - intros Hout. rewrite W.
    destruct ((0 <=? cpu) && (cpu <? 0 + Z.of_nat (Z.to_nat (nprocs m)))) eqn:Hin;
      [|reflexivity].
    apply in_cpu_range in Hin. contradiction.
Qed.

Lemma rdt_monitor_cleanup_resets_every_cpu_witness :
  let r := rdt_monitor_cleanup cpu0_offline in
  r.1 = SUCCESS
  /\ (rdt_monitor_get_rmid 1 0 cpu0_offline).1 = (SUCCESS, 7)
  /\ (rdt_monitor_get_rmid 1 0 r.2).1 = (SUCCESS, 0)
  /\ (rdt_get_clos 1 0 r.2).1 = (rdt_get_clos 1 0 cpu0_offline).1.
Proof.
  destruct (rdt_monitor_cleanup_resets_every_cpu cpu0_offline 1 0x0000000700000003 0)
    as (H1 & H2 & _).
  split; [exact H1|]. split; [vm_compute; reflexivity|].
  apply H2.
  - simpl. lia.
  - vm_compute. reflexivity.
  - vm_compute. reflexivity.
Defined.

(** ** Start-up of the monitor: [rdt_monitor_init] *)

Lemma assoc_rmw_fst cpu f m :
  (assoc_rmw cpu f m).1 = if rmw_ok f m cpu then SUCCESS else ERROR_SYSTEM.
Proof.
  rewrite assoc_rmw_eq. unfold rmw_ok.
  destruct (assoc_word m cpu) as [w|]; [|reflexivity].
  rewrite msr_write_cpu_eq, write_ok_logged.
  destruct (write_ok m cpu MSR_IA32_PQR_ASSOC (f w)); reflexivity.
Qed.

Lemma rmw_until_S f n i m :
  rmw_until f (S n) i m =
    if rmw_ok f m i then rmw_until f n (i + 1) (assoc_rmw i f m).2
    else (Some ERROR_SYSTEM, (assoc_rmw i f m).2).
Proof.
  unfold rmw_until. simpl for_range. unfold mbind, M_bind.
  pose proof (assoc_rmw_fst i f m) as Hfst.
  destruct (assoc_rmw i f m) as [r m1]. simpl in Hfst. subst r.
  destruct (rmw_ok f m i); reflexivity.
Qed.

Lemma rmw_ok_after f cpu m c :
  c <> cpu -> rmw_ok f (assoc_rmw cpu f m).2 c = rmw_ok f m c.
Proof.
  intros Hne. destruct (assoc_rmw_frame cpu f m) as (A & R).
  unfold rmw_ok.
  rewrite (same_access_assoc_word _ _ c A) by (apply R; congruence).
  destruct (assoc_word m c); [|reflexivity].
  apply same_access_write_ok, A.
Qed.

Lemma rmw_word_failed f m c : rmw_ok f m c = false -> rmw_word f m c = assoc_word m c.
Proof.
  unfold rmw_ok, rmw_word. destruct (assoc_word m c); [|reflexivity].
  intros ->. reflexivity.
Qed.

Lemma rmw_until_run f (n : nat) : forall (i stop : Z) (m : machine),
  i <= stop <= i + Z.of_nat n ->
  (forall j, i <= j < stop -> rmw_ok f m j = true) ->
  (stop < i + Z.of_nat n -> rmw_ok f m stop = false) ->
  (rmw_until f n i m).1 = (if stop <? i + Z.of_nat n then Some ERROR_SYSTEM else None)
  /\ (forall c, assoc_word (rmw_until f n i m).2 c =
        if (i <=? c) && (c <? stop) then rmw_word f m c else assoc_word m c)
  /\ (forall key, key.2 <> MSR_IA32_PQR_ASSOC ->
        regs (rmw_until f n i m).2 !! key = regs m !! key).
Proof.
  induction n as [|n IH]; intros i stop m Hr Hb Ha.
  - assert (stop = i) as -> by lia. simpl.
    split; [cmp_cases; try lia; reflexivity|]. split; [|reflexivity].
    intros c. cmp_cases; try lia; reflexivity.
  - rewrite rmw_until_S. rewrite Nat2Z.inj_succ in *.
    destruct (assoc_rmw_frame i f m) as (A1 & R1).
    assert (Hother : forall c, c <> i -> assoc_word (assoc_rmw i f m).2 c = assoc_word m c).
    { intros c Hc. apply same_access_assoc_word; [exact A1|]. apply R1. congruence. }
    destruct (Z.eq_dec stop i) as [->|Hne].
    + rewrite Ha by lia. simpl.
      split; [cmp_cases; try lia; reflexivity|]. split.
      * intros c. destruct (Z.eq_dec c i) as [->|Hc].
        -- rewrite assoc_rmw_word. fold (rmw_word f m i).
           rewrite rmw_word_failed by (apply Ha; lia).
           cmp_cases; try lia; reflexivity.
        -- rewrite Hother by exact Hc. cmp_cases; try lia; reflexivity.
      * intros key Hkey. apply R1. destruct key. simpl in Hkey. congruence.
    + rewrite (Hb i) by lia.
      destruct (IH (i + 1) stop (assoc_rmw i f m).2) as (H1 & H2 & H3); try lia.
      { intros j Hj. rewrite rmw_ok_after by lia. apply Hb. lia. }
      { intros Hlt. rewrite rmw_ok_after by lia. apply Ha. lia. }
      split; [|split].
      * rewrite H1. cmp_cases; try lia; reflexivity.
      * intros c. rewrite H2. destruct (Z.eq_dec c i) as [->|Hc].
        -- cmp_cases; try lia. simpl. apply assoc_rmw_word.
        -- rewrite Hother by exact Hc.
           unfold rmw_word. rewrite Hother by exact Hc.
           cmp_cases; try lia; simpl; try reflexivity.
           destruct (assoc_word m c); [|reflexivity].
           rewrite (same_access_write_ok _ _ _ _ _ A1). reflexivity.
      * intros key Hkey. rewrite H3 by exact Hkey. apply R1.
        destruct key. simpl in Hkey. congruence.
Qed.

Lemma rdt_monitor_init_eq rdt_m m :
  rdt_monitor_init rdt_m m =
    if negb (rdt_m =? SUCCESS) then (ERROR_NOT_SUPPORTED, m)
    else if decide (0 ∈ devs m) then
      match rmw_until (put_rmid 0) (Z.to_nat (nprocs m)) 0 m with
      | (Some e, m') => (e, m')
      | (None, m') => (SUCCESS, m')
      end
    else (ERROR_NOT_SUPPORTED, m).
Proof.
  unfold rdt_monitor_init. destruct (negb (rdt_m =? SUCCESS)); [reflexivity|].
  unfold mbind, M_bind, msr_check_available, get_cpu_count, rmw_until.
  destruct (decide (0 ∈ devs m)) as [Hd|Hd]; [|reflexivity]. simpl.
  change (fun cpu : Z => rdt_monitor_set_rmid cpu 0 ≫= _)
    with (fun cpu : Z => assoc_rmw cpu (put_rmid 0) ≫= λ r : Z,
            if negb (r =? SUCCESS) then mret (Some ERROR_SYSTEM) else mret None).
  destruct (for_range _ _ _ m) as [[e|] m']; reflexivity.
Qed.

(** X10. [rdt_monitor_init] refuses with [ERROR_NOT_SUPPORTED], before
    any register access, when the CPU lacks the monitoring feature or
    the MSR device of CPU 0 is not there.  Otherwise it gives monitoring
    id 0 to the CPUs in order and, unlike the cleanup, stops at the first
    CPU where that fails: the result is then [ERROR_SYSTEM], the CPUs
    before it have monitoring id 0 with their class id kept, and the
    CPUs from it on keep their word. *)
Theorem rdt_monitor_init_stops_at_first_failure (m : machine) (rdt_m stop : Z) :
  (rdt_m <> SUCCESS \/ 0 ∉ devs m ->
     rdt_monitor_init rdt_m m = (ERROR_NOT_SUPPORTED, m))
  /\ (rdt_m = SUCCESS -> 0 ∈ devs m ->
      0 <= stop <= nprocs m ->
      (forall j, 0 <= j < stop -> (rdt_monitor_set_rmid j 0 m).1 = SUCCESS) ->
      (stop < nprocs m -> (rdt_monitor_set_rmid stop 0 m).1 <> SUCCESS) ->
      let r := rdt_monitor_init rdt_m m in
      r.1 = (if stop <? nprocs m then ERROR_SYSTEM else SUCCESS)
      /\ (forall c old, 0 <= c < stop ->
            (rdt_monitor_get_rmid c old r.2).1 = (SUCCESS, 0)
            /\ (rdt_get_clos c old r.2).1 = (rdt_get_clos c old m).1)
      /\ (forall c, stop <= c -> assoc_word r.2 c = assoc_word m c)).
Proof.
  split.
  - intros Hno. rewrite rdt_monitor_init_eq.
    destruct (Z.eqb_spec rdt_m SUCCESS) as [Heq|Hne]; [|reflexivity]. simpl.
    destruct (decide (0 ∈ devs m)) as [Hd|Hd]; [|reflexivity].
    destruct Hno; contradiction.
  - intros Hfeat Hdev Hr Hb Ha r. subst r. rewrite rdt_monitor_init_eq.
    destruct (Z.eqb_spec rdt_m SUCCESS) as [_|Hne]; [|contradiction]. simpl.
    destruct (decide (0 ∈ devs m)) as [Hd|Hd]; [|contradiction].
    assert (Hset : forall c, (rdt_monitor_set_rmid c 0 m).1
                             = if rmw_ok (put_rmid 0) m c then SUCCESS else ERROR_SYSTEM).
    { intros c. rewrite rdt_monitor_set_rmid_rmw. apply assoc_rmw_fst. }
    assert (Hn : Z.of_nat (Z.to_nat (nprocs m)) = nprocs m) by lia.
    destruct (rmw_until_run (put_rmid 0) (Z.to_nat (nprocs m)) 0 stop m)
      as (H1 & H2 & _); rewrite ?Hn; try lia.
    { intros j Hj. specialize (Hb j Hj). rewrite Hset in Hb.
      destruct (rmw_ok (put_rmid 0) m j); [reflexivity | discriminate]. }
    { intros Hlt. specialize (Ha Hlt). rewrite Hset in Ha.
      destruct (rmw_ok (put_rmid 0) m stop); [contradiction | reflexivity]. }
    rewrite Hn, Z.add_0_l in H1.
    destruct (rmw_until (put_rmid 0) (Z.to_nat (nprocs m)) 0 m) as [e m'].
    simpl in H1, H2. subst e.
    assert (Hlow : forall c old, 0 <= c < stop ->
              (rdt_monitor_get_rmid c old m').1 = (SUCCESS, 0)
              /\ (rdt_get_clos c old m').1 = (rdt_get_clos c old m).1).
    { intros c old Hc. rewrite !rdt_get_clos_eq, rdt_monitor_get_rmid_eq, H2.
      destruct (Z.leb_spec 0 c); [|lia]. destruct (Z.ltb_spec c stop); [|lia]. simpl.
      specialize (Hb c Hc). rewrite Hset in Hb. unfold rmw_ok in Hb. unfold rmw_word.
      destruct (assoc_word m c) as [w|] eqn:Hw; [|discriminate].
      destruct (write_ok m c MSR_IA32_PQR_ASSOC (put_rmid 0 w)); [|discriminate].
      pose proof (assoc_word_u64 _ _ _ Hw) as Hu.
      destruct (set_high_half w 0 Hu ltac:(lia)) as (Hcl & Hrm & Hu').
      fold (put_rmid 0 w) in Hrm, Hcl, Hu'.
      rewrite (u64_small _ Hu'), Hrm, Hcl. split; reflexivity. }
    assert (Hhigh : forall c, stop <= c -> assoc_word m' c = assoc_word m c).
    { intros c Hc. rewrite H2. cmp_cases; try lia; reflexivity. }
    destruct (stop <? nprocs m); simpl; auto.
Qed.

Lemma rdt_monitor_init_stops_at_first_failure_witness :
  rdt_monitor_init ERROR_NOT_SUPPORTED demo = (ERROR_NOT_SUPPORTED, demo)
  /\ (rdt_monitor_init SUCCESS assoc_cpu2_missing).1 = ERROR_SYSTEM
  /\ (forall c old, 0 <= c < 2 ->
        (rdt_monitor_get_rmid c old (rdt_monitor_init SUCCESS assoc_cpu2_missing).2).1
        = (SUCCESS, 0)
        /\ (rdt_get_clos c old (rdt_monitor_init SUCCESS assoc_cpu2_missing).2).1
           = (rdt_get_clos c old assoc_cpu2_missing).1)
  /\ (rdt_get_clos 0 0 assoc_cpu2_missing).1 = (SUCCESS, 3)
  /\ (rdt_get_clos 1 0 assoc_cpu2_missing).1 = (SUCCESS, 2)
  /\ (rdt_monitor_get_rmid 1 0 assoc_cpu2_missing).1 = (SUCCESS, 7).
Proof.
  destruct (rdt_monitor_init_stops_at_first_failure demo ERROR_NOT_SUPPORTED 0) as (H1 & _).
  destruct (rdt_monitor_init_stops_at_first_failure assoc_cpu2_missing SUCCESS 2)
    as (_ & H2).
  split; [apply H1; left; discriminate|].
  destruct H2 as (Hres & Hbefore & _).
  - reflexivity.
  - vm_compute. reflexivity.
  - simpl. lia.
  - intros j Hj. assert (j = 0 \/ j = 1) as [-> | ->] by lia; vm_compute; reflexivity.
  - intros _. vm_compute. discriminate.
  - split; [exact Hres|]. split; [exact Hbefore|].
    repeat split; vm_compute; reflexivity.
Defined.

(** ** Teardown of the benchmark: [rdt_bench_cleanup] *)

Lemma for_range_ext (body1 body2 : Z -> M (option Z)) n :
  (forall j m, body1 j m = body2 j m) ->
  forall i m, for_range n i body1 m = for_range n i body2 m.
Proof.
  intros Hext. induction n as [|n IH]; intros i m; [reflexivity|].
  simpl. unfold mbind, M_bind. rewrite Hext.
  destruct (body2 i m) as [[e|] m1]; [reflexivity | apply IH].
Qed.

Lemma rdt_bench_cleanup_eq m :
  (rdt_bench_cleanup m).2 =
    (for_range 16 0 mask_reset_body
       (rmw_all keep_low (Z.to_nat (nprocs m)) 0 m).2).2.
Proof.
  unfold rdt_bench_cleanup, mbind at 1, M_bind at 1, get_cpu_count.
  unfold mbind at 1, M_bind at 1. unfold rmw_all.
  rewrite (for_range_ext _ (fun cpu => assoc_rmw cpu keep_low ;; mret None)).
  - destruct (for_range (Z.to_nat (nprocs m)) 0 _ m) as [r m1]. cbn [snd].
    unfold mbind at 1, M_bind at 1. fold mask_reset_body.
    destruct (for_range 16 0 mask_reset_body m1) as [r2 m2]. reflexivity.
  - intros j m0. unfold assoc_rmw, keep_low, mbind, M_bind.
    destruct (msr_read_cpu j MSR_IA32_PQR_ASSOC 0 m0) as [rv m1].
    destruct (rv.1 =? SUCCESS); simpl; [|reflexivity].
    destruct (msr_write_cpu j MSR_IA32_PQR_ASSOC _ m1); reflexivity.
Qed.

Lemma mask_reset_body_eq clos m :
  mask_reset_body clos m =
    (None,
     if feature_mba m
     then (msr_write_cpu 0 (u32 (MSR_IA32_MBA_THRTL_MSR + clos)) 0
             (msr_write_cpu 0 (u32 (MSR_IA32_L3_MASK_0 + clos)) 0xFFFF m).2).2
     else (msr_write_cpu 0 (u32 (MSR_IA32_L3_MASK_0 + clos)) 0xFFFF m).2).
Proof.
  unfold mask_reset_body, mbind, M_bind, check_cpu_feature_mba.
  destruct (msr_write_cpu_same_access 0 (u32 (MSR_IA32_L3_MASK_0 + clos)) 0xFFFF m)
    as (_ & _ & _ & Hf & _).
  destruct (msr_write_cpu 0 (u32 (MSR_IA32_L3_MASK_0 + clos)) 0xFFFF m) as [r m1].
  simpl in Hf. rewrite Hf. destruct (feature_mba m); simpl; [|reflexivity].
  destruct (msr_write_cpu 0 _ 0 m1); reflexivity.
Qed.

Lemma mask_regs_small clos :
  0 <= clos < 16 ->
  u32 (MSR_IA32_L3_MASK_0 + clos) = MSR_IA32_L3_MASK_0 + clos
  /\ u32 (MSR_IA32_MBA_THRTL_MSR + clos) = MSR_IA32_MBA_THRTL_MSR + clos.
Proof.
  unfold u32, MSR_IA32_L3_MASK_0, MSR_IA32_MBA_THRTL_MSR. intros H.
  split; apply Z.mod_small; lia.
Qed.

Lemma mask_reset_step clos m :
  0 <= clos < 16 ->
  let m1 := (mask_reset_body clos m).2 in
  same_access m m1
  /\ (forall key, key <> (0, MSR_IA32_L3_MASK_0 + clos) ->
        key <> (0, MSR_IA32_MBA_THRTL_MSR + clos) -> regs m1 !! key = regs m !! key)
  /\ (write_ok m 0 (MSR_IA32_L3_MASK_0 + clos) 0xFFFF = true ->
        regs m1 !! (0, MSR_IA32_L3_MASK_0 + clos) = Some 0xFFFF).
Proof.
  intros Hc m1. subst m1. rewrite mask_reset_body_eq. simpl snd.
  destruct (mask_regs_small clos Hc) as (-> & ->).
  pose proof (msr_write_cpu_same_access 0 (MSR_IA32_L3_MASK_0 + clos) 0xFFFF m) as A1.
  assert (Hneq : (0, MSR_IA32_L3_MASK_0 + clos) <> (0, MSR_IA32_MBA_THRTL_MSR + clos)).
  { unfold MSR_IA32_L3_MASK_0, MSR_IA32_MBA_THRTL_MSR. intros [= H]. lia. }
  destruct (feature_mba m).
  - split; [|split].
    + eapply same_access_trans; [exact A1 | apply msr_write_cpu_same_access].
    + intros key H1 H2. rewrite !msr_write_cpu_regs.
      rewrite (bool_decide_eq_false_2 _ H1), (bool_decide_eq_false_2 _ H2).
      rewrite !Bool.andb_false_r. reflexivity.
    + intros Hok. rewrite !msr_write_cpu_regs, Hok.
      rewrite (bool_decide_eq_false_2 _ Hneq), Bool.andb_false_r.
      rewrite bool_decide_eq_true_2 by reflexivity. reflexivity.
  - split; [exact A1|]. split.
    + intros key H1 _. rewrite msr_write_cpu_regs.
      rewrite (bool_decide_eq_false_2 _ H1), Bool.andb_false_r. reflexivity.
    + intros Hok. rewrite msr_write_cpu_regs, Hok.
      rewrite bool_decide_eq_true_2 by reflexivity. reflexivity.
Qed.

Lemma mask_reset_S n i m :
  for_range (S n) i mask_reset_body m
  = for_range n (i + 1) mask_reset_body (mask_reset_body i m).2.
Proof.
  simpl for_range. unfold mbind at 1, M_bind at 1.
  rewrite mask_reset_body_eq. reflexivity.
Qed.

Lemma mask_reset_loop (n : nat) : forall (i : Z) (m : machine),
  0 <= i -> i + Z.of_nat n <= 16 ->
  let m' := (for_range n i mask_reset_body m).2 in
  same_access m m'
  /\ (forall key,
        (forall c, i <= c < i + Z.of_nat n ->
           key <> (0, MSR_IA32_L3_MASK_0 + c) /\ key <> (0, MSR_IA32_MBA_THRTL_MSR + c)) ->
        regs m' !! key = regs m !! key)
  /\ (forall c, i <= c < i + Z.of_nat n ->
        write_ok m 0 (MSR_IA32_L3_MASK_0 + c) 0xFFFF = true ->
        regs m' !! (0, MSR_IA32_L3_MASK_0 + c) = Some 0xFFFF).
Proof.
  induction n as [|n IH]; intros i m Hi Hn m'; subst m'.
  - simpl. split; [apply same_access_refl|]. split; [reflexivity|]. intros c Hc. lia.
  - rewrite mask_reset_S. rewrite Nat2Z.inj_succ in *.
    destruct (mask_reset_step i m ltac:(lia)) as (A1 & F1 & W1).
    set (m1 := (mask_reset_body i m).2) in *.
    destruct (IH (i + 1) m1 ltac:(lia) ltac:(lia)) as (A2 & F2 & W2).
    split; [eapply same_access_trans; eassumption|]. split.
    + intros key Hkey. rewrite F2.
      * apply F1; apply (Hkey i); lia.
      * intros c Hc. apply Hkey. lia.
    + intros c Hc Hok. destruct (Z.eq_dec c i) as [->|Hne].
      * rewrite F2; [apply W1, Hok|].
        intros c Hc'. unfold MSR_IA32_L3_MASK_0, MSR_IA32_MBA_THRTL_MSR.
        split; intros [= H]; lia.
      * apply W2; [lia|]. rewrite (same_access_write_ok _ _ _ _ _ A1). exact Hok.
Qed.

(** X11. [rdt_bench_cleanup] visits every CPU and every class whatever
    fails on the way.  A CPU below the CPU count whose association word
    can be read and written ends with bits 63:32 of the word cleared and
    bits 31:0 kept.  Each of the 16 mask registers of CPU 0 that takes
    the write ends at 0xFFFF.  The mask registers of the other CPUs are
    not reset: apart from the association words no register of a CPU
    other than 0 changes. *)
Theorem rdt_bench_cleanup_effect (m : machine) (cpu w clos : Z) :
  let m' := (rdt_bench_cleanup m).2 in
  (0 <= cpu < nprocs m -> assoc_word m cpu = Some w ->
     write_ok m cpu MSR_IA32_PQR_ASSOC (keep_low w) = true ->
     assoc_word m' cpu = Some (clos_half w))
  /\ (0 <= clos < 16 ->
      write_ok m 0 (MSR_IA32_L3_MASK_0 + clos) 0xFFFF = true ->
      regs m' !! (0, MSR_IA32_L3_MASK_0 + clos) = Some 0xFFFF)
  /\ (forall c msr, c <> 0 -> msr <> MSR_IA32_PQR_ASSOC ->
        regs m' !! (c, msr) = regs m !! (c, msr)).
Proof.
  intros m'. subst m'. rewrite rdt_bench_cleanup_eq.
  destruct (rmw_all_spec keep_low (Z.to_nat (nprocs m)) 0 m) as (A1 & W1 & R1).
  set (m1 := (rmw_all keep_low (Z.to_nat (nprocs m)) 0 m).2) in *.
  destruct (mask_reset_loop 16 0 m1 ltac:(lia) ltac:(lia)) as (A2 & F2 & W2).
  cbv zeta in A2, F2, W2.
  set (m2 := (for_range 16 0 mask_reset_body m1).2) in *.
  split; [|split].
  - intros Hc Hw Hok.
    rewrite (same_access_assoc_word m1 m2 cpu A2).
    + rewrite W1, (proj2 (in_cpu_range (nprocs m) cpu) Hc).
      unfold rmw_word. rewrite Hw, Hok. f_equal.
      apply u64_small. apply land_is_u64; [exact (assoc_word_u64 _ _ _ Hw) | lia].
    + apply F2. intros c Hc'.
      unfold MSR_IA32_L3_MASK_0, MSR_IA32_MBA_THRTL_MSR, MSR_IA32_PQR_ASSOC.
      split; intros [= H1 H2]; lia.
  - intros Hc Hok. apply W2; [lia|].
    rewrite (same_access_write_ok _ _ _ _ _ A1). exact Hok.
  - intros c msr Hc Hmsr. rewrite F2.
    + apply (R1 (c, msr)). exact Hmsr.
    + intros c' Hc'. split; intros [= H1 H2]; contradiction.
Qed.

Lemma rdt_bench_cleanup_effect_witness :
  let m' := (rdt_bench_cleanup cpu0_offline).2 in
  assoc_word m' 1 = Some (clos_half 0x0000000700000003)
  /\ regs m' !! (1, MSR_IA32_L3_MASK_0) = regs cpu0_offline !! (1, MSR_IA32_L3_MASK_0).
Proof.
  destruct (rdt_bench_cleanup_effect cpu0_offline 1 0x0000000700000003 0) as (H1 & _ & H3).
  split.
  - apply H1.
    + simpl. lia.
    + vm_compute. reflexivity.
    + vm_compute. reflexivity.
  - apply H3; discriminate.
Defined.

(** ** The checks of the RDT test program *)

Lemma rdt_read_l3_mask_in_range clos_id old m :
  0 <= clos_id < MAX_CLOS ->
  rdt_read_l3_mask clos_id old m =
    match reg_read m 0 (l3_mask_msr clos_id) with
    | Some v => ((SUCCESS, v), logged m (Rd 0 (l3_mask_msr clos_id) SUCCESS))
    | None => ((ERROR_SYSTEM, old), logged m (Rd 0 (l3_mask_msr clos_id) ERROR_SYSTEM))
    end.
Proof.
  intros Hc. unfold rdt_read_l3_mask.
  destruct (Z.geb_spec clos_id MAX_CLOS); [lia|]. fold (l3_mask_msr clos_id).
  apply msr_read_cpu_reg. rewrite l3_mask_msr_in_range by exact Hc.
  unfold MSR_IA32_L3_MASK_0, MSR_IA32_QM_CTR, MAX_CLOS in *. lia.
Qed.

Lemma rdt_get_clos_full cpu old m :
  rdt_get_clos cpu old m =
    match assoc_word m cpu with
    | Some w => ((SUCCESS, to_int (clos_half w)), logged m (Rd cpu MSR_IA32_PQR_ASSOC SUCCESS))
    | None => ((ERROR_SYSTEM, old), logged m (Rd cpu MSR_IA32_PQR_ASSOC ERROR_SYSTEM))
    end.
Proof.
  unfold rdt_get_clos, mbind, M_bind. rewrite msr_read_cpu_eq, read_step_assoc.
  destruct (assoc_word m cpu); reflexivity.
Qed.

(** X12. [rdt_test_basic_functionality] only reads: it changes no
    register and performs no write.  It returns [SUCCESS] exactly when
    the mask register of class 0 and the association word can both be
    read on CPU 0, and [ERROR_SYSTEM] otherwise. *)
Theorem rdt_test_basic_functionality_only_reads (m : machine) :
  let r := rdt_test_basic_functionality m in
  regs r.2 = regs m
  /\ read_only (drop (length (trace m)) (trace r.2))
  /\ (r.1 = SUCCESS <->
      is_Some (reg_read m 0 MSR_IA32_L3_MASK_0) /\ is_Some (assoc_word m 0))
  /\ (r.1 = SUCCESS \/ r.1 = ERROR_SYSTEM).
Proof.
  intros r. subst r. unfold rdt_test_basic_functionality, mbind, M_bind.
  rewrite (rdt_read_l3_mask_in_range 0 0 m) by (unfold MAX_CLOS; lia).
  change (l3_mask_msr 0) with MSR_IA32_L3_MASK_0.
  destruct (reg_read m 0 MSR_IA32_L3_MASK_0) as [v|]; simpl.
  - rewrite rdt_get_clos_full. rewrite assoc_word_logged.
    destruct (assoc_word m 0) as [w|]; simpl.
    + split; [reflexivity|]. split.
      * rewrite <- app_assoc, drop_app_length. intros a Ha.
        apply elem_of_cons in Ha as [->|Ha]; [eauto|].
        apply list_elem_of_singleton in Ha. subst. eauto.
      * split; [|left; reflexivity]. split; eauto.
    + split; [reflexivity|]. split.
      * rewrite <- app_assoc, drop_app_length. intros a Ha.
        apply elem_of_cons in Ha as [->|Ha]; [eauto|].
        apply list_elem_of_singleton in Ha. subst. eauto.
      * split; [|right; reflexivity]. split; [discriminate|].
        intros (_ & [? H]). discriminate.
  - split; [reflexivity|]. split.
    + rewrite drop_app_length. intros a Ha.
      apply list_elem_of_singleton in Ha. subst. eauto.
    + split; [|right; reflexivity]. split; [discriminate|].
      intros ([? H] & _). discriminate.
Qed.

Lemma write_ok_after_writes msr v cpus : forall m c' msr' v',
  (forall c, c ∈ cpus -> write_ok m c msr v = true) ->
  write_ok (after_writes msr v m cpus) c' msr' v' = write_ok m c' msr' v'.
Proof.
  induction cpus as [|c0 cpus IH]; intros m c' msr' v' Hall; [reflexivity|].
  simpl. rewrite IH.
  - apply write_ok_written. apply Hall. left.
  - intros c Hc. rewrite write_ok_written by (apply Hall; left).
    apply Hall. right. exact Hc.
Qed.

Lemma reg_read_after_writes msr v cpus m c :
  c ∈ cpus -> write_ok m c msr v = true ->
  reg_read (after_writes msr v m cpus) c msr = Some (u64 v).
Proof.
  intros Hin Hok. unfold reg_read, dev_ok.
  destruct (after_writes_fixed msr v cpus m) as (_ & -> & _).
  rewrite (after_writes_hit msr v cpus m c Hin).
  unfold write_ok in Hok.
  destruct (bool_decide (c ∈ devs m) && (0 <=? c)); [reflexivity | discriminate].
Qed.

Lemma rdt_test_cache_allocation_eq m :
  rdt_test_cache_allocation m =
    match rdt_read_l3_mask 1 0 m with
    | ((r0, original_mask), m1) =>
        if negb (r0 =? SUCCESS) then (ERROR_SYSTEM, m1)
        else
          match rdt_write_l3_mask 1 0x3FF m1 with
          | (r1, m2) =>
              if negb (r1 =? SUCCESS) then (ERROR_SYSTEM, m2)
              else
                match rdt_read_l3_mask 1 0 m2 with
                | ((r2, read_mask), m3) =>
                    if negb (r2 =? SUCCESS) then (ERROR_SYSTEM, m3)
                    else if negb (read_mask =? 0x3FF) then (ERROR_SYSTEM, m3)
                    else (SUCCESS, (rdt_write_l3_mask 1 original_mask m3).2)
                end
          end
    end.
Proof.
  unfold rdt_test_cache_allocation, mbind, M_bind.
  destruct (rdt_read_l3_mask 1 0 m) as [[r0 orig] m1]. simpl.
  destruct (negb (r0 =? SUCCESS)); [reflexivity|].
  destruct (rdt_write_l3_mask 1 1023 m1) as [r1 m2].
  destruct (negb (r1 =? SUCCESS)); [reflexivity|].
  destruct (rdt_read_l3_mask 1 0 m2) as [[r2 back] m3]. simpl.
  destruct (negb (r2 =? SUCCESS)); [reflexivity|].
  destruct (negb (back =? 1023)); [reflexivity|].
  destruct (rdt_write_l3_mask 1 orig m3); reflexivity.
Qed.

(** The run of the test when [stop] is the first CPU that refuses the
    restricted mask ([stop = nprocs m] when none does). *)
Lemma rdt_test_cache_allocation_run (m : machine) (orig stop : Z) :
  reg_read m 0 (l3_mask_msr 1) = Some orig ->
  1 <= nprocs m -> 0 <= stop <= nprocs m ->
  (forall j, 0 <= j < stop -> write_ok m j (l3_mask_msr 1) 0x3FF = true) ->
  let r := rdt_test_cache_allocation m in
  (stop < nprocs m -> write_ok m stop (l3_mask_msr 1) 0x3FF = false ->
     r.1 = ERROR_SYSTEM
     /\ forall c, 0 <= c < stop -> regs r.2 !! (c, l3_mask_msr 1) = Some 0x3FF)
  /\ (stop = nprocs m ->
      r.1 = SUCCESS
      /\ ((forall j, 0 <= j < nprocs m -> write_ok m j (l3_mask_msr 1) orig = true) ->
          forall c, 0 <= c < nprocs m -> regs r.2 !! (c, l3_mask_msr 1) = Some orig)).
Proof.
  intros Horig Hcpus Hstop Hb r. subst r.
  assert (H1 : 0 <= 1 < MAX_CLOS) by (unfold MAX_CLOS; lia).
  rewrite rdt_test_cache_allocation_eq.
  rewrite (rdt_read_l3_mask_in_range 1 0 m H1), Horig. cbv beta iota.
  change (negb (SUCCESS =? SUCCESS)) with false. cbv beta iota.
  set (m1 := logged m (Rd 0 (l3_mask_msr 1) SUCCESS)).
  assert (Hb1 : forall j, 0 <= j < stop -> write_ok m1 j (l3_mask_msr 1) 0x3FF = true)
    by (intros j Hj; apply Hb, Hj).
  assert (Hn1 : nprocs m1 = nprocs m) by reflexivity.
  split.
  - intros Hlt Hfail.
    rewrite (rdt_write_l3_mask_run m1 1 0x3FF stop);
      [| lia | rewrite Hn1; lia | exact Hb1 | intros _; exact Hfail].
    cbv zeta. destruct (Z.ltb_spec stop (nprocs m1)); [|lia].
    change (negb (ERROR_SYSTEM =? SUCCESS)) with true. cbv beta iota.
    split; [reflexivity|].
    intros c Hc. cbn [snd]. apply after_writes_hit, elem_of_seqZ. lia.
  - intros ->.
    rewrite (rdt_write_l3_mask_run m1 1 0x3FF (nprocs m));
      [| lia | rewrite Hn1; lia | exact Hb1 | rewrite Hn1; lia].
    cbv zeta. destruct (Z.ltb_spec (nprocs m) (nprocs m1)); [lia|].
    change (negb (SUCCESS =? SUCCESS)) with false. cbv beta iota.
    set (m2 := after_writes (l3_mask_msr 1) 0x3FF m1 (seqZ 0 (nprocs m))).
    assert (Hall : forall c, c ∈ seqZ 0 (nprocs m) ->
              write_ok m1 c (l3_mask_msr 1) 0x3FF = true).
    { intros c Hc. apply elem_of_seqZ in Hc. apply Hb1. lia. }
    assert (Hread : reg_read m2 0 (l3_mask_msr 1) = Some 0x3FF).
    { unfold m2. rewrite reg_read_after_writes; [reflexivity | | apply Hb1; lia].
      apply elem_of_seqZ. lia. }
    rewrite (rdt_read_l3_mask_in_range 1 0 m2 H1), Hread. cbv beta iota.
    change (negb (SUCCESS =? SUCCESS)) with false.
    change (negb (1023 =? 1023)) with false. cbv beta iota.
    set (m3 := logged m2 (Rd 0 (l3_mask_msr 1) SUCCESS)).
    assert (Hn3 : nprocs m3 = nprocs m).
    { unfold m3, m2.
      destruct (after_writes_fixed (l3_mask_msr 1) 0x3FF (seqZ 0 (nprocs m)) m1) as (Hfix & _).
      simpl. rewrite Hfix. reflexivity. }
    split; [reflexivity|].
    intros Hok c Hc. cbn [snd].
    rewrite (rdt_write_l3_mask_run m3 1 orig (nprocs m));
      [| lia | rewrite Hn3; lia | | rewrite Hn3; lia].
    + cbv zeta. rewrite Hn3.
      destruct (Z.ltb_spec (nprocs m) (nprocs m)); [lia|]. cbn [snd].
      apply after_writes_hit, elem_of_seqZ. lia.
    + intros j Hj. unfold m3. rewrite write_ok_logged. unfold m2.
      rewrite write_ok_after_writes by exact Hall.
      unfold m1. rewrite write_ok_logged. apply Hok. lia.
Qed.

(** X13. [rdt_test_cache_allocation], started where the mask of class 1
    can be read on CPU 0, returns [SUCCESS] exactly when the restricted
    mask 0x3FF can be written on every CPU, and [ERROR_SYSTEM]
    otherwise.  On success it has written the mask it read on CPU 0 back
    to every CPU, so that wherever that write goes through each CPU ends
    with the original mask of CPU 0.  When the restricted mask is
    refused at some CPU, the first included, nothing is restored: the
    CPUs written before it keep 0x3FF. *)
Theorem rdt_test_cache_allocation_outcome (m : machine) (orig stop : Z) :
  reg_read m 0 (l3_mask_msr 1) = Some orig ->
  1 <= nprocs m ->
  let r := rdt_test_cache_allocation m in
  (r.1 = SUCCESS <->
   forall j, 0 <= j < nprocs m -> write_ok m j (l3_mask_msr 1) 0x3FF = true)
  /\ (r.1 = SUCCESS \/ r.1 = ERROR_SYSTEM)
  /\ (r.1 = SUCCESS ->
      (forall j, 0 <= j < nprocs m -> write_ok m j (l3_mask_msr 1) orig = true) ->
      forall c, 0 <= c < nprocs m -> regs r.2 !! (c, l3_mask_msr 1) = Some orig)
  /\ (0 <= stop < nprocs m ->
      (forall j, 0 <= j < stop -> write_ok m j (l3_mask_msr 1) 0x3FF = true) ->
      write_ok m stop (l3_mask_msr 1) 0x3FF = false ->
      r.1 = ERROR_SYSTEM
      /\ forall c, 0 <= c < stop -> regs r.2 !! (c, l3_mask_msr 1) = Some 0x3FF).
Proof.
  intros Horig Hn r. subst r.
  destruct (first_stop_exists (l3_mask_msr 1) 0x3FF (Z.to_nat (nprocs m)) 0 m)
    as (first & Hr & Hb & Ha).
  rewrite Z2Nat.id in Hr, Ha by lia. rewrite Z.add_0_l in Hr, Ha.
  destruct (rdt_test_cache_allocation_run m orig first Horig Hn Hr Hb) as [Hfail Hpass].
  cbv zeta in Hfail, Hpass.
  assert (Hcases : first < nprocs m \/ first = nprocs m) by lia.
  split; [|split; [|split]].
  - destruct Hcases as [Hlt|Heq].
    + destruct (Hfail Hlt (Ha Hlt)) as [Hres _]. split.
      * rewrite Hres. discriminate.
      * intros Hall. rewrite Hall in Ha by lia. specialize (Ha Hlt). discriminate.
    + destruct (Hpass Heq) as [Hres _]. split; [|intros _; exact Hres].
      intros _ j Hj. apply Hb. lia.
  - destruct Hcases as [Hlt|Heq].
    + right. apply (Hfail Hlt (Ha Hlt)).
    + left. apply (Hpass Heq).
  - intros Hres Hok. destruct Hcases as [Hlt|Heq].
    + destruct (Hfail Hlt (Ha Hlt)) as [Hres' _]. rewrite Hres' in Hres. discriminate.
    + apply (Hpass Heq). exact Hok.
  - intros Hstop Hbefore Hat.
    destruct (rdt_test_cache_allocation_run m orig stop Horig Hn ltac:(lia) Hbefore)
      as [Hfail' _].
    apply Hfail'; [lia | exact Hat].
Qed.

Lemma rdt_test_cache_allocation_outcome_witness :
  let r := rdt_test_cache_allocation demo in
  r.1 = SUCCESS
  /\ (forall c, 0 <= c < 2 -> regs r.2 !! (c, l3_mask_msr 1) = Some 0xFFFF)
  /\ (rdt_test_cache_allocation refuses_restricted).1 = ERROR_SYSTEM.
Proof.
  assert (Hdemo : forall j, 0 <= j < nprocs demo -> forall v,
            write_ok demo j (l3_mask_msr 1) v = true).
  { intros j Hj v. simpl in Hj.
    assert (j = 0 \/ j = 1) as [-> | ->] by lia; reflexivity. }
  destruct (rdt_test_cache_allocation_outcome demo 0xFFFF 0) as (Hiff & _ & Hrestore & _).
  - vm_compute. reflexivity.
  - simpl. lia.
  - destruct (rdt_test_cache_allocation_outcome refuses_restricted 0xFFFF 0)
      as (_ & _ & _ & Hrefused).
    + vm_compute. reflexivity.
    + simpl. lia.
    + assert (Hres : (rdt_test_cache_allocation demo).1 = SUCCESS).
      { apply Hiff. intros j Hj. apply Hdemo. exact Hj. }
      split; [exact Hres|]. split.
      * apply (Hrestore Hres). intros j Hj. apply Hdemo. exact Hj.
      * apply Hrefused; [simpl; lia | intros j Hj; lia | vm_compute; reflexivity].
Defined.





(** ** What the mask writer leaves alone *)

Lemma write_each_frame msr value (count : nat) : forall (start : Z) (m : machine),
  same_access m (write_each msr value count start m).2
  /\ forall cpu msr', msr' <> msr ->
       regs (write_each msr value count start m).2 !! (cpu, msr') = regs m !! (cpu, msr').
Proof.
  induction count as [|count IH]; intros start m.
  - split; [apply same_access_refl | reflexivity].
  - rewrite write_each_S.
    pose proof (msr_write_cpu_same_access start msr value m) as Hsame.
    assert (Hregs : forall cpu msr', msr' <> msr ->
              regs (msr_write_cpu start msr value m).2 !! (cpu, msr') = regs m !! (cpu, msr')).
    { intros cpu msr' Hne. rewrite msr_write_cpu_regs.
      rewrite (bool_decide_eq_false_2 ((cpu, msr') = (start, msr))) by congruence.
      rewrite Bool.andb_false_r. reflexivity. }
    destruct (msr_write_cpu start msr value m) as [r m1]. cbn [snd] in Hsame, Hregs.
    destruct (negb (r =? SUCCESS)); cbn [snd]; [split; assumption|].
    destruct (IH (start + 1) m1) as [Hsame' Hregs'].
    split; [exact (same_access_trans _ _ _ Hsame Hsame')|].
    intros cpu msr' Hne. rewrite Hregs' by exact Hne. apply Hregs. exact Hne.
Qed.

Lemma rdt_write_l3_mask_touches clos_id mask m :
  same_access m (rdt_write_l3_mask clos_id mask m).2
  /\ forall cpu msr, msr <> l3_mask_msr clos_id ->
       regs (rdt_write_l3_mask clos_id mask m).2 !! (cpu, msr) = regs m !! (cpu, msr).
Proof.
  rewrite rdt_write_l3_mask_eq.
  destruct (clos_id >=? MAX_CLOS); [split; [apply same_access_refl | reflexivity]|].
  fold (l3_mask_msr clos_id).
  pose proof (write_each_frame (l3_mask_msr clos_id) mask (Z.to_nat (nprocs m)) 0 m) as H.
  destruct (write_each _ _ _ _ m) as [[e|] m']; exact H.
Qed.

Lemma l3_mask_msr_from_zero clos_id :
  0 <= clos_id < 2 ^ 31 -> l3_mask_msr clos_id = MSR_IA32_L3_MASK_0 + clos_id.
Proof.
  unfold l3_mask_msr, u32, MSR_IA32_L3_MASK_0. intros H. apply Z.mod_small. lia.
Qed.

(** X15. [rdt_write_l3_mask] with a class id that is not negative writes
    to no register but the mask of that class: every CPU's association
    word, and the mask of every other class, read afterwards as they
    did before, whatever the result of the call. *)
Theorem rdt_write_l3_mask_touches_one_class (m : machine) (clos_id mask : Z) :
  0 <= clos_id < 2 ^ 31 ->
  let r := rdt_write_l3_mask clos_id mask m in
  (forall cpu, assoc_word r.2 cpu = assoc_word m cpu)
  /\ (forall cpu other, 0 <= other < 2 ^ 31 -> other <> clos_id ->
        reg_read r.2 cpu (l3_mask_msr other) = reg_read m cpu (l3_mask_msr other))
  /\ (forall cpu msr, msr <> MSR_IA32_L3_MASK_0 + clos_id ->
        regs r.2 !! (cpu, msr) = regs m !! (cpu, msr)).
Proof.
  intros Hid r. subst r.
  destruct (rdt_write_l3_mask_touches clos_id mask m) as [Hsame Hregs].
  rewrite (l3_mask_msr_from_zero clos_id Hid) in Hregs.
  split; [|split].
  - intros cpu. apply same_access_assoc_word; [exact Hsame|].
    apply Hregs. unfold MSR_IA32_PQR_ASSOC, MSR_IA32_L3_MASK_0. lia.
  - intros cpu other Hother Hne. unfold reg_read, dev_ok.
    destruct Hsame as (-> & _).
    rewrite Hregs; [reflexivity|].
    rewrite (l3_mask_msr_from_zero other Hother). lia.
  - exact Hregs.
Qed.

Lemma rdt_write_l3_mask_touches_one_class_witness :
  let r := rdt_write_l3_mask 1 0xF demo in
  r.1 = SUCCESS
  /\ reg_read r.2 0 (l3_mask_msr 1) = Some 0xF
  /\ reg_read r.2 1 (l3_mask_msr 1) = Some 0xF
  /\ reg_read demo 0 (l3_mask_msr 1) = Some 0xFFFF
  /\ (forall cpu, assoc_word r.2 cpu = assoc_word demo cpu)
  /\ (forall cpu other, 0 <= other < 2 ^ 31 -> other <> 1 ->
        reg_read r.2 cpu (l3_mask_msr other) = reg_read demo cpu (l3_mask_msr other))
  /\ (forall cpu msr, msr <> MSR_IA32_L3_MASK_0 + 1 ->
        regs r.2 !! (cpu, msr) = regs demo !! (cpu, msr)).
Proof.
  split; [vm_compute; reflexivity|]. split; [vm_compute; reflexivity|].
  split; [vm_compute; reflexivity|]. split; [vm_compute; reflexivity|].
  apply (rdt_write_l3_mask_touches_one_class demo 1 0xF). lia.
Defined.

(** X16. The class id [-1] passes the check of [rdt_write_l3_mask], and
    the register it then addresses, one below the first mask register,
    is the association register: where every CPU accepts the write, the
    call returns [SUCCESS] and has replaced the association word of every
    CPU by the mask. *)
Theorem rdt_write_l3_mask_minus_one (m : machine) (mask : Z) :
  0 <= nprocs m ->
  (forall j, 0 <= j < nprocs m -> write_ok m j MSR_IA32_PQR_ASSOC mask = true) ->
  let r := rdt_write_l3_mask (-1) mask m in
  r.1 = SUCCESS
  /\ forall cpu, 0 <= cpu < nprocs m -> assoc_word r.2 cpu = Some (u64 mask).
Proof.
  intros Hn Hall r. subst r.
  assert (Hmsr : l3_mask_msr (-1) = MSR_IA32_PQR_ASSOC) by reflexivity.
  rewrite (rdt_write_l3_mask_run m (-1) mask (nprocs m)).
  - cbv zeta. rewrite Z.ltb_irrefl. cbn [fst snd]. split; [reflexivity|].
    intros cpu Hcpu. rewrite Hmsr.
    apply (reg_read_after_writes MSR_IA32_PQR_ASSOC mask).
    + apply elem_of_seqZ. lia.
    + apply Hall. exact Hcpu.
  - unfold MAX_CLOS. lia.
  - lia.
  - rewrite Hmsr. exact Hall.
  - lia.
Qed.

Lemma rdt_write_l3_mask_minus_one_witness :
  let r := rdt_write_l3_mask (-1) 0xFFFF demo in
  r.1 = SUCCESS
  /\ forall cpu, 0 <= cpu < nprocs demo -> assoc_word r.2 cpu = Some (u64 0xFFFF).
Proof.
  apply (rdt_write_l3_mask_minus_one demo 0xFFFF).
  - vm_compute. discriminate.
  - intros j Hj. change (nprocs demo) with 2 in Hj.
    assert (j = 0 \/ j = 1) as [->| ->] by lia; vm_compute; reflexivity.
Defined.

(** ** How many lines the two monitors print *)

Lemma same_access_sampler_ok m m' : same_access m m' -> sampler_ok m -> sampler_ok m'.
Proof.
  intros Hsame [Hw Hc]. split.
  - intros v. rewrite (same_access_write_ok _ _ _ _ _ Hsame). apply Hw.
  - destruct Hsame as (_ & _ & _ & _ & A5). apply A5, Hc.
Qed.

Lemma msr_read_cpu_present cpu msr old m :
  dev_ok m cpu = true -> is_Some (regs m !! (cpu, msr)) ->
  (msr_read_cpu cpu msr old m).1.1 = SUCCESS.
Proof.
  intros Hdev [v Hv]. rewrite msr_read_cpu_eq. unfold read_step.
  unfold dev_ok in Hdev. rewrite Hdev, Hv.
  destruct (msr =? MSR_IA32_QM_CTR); [destruct (qm_ctr_feed m)|]; reflexivity.
Qed.

Lemma select_and_read_ok v old m :
  sampler_ok m ->
  let m1 := (msr_write_cpu 0 MSR_IA32_QM_EVTSEL v m).2 in
  (msr_write_cpu 0 MSR_IA32_QM_EVTSEL v m).1 = SUCCESS
  /\ (msr_read_cpu 0 MSR_IA32_QM_CTR old m1).1.1 = SUCCESS
  /\ same_access m (msr_read_cpu 0 MSR_IA32_QM_CTR old m1).2.
Proof.
  intros Hok m1.
  pose proof (msr_write_cpu_same_access 0 MSR_IA32_QM_EVTSEL v m) as Hsame.
  fold m1 in Hsame.
  pose proof (same_access_sampler_ok _ _ Hsame Hok) as [Hw1 Hc1].
  split; [|split].
  - rewrite msr_write_cpu_eq, (proj1 Hok v). reflexivity.
  - apply msr_read_cpu_present; [|exact Hc1].
    specialize (Hw1 0). unfold write_ok in Hw1. unfold dev_ok.
    destruct (bool_decide (0 ∈ devs m1) && (0 <=? 0)); [reflexivity | discriminate].
  - eapply same_access_trans; [exact Hsame|].
    apply msr_read_cpu_unchanged.
Qed.

Ltac sample_ok Hok v old m :=
  unfold mbind, M_bind;
  destruct (select_and_read_ok v old m Hok) as (Hsel & Hread & Hsame);
  cbv zeta in Hread, Hsame;
  destruct (msr_write_cpu 0 MSR_IA32_QM_EVTSEL v m) as [r m1];
  cbn [fst snd] in Hsel, Hread, Hsame; subst r;
  change (negb (SUCCESS =? SUCCESS)) with false; cbv beta iota;
  destruct (msr_read_cpu 0 MSR_IA32_QM_CTR old m1) as [[rr value] m2];
  cbn [fst snd] in Hread, Hsame |- *; subst rr;
  change (negb (SUCCESS =? SUCCESS)) with false; cbv beta iota;
  split; [reflexivity | exact Hsame].

Lemma rdt_monitor_read_llc_occupancy_ok rmid old m :
  sampler_ok m ->
  (rdt_monitor_read_llc_occupancy rmid old m).1.1 = SUCCESS
  /\ same_access m (rdt_monitor_read_llc_occupancy rmid old m).2.
Proof.
  intros Hok. unfold rdt_monitor_read_llc_occupancy.
  sample_ok Hok (evtsel_of rmid EVT_LLC_OCCUPANCY) old m.
Qed.

Lemma rdt_monitor_read_mbm_total_ok rmid old m :
  sampler_ok m ->
  (rdt_monitor_read_mbm_total rmid old m).1.1 = SUCCESS
  /\ same_access m (rdt_monitor_read_mbm_total rmid old m).2.
Proof.
  intros Hok. unfold rdt_monitor_read_mbm_total.
  sample_ok Hok (evtsel_of rmid EVT_MBM_TOTAL) old m.
Qed.

Lemma rdt_monitor_read_mbm_local_ok rmid old m :
  sampler_ok m ->
  (rdt_monitor_read_mbm_local rmid old m).1.1 = SUCCESS
  /\ same_access m (rdt_monitor_read_mbm_local rmid old m).2.
Proof.
  intros Hok. unfold rdt_monitor_read_mbm_local.
  sample_ok Hok (evtsel_of rmid EVT_MBM_LOCAL) old m.
Qed.

Lemma monitor_round_ok curr_data t_curr m :
  sampler_ok m ->
  exists c m1,
    monitor_round curr_data t_curr m = (Some c, m1)
    /\ timestamp c = t_curr /\ sampler_ok m1.
Proof.
  intros Hok. unfold monitor_round, mbind, M_bind.
  destruct (rdt_monitor_read_llc_occupancy_ok 0 (llc_occupancy curr_data) m Hok)
    as [Hr1 Hs1].
  destruct (rdt_monitor_read_llc_occupancy 0 (llc_occupancy curr_data) m) as [ro m1].
  cbn [fst snd] in Hr1, Hs1 |- *. rewrite Hr1.
  change (negb (SUCCESS =? SUCCESS)) with false. cbv iota.
  pose proof (same_access_sampler_ok _ _ Hs1 Hok) as Hok1.
  destruct (rdt_monitor_read_mbm_total_ok 0 (mbm_total curr_data) m1 Hok1) as [Hr2 Hs2].
  destruct (rdt_monitor_read_mbm_total 0 (mbm_total curr_data) m1) as [rt m2].
  cbn [fst snd] in Hr2, Hs2 |- *. rewrite Hr2.
  change (negb (SUCCESS =? SUCCESS)) with false. cbv iota.
  pose proof (same_access_sampler_ok _ _ Hs2 Hok1) as Hok2.
  destruct (rdt_monitor_read_mbm_local_ok 0 (mbm_local curr_data) m2 Hok2) as [Hr3 Hs3].
  destruct (rdt_monitor_read_mbm_local 0 (mbm_local curr_data) m2) as [rl m3].
  cbn [fst snd] in Hr3, Hs3 |- *. rewrite Hr3.
  change (negb (SUCCESS =? SUCCESS)) with false. cbv iota.
  eexists. eexists. split; [reflexivity|]. split; [reflexivity|].
  exact (same_access_sampler_ok _ _ Hs3 Hok2).
Qed.

Lemma monitor_rate_line_prints start_time prev_data curr_data :
  0 < timestamp prev_data < timestamp curr_data -> timestamp curr_data < 2 ^ 64 ->
  exists line, monitor_rate_line start_time prev_data curr_data = Some line.
Proof.
  intros Hlt Hmax. unfold monitor_rate_line.
  destruct (Z.gtb_spec (timestamp prev_data) 0); [|lia].
  assert (Hd : sub64 (timestamp curr_data) (timestamp prev_data)
               = timestamp curr_data - timestamp prev_data)
    by (unfold sub64, u64; apply Z.mod_small; lia).
  rewrite Hd.
  destruct (Z.gtb_spec (timestamp curr_data - timestamp prev_data) 0); [|lia].
  eexists. reflexivity.
Qed.

Lemma monitor_loop_count start_time end_time schedule :
  forall prev_data curr_data m,
    sampler_ok m -> 0 <= timestamp prev_data ->
    ticking (timestamp prev_data) schedule ->
    length (monitor_loop start_time end_time schedule prev_data curr_data m).1
    = if 0 <? timestamp prev_data
      then rounds_before end_time schedule
      else Nat.pred (rounds_before end_time schedule).
Proof.
  induction schedule as [|[t_cond t_curr] schedule IH];
    intros prev_data curr_data m Hok Hprev Htick.
  - simpl. destruct (0 <? timestamp prev_data); reflexivity.
  - rewrite monitor_loop_cons. simpl rounds_before.
    destruct (t_cond <? end_time); simpl negb; cbv iota;
      [|simpl; destruct (0 <? timestamp prev_data); reflexivity].
    destruct (monitor_round_ok curr_data t_curr m Hok) as (c & m1 & -> & Hc & Hok1).
    destruct Htick as [Ht Htick]. cbv zeta. cbn [fst].
    rewrite length_app, (IH c c m1 Hok1) by (rewrite Hc; first [lia | exact Htick]).
    rewrite Hc. destruct (Z.ltb_spec 0 t_curr); [|lia].
    destruct (Z.ltb_spec 0 (timestamp prev_data)) as [Hpos|Hzero].
    + destruct (monitor_rate_line_prints start_time prev_data c) as [line ->];
        [rewrite Hc; lia | rewrite Hc; lia | reflexivity].
    + unfold monitor_rate_line.
      destruct (Z.gtb_spec (timestamp prev_data) 0); [lia | reflexivity].
Qed.

(** X17. On a machine whose CPU 0 takes the event selects and has a
    counter, and with a clock whose readings increase,
    [rdt_monitor_continuous] prints one line for every round it runs but
    the first: the rounds are the clock readings of the loop condition
    that lie before the end time. *)
Theorem rdt_monitor_continuous_line_count (duration_seconds start_time : Z)
    (schedule : list (Z * Z)) (m : machine) :
  sampler_ok m -> ticking 0 schedule ->
  length (rdt_monitor_continuous duration_seconds start_time schedule m).1
  = Nat.pred (rounds_before (add64 start_time (mul64 (u64 duration_seconds) 1000000))
                schedule).
Proof.
  intros Hok Htick. unfold rdt_monitor_continuous.
  rewrite monitor_loop_count; [reflexivity | exact Hok | simpl; lia | exact Htick].
Qed.

Lemma rdt_monitor_continuous_line_count_witness :
  length (rdt_monitor_continuous 1 5000000
            [(5000000, 5000010); (5400000, 5400010); (5800000, 5800010);
             (6200000, 6200010)] demo).1 = 2%nat.
Proof.
  rewrite (rdt_monitor_continuous_line_count 1 5000000 _ demo).
  - reflexivity.
  - split; [intros v; reflexivity | eexists; reflexivity].
  - simpl. lia.
Defined.

Lemma bench_loop_count start_time end_time schedule :
  forall prev_mbm_total prev_mbm_local prev_timestamp m,
    0 < prev_timestamp ->
    Forall (fun round => 0 < round.2) schedule ->
    length (bench_loop start_time end_time schedule prev_mbm_total prev_mbm_local
              prev_timestamp m).1
    = rounds_before end_time schedule.
Proof.
  induction schedule as [|[t_cond t_curr] schedule IH];
    intros prev_mbm_total prev_mbm_local prev_timestamp m Hprev Hall.
  - reflexivity.
  - rewrite bench_loop_cons. simpl rounds_before.
    destruct (t_cond <? end_time); simpl negb; cbv iota; [|reflexivity].
    destruct (bench_round m) as [[[llc total] loc] m1]. cbv zeta. cbn [fst].
    inversion Hall as [|? ? Hcurr Hrest]; subst.
    rewrite length_app, (IH total loc t_curr m1 Hcurr Hrest).
    unfold bench_rate_line.
    destruct (Z.gtb_spec prev_timestamp 0); [reflexivity | lia].
Qed.

(** X18. [monitor_rdt_metrics], started at a time that is not zero,
    prints one line for every round it runs, the first included, on any
    machine: a select or a read that fails does not stop it and does not
    suppress the line. *)
Theorem monitor_rdt_metrics_line_count (duration start_time : Z)
    (schedule : list (Z * Z)) (m : machine) :
  0 < start_time ->
  Forall (fun round => 0 < round.2) schedule ->
  length (monitor_rdt_metrics duration start_time schedule m).1
  = rounds_before (add64 start_time (mul64 (u64 duration) 1000000)) schedule.
Proof.
  intros Hstart Hall. unfold monitor_rdt_metrics.
  apply bench_loop_count; assumption.
Qed.

Lemma monitor_rdt_metrics_line_count_witness :
  length (monitor_rdt_metrics 1 5000000
            [(5000000, 5000010); (5400000, 5400010); (5800000, 5800010);
             (6200000, 6200010)] cpu0_offline).1 = 3%nat.
Proof.
  rewrite (monitor_rdt_metrics_line_count 1 5000000 _ cpu0_offline).
  - reflexivity.
  - lia.
  - repeat constructor.
Defined.

(** ** The rate arithmetic of the two monitors *)

Lemma sub64_exact x y : 0 <= y <= x -> x < 2 ^ 64 -> sub64 x y = x - y.
Proof. intros Hy Hx. unfold sub64, u64. apply Z.mod_small. lia. Qed.

Lemma mul64_exact x y : 0 <= x * y < 2 ^ 64 -> mul64 x y = x * y.
Proof. intros H. unfold mul64, u64. apply Z.mod_small. exact H. Qed.

(** X19. Where the clock moved forward and neither byte counter went
    down, and the counter differences times a million still fit 64 bits,
    the line [rdt_monitor_continuous] prints carries the exact quotients:
    the bytes counted, per second, in units of [2^20], and the elapsed
    microseconds since the start. *)
Theorem monitor_rate_line_exact (start_time : Z) (prev_data curr_data : rdt_monitor_data_t) :
  0 < timestamp prev_data < timestamp curr_data -> timestamp curr_data < 2 ^ 64 ->
  0 <= start_time <= timestamp curr_data ->
  0 <= mbm_total prev_data <= mbm_total curr_data -> mbm_total curr_data < 2 ^ 64 ->
  0 <= mbm_local prev_data <= mbm_local curr_data -> mbm_local curr_data < 2 ^ 64 ->
  (mbm_total curr_data - mbm_total prev_data) * 1000000 < 2 ^ 64 ->
  (mbm_local curr_data - mbm_local prev_data) * 1000000 < 2 ^ 64 ->
  let dt := timestamp curr_data - timestamp prev_data in
  monitor_rate_line start_time prev_data curr_data =
    Some {| ml_elapsed_us := timestamp curr_data - start_time;
            ml_rmid := rmid curr_data;
            ml_llc_kb := llc_occupancy curr_data / 1024;
            ml_mbm_total_mbs :=
              (mbm_total curr_data - mbm_total prev_data) * 1000000 / dt / 2 ^ 20;
            ml_mbm_local_mbs :=
              (mbm_local curr_data - mbm_local prev_data) * 1000000 / dt / 2 ^ 20 |}.
Proof.
  intros Ht Hmax Hstart Htotal Htmax Hlocal Hlmax Hft Hfl dt. subst dt.
  unfold monitor_rate_line.
  destruct (Z.gtb_spec (timestamp prev_data) 0); [|lia].
  rewrite (sub64_exact (timestamp curr_data) (timestamp prev_data)) by lia.
  destruct (Z.gtb_spec (timestamp curr_data - timestamp prev_data) 0); [|lia].
  rewrite (sub64_exact (timestamp curr_data) start_time) by lia.
  rewrite (sub64_exact (mbm_total curr_data) (mbm_total prev_data)) by lia.
  rewrite (sub64_exact (mbm_local curr_data) (mbm_local prev_data)) by lia.
  rewrite !mul64_exact by lia.
  reflexivity.
Qed.

Lemma monitor_rate_line_exact_witness :
  monitor_rate_line 1000000
    {| rmid := 0; llc_occupancy := 0; mbm_total := 4096; mbm_local := 0;
       timestamp := 1000000 |}
    {| rmid := 0; llc_occupancy := 2097152; mbm_total := 2101248; mbm_local := 1048576;
       timestamp := 1500000 |}
  = Some {| ml_elapsed_us := 500000; ml_rmid := 0; ml_llc_kb := 2048;
            ml_mbm_total_mbs := 4; ml_mbm_local_mbs := 2 |}.
Proof.
  rewrite monitor_rate_line_exact; simpl; try lia. reflexivity.
Defined.

(** X20. The two monitors compute the same numbers: whenever the block
    of [rdt_monitor_continuous] prints a line, the block of
    [monitor_rdt_metrics] on the same samples prints the same elapsed
    time, occupancy and rates.  They differ when the two timestamps are
    equal: the first prints nothing, the second prints rates of zero. *)
Theorem rate_lines_agree (start_time : Z) (prev_data curr_data : rdt_monitor_data_t) :
  let bench :=
    bench_rate_line start_time (timestamp prev_data) (mbm_total prev_data)
      (mbm_local prev_data) (timestamp curr_data) (llc_occupancy curr_data)
      (mbm_total curr_data) (mbm_local curr_data) in
  (forall line, monitor_rate_line start_time prev_data curr_data = Some line ->
     bench = Some {| bl_elapsed_us := ml_elapsed_us line;
                     bl_llc_kb := ml_llc_kb line;
                     bl_mbm_total_mbs := ml_mbm_total_mbs line;
                     bl_mbm_local_mbs := ml_mbm_local_mbs line |})
  /\ (0 < timestamp prev_data -> timestamp curr_data = timestamp prev_data ->
      monitor_rate_line start_time prev_data curr_data = None
      /\ exists line, bench = Some line
           /\ bl_mbm_total_mbs line = 0 /\ bl_mbm_local_mbs line = 0).
Proof.
  intros bench. subst bench. unfold monitor_rate_line, bench_rate_line. split.
  - intros line Hline.
    destruct (timestamp prev_data >? 0); [|discriminate].
    destruct (sub64 (timestamp curr_data) (timestamp prev_data) >? 0); [|discriminate].
    inversion Hline. reflexivity.
  - intros Hpos Heq. rewrite Heq.
    destruct (Z.gtb_spec (timestamp prev_data) 0); [|lia].
    assert (Hz : sub64 (timestamp prev_data) (timestamp prev_data) = 0)
      by (unfold sub64; rewrite Z.sub_diag; reflexivity).
    rewrite Hz. simpl. split; [reflexivity|].
    eexists. split; [reflexivity|]. split; reflexivity.
Qed.

Lemma rate_lines_agree_witness :
  bench_rate_line 1000000 1000000 4096 0 1500000 2097152 2101248 1048576
  = Some {| bl_elapsed_us := 500000; bl_llc_kb := 2048;
            bl_mbm_total_mbs := 4; bl_mbm_local_mbs := 2 |}.
Proof.
  apply (proj1 (rate_lines_agree 1000000
                  {| rmid := 0; llc_occupancy := 0; mbm_total := 4096; mbm_local := 0;
                     timestamp := 1000000 |}
                  {| rmid := 0; llc_occupancy := 2097152; mbm_total := 2101248;
                     mbm_local := 1048576; timestamp := 1500000 |})
               {| ml_elapsed_us := 500000; ml_rmid := 0; ml_llc_kb := 2048;
                  ml_mbm_total_mbs := 4; ml_mbm_local_mbs := 2 |}).
  reflexivity.
Defined.

(** ** The time helpers of [common/common.c] *)

Lemma get_timestamp_us_exact tv_sec tv_usec :
  0 <= tv_sec -> 0 <= tv_usec -> tv_sec * 1000000 + tv_usec < 2 ^ 64 ->
  get_timestamp_us tv_sec tv_usec = tv_sec * 1000000 + tv_usec.
Proof.
  intros Hs Hu Hfit. unfold get_timestamp_us, add64, mul64, u64.
  rewrite (Z.mod_small tv_sec) by lia.
  rewrite (Z.mod_small (tv_sec * 1000000)) by lia.
  rewrite (Z.mod_small tv_usec) by lia.
  apply Z.mod_small. lia.
Qed.

(** X21. [get_timestamp_us] is the number of microseconds of the
    [timeval] as long as that fits 64 bits; seconds and microseconds can
    be recovered from it, and the unsigned difference of two readings,
    as the monitors take it, is the time between them. *)
Theorem get_timestamp_us_difference (s1 u1 s2 u2 : Z) :
  0 <= s1 -> 0 <= u1 < 1000000 -> 0 <= s2 -> 0 <= u2 < 1000000 ->
  s1 * 1000000 + u1 <= s2 * 1000000 + u2 < 2 ^ 64 ->
  let t1 := get_timestamp_us s1 u1 in
  let t2 := get_timestamp_us s2 u2 in
  t2 / 1000000 = s2 /\ t2 mod 1000000 = u2
  /\ sub64 t2 t1 = (s2 - s1) * 1000000 + (u2 - u1)
  /\ (t1 = t2 -> s1 = s2 /\ u1 = u2).
Proof.
  intros Hs1 Hu1 Hs2 Hu2 Hle t1 t2. subst t1 t2.
  rewrite !get_timestamp_us_exact by lia.
  split; [|split; [|split]].
  - symmetry. apply (Z.div_unique _ _ _ u2); lia.
  - symmetry. apply (Z.mod_unique _ _ s2); lia.
  - rewrite sub64_exact by lia. lia.
  - intros Heq. lia.
Qed.

Lemma get_timestamp_us_difference_witness :
  sub64 (get_timestamp_us 1700000001 250000) (get_timestamp_us 1700000000 750000)
  = (1700000001 - 1700000000) * 1000000 + (250000 - 750000).
Proof.
  refine (proj1 (proj2 (proj2
    (get_timestamp_us_difference 1700000000 750000 1700000001 250000 _ _ _ _ _)))); lia.
Defined.

(** X22. For every [int] number of milliseconds the product in
    [sleep_ms] stays within [int], and the [timespec] is the requested
    time.  From zero up it is a normalised [timespec]; for a negative
    argument neither field is positive and one is negative, which
    [nanosleep] refuses. *)
Theorem sleep_ms_timespec (ms : Z) :
  is_int ms ->
  let ts := sleep_ms ms in
  is_int ts.2
  /\ ts.1 * 1000000000 + ts.2 = ms * 1000000
  /\ (0 <= ms -> 0 <= ts.1 /\ 0 <= ts.2 < 1000000000)
  /\ (ms < 0 -> ts.1 <= 0 /\ ts.2 <= 0 /\ (ts.1 < 0 \/ ts.2 < 0)).
Proof.
  intros Hms ts. subst ts. unfold sleep_ms, is_int in *. cbn [fst snd].
  pose proof (Z.quot_rem' ms 1000) as Hqr.
  assert (Hrem : - 1000 < Z.rem ms 1000 < 1000).
  { destruct (Z_le_gt_dec 0 ms).
    - pose proof (Z.rem_bound_pos_pos ms 1000). lia.
    - pose proof (Z.rem_bound_pos_neg ms 1000). lia. }
  split; [lia|]. split; [lia|]. split.
  - intros Hpos. pose proof (Z.rem_bound_pos_pos ms 1000).
    pose proof (Z.quot_pos ms 1000). lia.
  - intros Hneg. pose proof (Z.rem_bound_pos_neg ms 1000).
    assert (Z.quot ms 1000 <= 0); [|lia].
    destruct (Z_le_gt_dec (Z.quot ms 1000) 0); [assumption | lia].
Qed.

Lemma sleep_ms_timespec_witness :
  let ts := sleep_ms 2500 in
  is_int ts.2
  /\ ts.1 * 1000000000 + ts.2 = 2500 * 1000000
  /\ (0 <= 2500 -> 0 <= ts.1 /\ 0 <= ts.2 < 1000000000)
  /\ (2500 < 0 -> ts.1 <= 0 /\ ts.2 <= 0 /\ (ts.1 < 0 \/ ts.2 < 0)).
Proof. apply (sleep_ms_timespec 2500). unfold is_int. lia. Defined.

(** ** The event selector *)

(** X23. The selector the sampling functions write has the identifier
    in its low half and the event id in its high half, for an identifier
    from 0 up.  A negative identifier is not refused and, sign-extended,
    fills the high half: the selector is then the same for every event. *)
Theorem evtsel_of_layout (rmid event : Z) :
  is_int rmid -> 0 <= event < 2 ^ 32 ->
  (0 <= rmid ->
     clos_half (evtsel_of rmid event) = rmid
     /\ rmid_half (evtsel_of rmid event) = event)
  /\ (rmid < 0 -> evtsel_of rmid event = 2 ^ 64 + rmid).
Proof.
  unfold is_int. intros Hid Hev. split.
  - intros Hpos. unfold evtsel_of.
    rewrite (u64_small rmid) by (unfold is_u64; lia).
    split.
    + unfold clos_half. apply Z.bits_inj'. intros i Hi.
      rewrite Z.land_spec, Z.lor_spec, testbit_low_mask.
      unfold shl64. rewrite u64_testbit, testbit_shiftl by lia.
      pose proof (testbit_small rmid 32 i ltac:(lia) ltac:(lia)) as Hsmall.
      pose proof (Z.testbit_neg_r event (i - 32)) as Hneg.
      cmp_cases; try lia; rewrite ?Hsmall, ?Hneg by lia;
        destruct (Z.testbit rmid i); try reflexivity;
        destruct (Z.testbit event (i - 32)); reflexivity.
    + unfold rmid_half. apply Z.bits_inj'. intros i Hi.
      rewrite Z.shiftr_spec, Z.lor_spec by lia.
      unfold shl64. rewrite u64_testbit, testbit_shiftl by lia.
      replace (i + 32 - 32) with i by lia.
      rewrite (testbit_small rmid 32 (i + 32)) by lia.
      pose proof (testbit_small event 32 i Hev ltac:(lia)) as Hsmall.
      cmp_cases; try lia; rewrite ?Hsmall by lia;
        destruct (Z.testbit event i); reflexivity.
  - intros Hneg. unfold evtsel_of.
    rewrite <- (u64_negative rmid) by lia.
    apply Z.bits_inj'. intros i Hi.
    rewrite Z.lor_spec. unfold shl64. rewrite !u64_testbit, testbit_shiftl by lia.
    pose proof (testbit_negative rmid 31 i) as Hones.
    pose proof (Z.testbit_neg_r event (i - 32)) as Hlow.
    destruct (Z_lt_le_dec i 32);
      cmp_cases; try lia; rewrite ?Hones, ?Hlow by lia;
      destruct (Z.testbit rmid i); try reflexivity;
      destruct (Z.testbit event (i - 32)); reflexivity.
Qed.

Lemma evtsel_of_layout_witness :
  evtsel_of (-1) EVT_LLC_OCCUPANCY = evtsel_of (-1) EVT_MBM_TOTAL
  /\ rmid_half (evtsel_of 5 EVT_MBM_LOCAL) = EVT_MBM_LOCAL.
Proof.
  assert (Hid : is_int (-1)) by (unfold is_int; lia).
  assert (Hid5 : is_int 5) by (unfold is_int; lia).
  destruct (evtsel_of_layout (-1) EVT_LLC_OCCUPANCY Hid) as [_ H1];
    [unfold EVT_LLC_OCCUPANCY; lia|].
  destruct (evtsel_of_layout (-1) EVT_MBM_TOTAL Hid) as [_ H2];
    [unfold EVT_MBM_TOTAL; lia|].
  destruct (evtsel_of_layout 5 EVT_MBM_LOCAL Hid5) as [H3 _];
    [unfold EVT_MBM_LOCAL; lia|].
  split.
  - rewrite H1, H2 by lia. reflexivity.
  - apply H3. lia.
Defined.

(** ** The benchmark's class setup *)

Lemma mba_msr_is_not_a_mask clos_id :
  u32 (MSR_IA32_MBA_THRTL_MSR + clos_id) <> l3_mask_msr clos_id.
Proof.
  unfold l3_mask_msr, u32, MSR_IA32_MBA_THRTL_MSR, MSR_IA32_L3_MASK_0. intros H.
  pose proof (Z.div_mod (0xD50 + clos_id) (2 ^ 32) ltac:(lia)) as H1.
  pose proof (Z.div_mod (0xC90 + clos_id) (2 ^ 32) ltac:(lia)) as H2.
  rewrite H in H1. lia.
Qed.

Lemma setup_rdt_clos_eq clos_id l3_mask mb_throttle m :
  setup_rdt_clos clos_id l3_mask mb_throttle m =
    if write_ok m 0 (l3_mask_msr clos_id) l3_mask then
      let m1 := written m 0 (l3_mask_msr clos_id) l3_mask in
      (SUCCESS,
       if feature_mba m && (mb_throttle >? 0)
       then (msr_write_cpu 0 (u32 (MSR_IA32_MBA_THRTL_MSR + clos_id)) mb_throttle m1).2
       else m1)
    else (ERROR_SYSTEM, logged m (Wr 0 (l3_mask_msr clos_id) l3_mask ERROR_SYSTEM)).
Proof.
  unfold setup_rdt_clos, mbind, M_bind. fold (l3_mask_msr clos_id).
  rewrite msr_write_cpu_eq.
  destruct (write_ok m 0 (l3_mask_msr clos_id) l3_mask); [|reflexivity].
  change (negb (SUCCESS =? SUCCESS)) with false. cbv beta iota.
  unfold check_cpu_feature_mba. cbv zeta.
  change (feature_mba (written m 0 (l3_mask_msr clos_id) l3_mask)) with (feature_mba m).
  destruct (feature_mba m); simpl; [|reflexivity].
  destruct (mb_throttle >? 0); [|reflexivity].
  destruct (msr_write_cpu 0 _ mb_throttle _); reflexivity.
Qed.

(** X24. [setup_rdt_clos] returns [SUCCESS] exactly when CPU 0 takes the
    mask, whatever becomes of the throttle write; the mask then reads
    back on CPU 0.  It configures CPU 0 only: every register of every
    other CPU is as before, and a refused mask leaves all registers as
    they were. *)
Theorem setup_rdt_clos_effect (m : machine) (clos_id l3_mask mb_throttle : Z) :
  let r := setup_rdt_clos clos_id l3_mask mb_throttle m in
  (r.1 = if write_ok m 0 (l3_mask_msr clos_id) l3_mask then SUCCESS else ERROR_SYSTEM)
  /\ (r.1 = SUCCESS -> reg_read r.2 0 (l3_mask_msr clos_id) = Some (u64 l3_mask))
  /\ (forall cpu msr, cpu <> 0 -> regs r.2 !! (cpu, msr) = regs m !! (cpu, msr))
  /\ (r.1 <> SUCCESS -> regs r.2 = regs m).
Proof.
  intros r. subst r. rewrite setup_rdt_clos_eq.
  destruct (write_ok m 0 (l3_mask_msr clos_id) l3_mask) eqn:Hok; cbv zeta; cbn [fst snd].
  - set (m1 := written m 0 (l3_mask_msr clos_id) l3_mask).
    set (mba := u32 (MSR_IA32_MBA_THRTL_MSR + clos_id)).
    assert (Hdev : dev_ok m 0 = true).
    { unfold write_ok in Hok. unfold dev_ok.
      destruct (bool_decide (0 ∈ devs m) && (0 <=? 0)); [reflexivity | discriminate]. }
    split; [reflexivity|]. split; [|split].
    + intros _. unfold reg_read.
      destruct (feature_mba m && (mb_throttle >? 0)).
      * pose proof (msr_write_cpu_same_access 0 mba mb_throttle m1) as (Hd & _).
        unfold dev_ok in *. rewrite Hd. change (devs m1) with (devs m). rewrite Hdev.
        rewrite msr_write_cpu_regs.
        rewrite (bool_decide_eq_false_2 ((0, l3_mask_msr clos_id) = (0, mba))), Bool.andb_false_r.
        -- unfold m1, written. simpl. rewrite lookup_insert_eq. reflexivity.
        -- intros Heq. apply (mba_msr_is_not_a_mask clos_id). unfold mba in Heq. congruence.
      * unfold dev_ok in *. change (devs m1) with (devs m). rewrite Hdev.
        unfold m1, written. simpl. rewrite lookup_insert_eq. reflexivity.
    + intros cpu msr Hcpu.
      assert (Hm1 : regs m1 !! (cpu, msr) = regs m !! (cpu, msr)).
      { unfold m1, written. simpl. apply lookup_insert_ne. congruence. }
      destruct (feature_mba m && (mb_throttle >? 0)); [|exact Hm1].
      rewrite msr_write_cpu_regs.
      rewrite (bool_decide_eq_false_2 ((cpu, msr) = (0, mba))), Bool.andb_false_r by congruence.
      exact Hm1.
    + intros Hne. contradiction Hne. reflexivity.
  - split; [reflexivity|]. split; [discriminate|]. split; reflexivity.
Qed.

(** ** The two flag lookups *)

Lemma fgets_upto_splits room : forall stream,
  (fgets_upto room stream).1 ++ (fgets_upto room stream).2 = stream
  /\ (length (fgets_upto room stream).1 <= room)%nat.
Proof.
  induction room as [|room IH]; intros stream; [split; [reflexivity | simpl; lia]|].
  destruct stream as [|c stream]; [split; [reflexivity | simpl; lia]|].
  simpl. destruct (Ascii.eqb c newline); simpl.
  - split; [reflexivity | lia].
  - destruct (IH stream) as [H1 H2]. rewrite H1. split; [reflexivity | lia].
Qed.

Lemma fgets_upto_line line : forall room rest,
  newline ∉ line -> (length line < room)%nat ->
  fgets_upto room (line ++ newline :: rest) = (line ++ [newline], rest).
Proof.
  induction line as [|c line IH]; intros room rest Hnl Hlen.
  - destruct room; [simpl in Hlen; lia|]. simpl. reflexivity.
  - destruct room; [simpl in Hlen; lia|]. simpl.
    destruct (Ascii.eqb_spec c newline) as [->|Hne].
    + contradiction Hnl. left.
    + rewrite IH; [reflexivity | | simpl in Hlen; lia].
      intros Hin. apply Hnl. right. exact Hin.
Qed.

Lemma fgets_upto_full head : forall rest,
  newline ∉ head -> fgets_upto (length head) (head ++ rest) = (head, rest).
Proof.
  induction head as [|c head IH]; intros rest Hnl; [reflexivity|].
  simpl. destruct (Ascii.eqb_spec c newline) as [->|Hne].
  - contradiction Hnl. left.
  - rewrite IH; [reflexivity|]. intros Hin. apply Hnl. right. exact Hin.
Qed.

Lemma fgets_line size line rest :
  fits size line ->
  fgets size (line ++ newline :: rest) = Some (line ++ [newline], rest).
Proof.
  intros [Hnl Hlen]. unfold fgets.
  destruct (line ++ newline :: rest) eqn:Heq; [destruct line; discriminate|].
  rewrite <- Heq. f_equal. apply fgets_upto_line; [exact Hnl | lia].
Qed.

Lemma fgets_full size head rest :
  newline ∉ head -> head <> [] -> length head = (size - 1)%nat ->
  fgets size (head ++ rest) = Some (head, rest).
Proof.
  intros Hnl Hne Hlen. unfold fgets.
  destruct (head ++ rest) eqn:Heq; [destruct head; [contradiction | discriminate]|].
  rewrite <- Heq, <- Hlen. f_equal. apply fgets_upto_full. exact Hnl.
Qed.

(** A call of [fgets] that returns a line takes at least one character
    off the stream. *)
Lemma fgets_consumes size stream line rest :
  (2 <= size)%nat -> fgets size stream = Some (line, rest) ->
  (length rest < length stream)%nat.
Proof.
  intros Hsize. unfold fgets. destruct stream as [|c stream]; [discriminate|].
  intros H. inversion H as [Hr]. clear H.
  destruct (size - 1)%nat as [|room] eqn:Hroom; [lia|].
  simpl in Hr. destruct (Ascii.eqb c newline).
  - inversion Hr. subst. simpl. lia.
  - inversion Hr. subst.
    destruct (fgets_upto_splits room stream) as [Hsplit _].
    rewrite <- Hsplit at 2. simpl. rewrite length_app. lia.
Qed.

(** The loop ends within one call more than the stream has characters,
    and more calls do not change what it finds. *)
Lemma scan_lines_ends size hit : forall calls stream,
  (2 <= size)%nat -> (length stream < calls)%nat ->
  exists found, scan_lines calls size hit stream = Some found.
Proof.
  induction calls as [|calls IH]; intros stream Hsize Hlen; [lia|].
  simpl. destruct (fgets size stream) as [[line rest]|] eqn:Hget; [|eauto].
  destruct (hit line); [eauto|].
  apply IH; [exact Hsize|].
  pose proof (fgets_consumes size stream line rest Hsize Hget). lia.
Qed.

Lemma scan_lines_more size hit : forall calls calls' stream found,
  scan_lines calls size hit stream = Some found -> (calls <= calls')%nat ->
  scan_lines calls' size hit stream = Some found.
Proof.
  induction calls as [|calls IH]; intros calls' stream found Hrun Hle; [discriminate|].
  destruct calls' as [|calls']; [lia|].
  simpl in *. destruct (fgets size stream) as [[line rest]|]; [|exact Hrun].
  destruct (hit line); [exact Hrun|].
  apply (IH calls'); [exact Hrun | lia].
Qed.

Lemma scan_lines_enough size hit calls stream :
  (2 <= size)%nat -> (length stream < calls)%nat ->
  scan_lines calls size hit stream = scan_lines (S (length stream)) size hit stream.
Proof.
  intros Hsize Hlen.
  destruct (scan_lines_ends size hit (S (length stream)) stream Hsize ltac:(lia))
    as [found Hfound].
  rewrite Hfound. apply (scan_lines_more size hit (S (length stream))); [exact Hfound | lia].
Qed.

(** One round of the loop, on a stream that begins with what one call of
    [fgets] returns. *)
Lemma scan_lines_round size hit line rest :
  (2 <= size)%nat -> fgets size (line ++ rest) = Some (line, rest) ->
  scan_lines (S (length (line ++ rest))) size hit (line ++ rest) =
    if hit line then Some true else scan_lines (S (length rest)) size hit rest.
Proof.
  intros Hsize Hget. simpl scan_lines at 1. rewrite Hget.
  destruct (hit line); [reflexivity|].
  apply scan_lines_enough; [exact Hsize|].
  apply (fgets_consumes size _ line rest Hsize Hget).
Qed.

(** A decidable reading of "no newline in the line". *)
(** A decidable reading of "the character does not occur in the line". *)
Lemma absent_forallb (c : ascii) (line : list ascii) :
  forallb (fun x => negb (Ascii.eqb x c)) line = true -> c ∉ line.
Proof.
  induction line as [|x line IH]; intros H Hin; [inversion Hin|].
  simpl in H. apply Bool.andb_true_iff in H as [Hx Hrest].
  apply elem_of_cons in Hin as [Heq|Hin]; [|exact (IH Hrest Hin)].
  subst x. rewrite Ascii.eqb_refl in Hx. discriminate.
Qed.



Lemma check_cpu_feature_round line rest feature :
  fgets 1024 (line ++ rest) = Some (line, rest) ->
  check_cpu_feature (Some (line ++ rest)) feature =
    if strncmp_eq (cstr line) flags 5 && strstr (cstr line) (cstr feature)
    then Some SUCCESS
    else check_cpu_feature (Some rest) feature.
Proof.
  intros Hget. unfold check_cpu_feature.
  rewrite (scan_lines_round 1024 _ line rest ltac:(lia) Hget).
  destruct (strncmp_eq (cstr line) flags 5 && strstr (cstr line) (cstr feature));
    reflexivity.
Qed.

Lemma check_cpu_feature_returns cpuinfo feature :
  is_Some (check_cpu_feature cpuinfo feature).
Proof.
  destruct cpuinfo as [stream|]; simpl; [|eauto].
  destruct (scan_lines_ends 1024
              (fun line => strncmp_eq (cstr line) flags 5
                           && strstr (cstr line) (cstr feature))
              (S (length stream)) stream ltac:(lia) ltac:(lia)) as [found Hfound].
  simpl in Hfound. rewrite Hfound. simpl. eauto.
Qed.

(** X25. [check_cpu_feature] returns on every text, and it searches the
    first 1023 characters of a line only.  On a text that begins with
    1023 characters without a newline, the result is [SUCCESS] when the
    C string in those characters begins with the word flags and contains
    the feature; otherwise it is the result on what follows them, read
    as a text of its own.  In particular, when the rest of the line fits
    a buffer and does not begin with the word flags, it is passed over,
    whether or not the feature is named there. *)
Theorem check_cpu_feature_reads_one_buffer (head feature : list ascii) :
  length head = 1023%nat -> newline ∉ head ->
  let found_in_head :=
    strncmp_eq (cstr head) flags 5 && strstr (cstr head) (cstr feature) in
  (forall rest,
     check_cpu_feature (Some (head ++ rest)) feature =
       if found_in_head then Some SUCCESS else check_cpu_feature (Some rest) feature)
  /\ (forall tail rest,
        fits 1024 tail -> strncmp_eq (cstr (tail ++ [newline])) flags 5 = false ->
        check_cpu_feature (Some (head ++ tail ++ newline :: rest)) feature =
          if found_in_head then Some SUCCESS else check_cpu_feature (Some rest) feature)
  /\ (forall text, is_Some (check_cpu_feature (Some text) feature)).
Proof.
  intros Hlen Hnl found_in_head. subst found_in_head.
  assert (Hhead : forall rest,
            check_cpu_feature (Some (head ++ rest)) feature =
              if strncmp_eq (cstr head) flags 5 && strstr (cstr head) (cstr feature)
              then Some SUCCESS else check_cpu_feature (Some rest) feature).
  { intros rest. apply check_cpu_feature_round, fgets_full;
      [exact Hnl | intros ->; discriminate | rewrite Hlen; reflexivity]. }
  split; [exact Hhead|]. split; [|intros text; apply check_cpu_feature_returns].
  intros tail rest Hfits Htail. rewrite Hhead.
  destruct (strncmp_eq (cstr head) flags 5 && strstr (cstr head) (cstr feature));
    [reflexivity|].
  replace (tail ++ newline :: rest) with ((tail ++ [newline]) ++ rest)
    by (rewrite <- app_assoc; reflexivity).
  rewrite check_cpu_feature_round.
  - rewrite Htail. reflexivity.
  - rewrite <- app_assoc. apply fgets_line. exact Hfits.
Qed.

Lemma check_cpu_feature_reads_one_buffer_witness :
  strstr long_flags_line ["r"; "d"; "t"; "_"; "a"]%char = true
  /\ check_cpu_feature (Some (long_flags_line ++ [newline])) ["r"; "d"; "t"; "_"; "a"]%char
     = Some ERROR_NOT_SUPPORTED.
Proof.
  split; [vm_compute; reflexivity|].
  change (long_flags_line ++ [newline])
    with ((flags ++ repeat " "%char 1018)
          ++ [" "; "r"; "d"; "t"; "_"; "a"]%char ++ newline :: []).
  destruct (check_cpu_feature_reads_one_buffer (flags ++ repeat " "%char 1018)
              ["r"; "d"; "t"; "_"; "a"]%char)
    as (_ & Heq & _).
  - vm_compute. reflexivity.
  - apply absent_forallb. vm_compute. reflexivity.
  - rewrite Heq.
    + vm_compute. reflexivity.
    + split; [apply absent_forallb; vm_compute; reflexivity | simpl; lia].
    + vm_compute. reflexivity.
Defined.

Lemma strstr_starts haystack needle :
  starts_with needle haystack = true -> strstr haystack needle = true.
Proof.
  intros H. destruct haystack; simpl; [exact H|]. rewrite H. reflexivity.
Qed.





Lemma text_of_lines_cons line lines :
  text_of_lines (line :: lines) = (line ++ [newline]) ++ text_of_lines lines.
Proof. reflexivity. Qed.

(** On a text of lines that fit the buffer the loop looks at every line
    in turn. *)
Lemma scan_text_of_lines size hit lines :
  (2 <= size)%nat -> Forall (fits size) lines ->
  scan_lines (S (length (text_of_lines lines))) size hit (text_of_lines lines)
  = Some (existsb (fun line => hit (line ++ [newline])) lines).
Proof.
  intros Hsize Hall. induction Hall as [|line lines Hfits Hall IH]; [reflexivity|].
  rewrite text_of_lines_cons, scan_lines_round;
    [|exact Hsize | rewrite <- app_assoc; apply fgets_line; exact Hfits].
  simpl existsb. destruct (hit (line ++ [newline])); [reflexivity | exact IH].
Qed.

Lemma strncmp_flags_strstr line :
  strncmp_eq line flags 5 = true -> strstr line flags = true.
Proof.
  intros H. apply strstr_starts.
  destruct line as [|c1 [|c2 [|c3 [|c4 [|c5 line]]]]]; try discriminate H;
    simpl in H; rewrite ?Bool.andb_false_r in H; try discriminate H.
  repeat (apply Bool.andb_true_iff in H; destruct H as [?Heq H]).
  repeat match goal with Hc : Ascii.eqb _ _ = true |- _ => apply Ascii.eqb_eq in Hc end.
  subst. reflexivity.
Qed.

(** X27. On a [/proc/cpuinfo] whose lines fit the smaller of the two
    buffers, [msr_check_cpu_feature] finds every feature that
    [check_cpu_feature] finds: a line that begins with the word flags
    also contains it. *)
Theorem msr_check_cpu_feature_finds_more (lines : list (list ascii)) (feature : list ascii) :
  Forall (fits 256) lines ->
  check_cpu_feature (Some (text_of_lines lines)) feature = Some SUCCESS ->
  msr_check_cpu_feature (Some (text_of_lines lines)) feature = Some SUCCESS.
Proof.
  intros Hall. unfold check_cpu_feature, msr_check_cpu_feature.
  rewrite (scan_text_of_lines 256) by (lia || exact Hall).
  rewrite (scan_text_of_lines 1024)
    by (lia || (eapply Forall_impl; [exact Hall|]; intros l [H1 H2]; split; [exact H1 | lia])).
  simpl. intros Hfound.
  destruct (existsb _ lines) eqn:Hex in Hfound; [|discriminate].
  apply existsb_exists in Hex as (line & Hin & Hhit).
  apply Bool.andb_true_iff in Hhit as [Hflags Hfeat].
  assert (Hex' : existsb (fun line => strstr (cstr (line ++ [newline])) flags
                                      && strstr (cstr (line ++ [newline])) (cstr feature))
                   lines = true).
  { apply existsb_exists. exists line. split; [exact Hin|].
    rewrite (strncmp_flags_strstr _ Hflags), Hfeat. reflexivity. }
  rewrite Hex'. reflexivity.
Qed.

Lemma msr_check_cpu_feature_finds_more_witness :
  msr_check_cpu_feature (Some (text_of_lines cpuinfo_lines)) ["m"; "b"; "a"]%char
  = Some SUCCESS
  /\ check_cpu_feature (Some (text_of_lines cpuinfo_lines)) ["h"; "t"]%char
     = Some ERROR_NOT_SUPPORTED
  /\ msr_check_cpu_feature (Some (text_of_lines cpuinfo_lines)) ["h"; "t"]%char
     = Some SUCCESS.
Proof.
  split; [|split; vm_compute; reflexivity].
  apply msr_check_cpu_feature_finds_more.
  - repeat constructor; try (apply absent_forallb; vm_compute; reflexivity);
      simpl; lia.
  - vm_compute. reflexivity.
Defined.
